(** * Aura AI client: the REST API client, the chat page and the S3-key
      helpers, embedded in Rocq

    The development follows the JavaScript sources:
    - the API client, which the pages import as [../services/api]; its text
      is the second part of [src/components/JoinRoom.jsx] (from line 54):
      [getImageProxyUrl] (l. 129), [extractS3KeyFromUrl] (l. 160),
      [login] (l. 190), [getUploadUrl] (l. 225), [getImageUrl] (l. 271),
      [deletePhoto] (l. 397), [likeImage] (l. 475),
      [createChat] (l. 511), [getChats] (l. 544), [sendChatMessage] (l. 587);
      the functions that take a [File] or build a [FormData]
      ([uploadFileToS3], [uploadImageViaProxy], [updateUser]) are left out;
    - the chat page [src/pages/Chat.jsx], in its two versions: the page with
      a text input (l. 1-465: the effects of the mount, l. 18-48,
      [fetchChatsWithUserId], l. 56, [fetchChats], l. 101, [createNewChat],
      l. 107, [sendMessage], l. 126, [handleLikeImage], l. 198, the click
      on a chat of the sidebar, l. 242) and the page with voice input
      (from l. 466: the handlers of the speech recognition, l. 618-655,
      [sendMessageFromText], l. 674; the effects, [fetchChatsWithUserId],
      [createNewChat] and [handleLikeImage] are the same text).

    JavaScript values are an inductive type; a string is the byte string of
    its UTF-8 form; a function that has effects, [async] or not, is a
    computation that yields the list of the effects it performs and the way
    it completes (for an [async] function: the way its promise settles);
    what the browser supplies ([localStorage], [fetch], [JSON.parse], the
    [URL] constructor, audio output) is a type class. A handler of the page
    reads the state cells of the render that created it and writes through
    the setters, which are effects; [run] applies the effects of a trace to
    the state cells, one after the other. *)

From Stdlib Require Import String Ascii List ZArith Bool Lia DecimalString.
Import ListNotations.
Local Open Scope list_scope.
Local Open Scope string_scope.

#[local] Set Warnings "-register-all".

(** ** Strings *)

Module Str.

Definition bytes (l : list nat) : string :=
  string_of_list_ascii (map ascii_of_nat l).

Fixpoint rev_onto (s acc : string) : string :=
  match s with
  | EmptyString => acc
  | String c r => rev_onto r (String c acc)
  end.

Definition rev (s : string) : string := rev_onto s "".

Fixpoint drop (n : nat) (s : string) : string :=
  match n, s with
  | O, _ => s
  | S n', String _ r => drop n' r
  | S _, EmptyString => ""
  end.

(** [String.prototype.includes]. *)
Fixpoint includes (s sub : string) : bool :=
  prefix sub s ||
  match s with
  | EmptyString => false
  | String _ r => includes r sub
  end.

(** [String.prototype.split] with a one-character separator. *)
Fixpoint split (sep : ascii) (s : string) : list string :=
  match s with
  | EmptyString => [""]
  | String c r =>
      if Ascii.eqb c sep then "" :: split sep r
      else match split sep r with
           | h :: t => String c h :: t
           | [] => [String c ""]
           end
  end.

(** [Array.prototype.join]. *)
Fixpoint join (sep : string) (l : list string) : string :=
  match l with
  | [] => ""
  | [x] => x
  | x :: r => x ++ sep ++ join sep r
  end.

(** The code points that ECMAScript's [trim] removes (WhiteSpace and
    LineTerminator), as UTF-8 byte sequences: TAB, LF, VT, FF, CR, SP,
    U+00A0, U+1680, U+2000..U+200A, U+2028, U+2029, U+202F, U+205F,
    U+3000 and U+FEFF. *)
Definition whitespace : list string :=
  map bytes
    [ [9]; [10]; [11]; [12]; [13]; [32]; [194; 160]; [225; 154; 128];
      [226; 128; 128]; [226; 128; 129]; [226; 128; 130]; [226; 128; 131];
      [226; 128; 132]; [226; 128; 133]; [226; 128; 134]; [226; 128; 135];
      [226; 128; 136]; [226; 128; 137]; [226; 128; 138]; [226; 128; 168];
      [226; 128; 169]; [226; 128; 175]; [226; 129; 159]; [227; 128; 128];
      [239; 187; 191] ].

Fixpoint strip_one (tokens : list string) (s : string) : option string :=
  match tokens with
  | [] => None
  | t :: ts => if prefix t s then Some (drop (String.length t) s) else strip_one ts s
  end.

Fixpoint strip_all (tokens : list string) (fuel : nat) (s : string) : string :=
  match fuel with
  | O => s
  | S fuel' =>
      match strip_one tokens s with
      | Some s' => strip_all tokens fuel' s'
      | None => s
      end
  end.

Definition trimStart (s : string) : string :=
  strip_all whitespace (String.length s) s.

Definition trimEnd (s : string) : string :=
  rev (strip_all (map rev whitespace) (String.length s) (rev s)).

(** [String.prototype.trim]. *)
Definition trim (s : string) : string := trimEnd (trimStart s).

(** The code points of a string, which is what spreading a string into an
    array iterates over: a UTF-8 continuation byte (10xxxxxx) belongs to
    the code point that the preceding bytes started. *)
Definition continuation (c : ascii) : bool :=
  let n := nat_of_ascii c in (128 <=? n)%nat && (n <? 192)%nat.

Fixpoint codePoints (s : string) : list string :=
  match s with
  | EmptyString => []
  | String c r =>
      match codePoints r with
      | String d g :: t =>
          if continuation d then String c (String d g) :: t
          else String c "" :: String d g :: t
      | t => String c "" :: t
      end
  end.

End Str.

(** ** JavaScript values *)

(** Numbers are the integers; no function of the client computes on a
    number, they are only tested for truthiness or printed. *)
Inductive val : Type :=
| VUndef
| VNull
| VBool (b : bool)
| VNum (n : Z)
| VStr (s : string)
| VArr (l : list val)
| VObj (props : list (string * val)).

(** What a [throw] carries, or what a promise rejects with: an instance of
    [Error] (with its [name] and [message]), or any other value. *)
Inductive thrown : Type :=
| ErrorObj (name message : string)
| Thrown (v : val).

Definition Error (message : string) : thrown := ErrorObj "Error" message.
Definition TypeError (message : string) : thrown := ErrorObj "TypeError" message.

Definition instanceof_Error (t : thrown) : bool :=
  match t with
  | ErrorObj _ _ => true
  | Thrown _ => false
  end.

Definition truthy (v : val) : bool :=
  match v with
  | VUndef | VNull => false
  | VBool b => b
  | VNum n => negb (n =? 0)%Z
  | VStr s => negb (s =? "")
  | VArr _ | VObj _ => true
  end.

(** [a || b] *)
Definition or_else (a b : val) : val := if truthy a then a else b.

Definition nullish (v : val) : bool :=
  match v with
  | VUndef | VNull => true
  | _ => false
  end.

Fixpoint lookup (k : string) (props : list (string * val)) : val :=
  match props with
  | [] => VUndef
  | (k', v) :: r => if k' =? k then v else lookup k r
  end.

(** [v.k] on a value that is neither [null] nor [undefined]. The keys the
    client reads are data fields ([username], [messages], [response], ...);
    only an object has them. *)
Definition get (v : val) (k : string) : val :=
  match v with
  | VObj props => lookup k props
  | _ => VUndef
  end.

(** [v?.k] *)
Definition get_opt (v : val) (k : string) : val :=
  if nullish v then VUndef else get v k.

Definition isArray (v : val) : bool :=
  match v with
  | VArr _ => true
  | _ => false
  end.

(** [String(v)], as a template literal or [new Error(v)] applies it. *)
Fixpoint toString (v : val) : string :=
  match v with
  | VUndef => "undefined"
  | VNull => "null"
  | VBool true => "true"
  | VBool false => "false"
  | VNum n => NilZero.string_of_int (Z.to_int n)
  | VStr s => s
  | VArr l =>
      Str.join ","
        (map (fun x => if nullish x then "" else toString x) l)
  | VObj _ => "[object Object]"
  end.

(** ** Computations: effects performed and completion *)

Record Request : Type := mkRequest {
  url : string;
  method : string;
  body : option val   (* the value handed to JSON.stringify *)
}.

(** What the page does to the world, in the order it does it. The state
    setters are React's; [AppendMessage m] is
    [setMessages(prev => [...prev, m])]. *)
Inductive Effect : Type :=
| Fetch (r : Request)
| SetUser (v : val)
| SetChats (l : list val)
| SetActiveChat (v : val)
| SetMessages (v : val)
| AppendMessage (m : val)
| SetInput (s : string)
| SetIsSending (b : bool)
| Navigate (path : string)
| SetTimeout (ms : Z) (path : string)   (* setTimeout(() => navigate(path), ms) *)
| PreventDefault
| Speak (text : val).                   (* textToSpeech, then playAudio *)

Inductive completion (A : Type) : Type :=
| Normal (a : A)
| Throw (t : thrown).
Arguments Normal {A} a.
Arguments Throw {A} t.

(** A computation: the effects it performed and how it completed. For an
    [async] function, [Normal] is a resolved promise and [Throw] a
    rejected one. *)
Definition M (A : Type) : Type := (list Effect * completion A)%type.

Definition ret {A} (a : A) : M A := ([], Normal a).
Definition throw {A} (t : thrown) : M A := ([], Throw t).
Definition emit (e : Effect) : M unit := ([e], Normal tt).

Definition bind {A B} (m : M A) (f : A -> M B) : M B :=
  match m with
  | (tr, Normal a) => let (tr', c) := f a in ((tr ++ tr')%list, c)
  | (tr, Throw t) => (tr, Throw t)
  end.

(** [try { m } catch (e) { h e }] *)
Definition try_catch {A} (m : M A) (h : thrown -> M A) : M A :=
  match m with
  | (tr, Throw t) => let (tr', c) := h t in ((tr ++ tr')%list, c)
  | _ => m
  end.

(** [try { m } finally { f }] *)
Definition try_finally {A} (m : M A) (f : M unit) : M A :=
  let (tr, c) := m in
  match f with
  | (tr', Normal _) => ((tr ++ tr')%list, c)
  | (tr', Throw t) => ((tr ++ tr')%list, Throw t)
  end.

Declare Scope js_scope.
Delimit Scope js_scope with js.
Notation "x <- m ;; k" := (bind m (fun x => k))
  (at level 61, m at next level, right associativity) : js_scope.
Notation "m ;; k" := (bind m (fun _ => k))
  (at level 61, right associativity) : js_scope.
Local Open Scope js_scope.

Definition trace {A} (m : M A) : list Effect := fst m.
Definition outcome {A} (m : M A) : completion A := snd m.

(** [v.k], which throws a [TypeError] when [v] is [null] or [undefined].
    The text of its message is the engine's: V8's goes on with the key
    that was read, [(reading 'k')]. The model keeps the beginning of it
    only; what is stated of such an error is that it is a [TypeError]
    with some text. *)
Definition prop (v : val) (k : string) : M val :=
  if nullish v
  then throw (TypeError ("Cannot read properties of " ++ toString v))
  else ret (get v k).

(** [error.message] in a [catch] block. *)
Definition message_of (t : thrown) : M val :=
  match t with
  | ErrorObj _ m => ret (VStr m)
  | Thrown v => prop v "message"
  end.

(** [v.trim()]: only a string has the method. The text of the
    [TypeError] is the engine's, which names the receiver as the source
    writes it ([imageId.trim is not a function]); the model leaves the
    receiver out, and what is stated of such an error is that it is a
    [TypeError] with some text. *)
Definition trim_method (v : val) : M val :=
  match v with
  | VStr s => ret (VStr (Str.trim s))
  | VUndef | VNull => throw (TypeError ("Cannot read properties of " ++ toString v))
  | _ => throw (TypeError "trim is not a function")
  end.

(** ** The browser *)

Record Response : Type := mkResponse {
  ok : bool;
  statusText : string;
  json_body : completion val   (* what response.json() settles to *)
}.

Inductive FetchOutcome : Type :=
| Rejects (t : thrown)
| Responds (r : Response).

(** The parts of a [URL] object that the client reads. *)
Record URL : Type := mkURL {
  pathname : string;
  search : string
}.

Class Browser : Type := {
  (** [localStorage.getItem('user')]; [None] is [null] *)
  stored_user : option string;
  (** how [fetch] settles for a request *)
  fetch_outcome : Request -> FetchOutcome;
  (** [JSON.parse] *)
  JSON_parse : string -> completion val;
  (** how [textToSpeech] followed by [playAudio] settles *)
  audio_outcome : val -> completion unit;
  (** [new URL(s)]; [None] when the constructor throws *)
  new_URL : string -> option URL
}.

(** ** Built-ins of the URL helpers *)

Module Uri.

Definition hexdigit (n : nat) : ascii :=
  ascii_of_nat (if (n <? 10)%nat then 48 + n else 55 + n).

Definition hexval (c : ascii) : option nat :=
  let n := nat_of_ascii c in
  if (48 <=? n)%nat && (n <=? 57)%nat then Some (n - 48)
  else if (65 <=? n)%nat && (n <=? 70)%nat then Some (n - 55)
  else if (97 <=? n)%nat && (n <=? 102)%nat then Some (n - 87)
  else None.

(** [%XY] for a byte. *)
Definition escape (c : ascii) : string :=
  let n := nat_of_ascii c in
  String "%" (String (hexdigit (n / 16)) (String (hexdigit (n mod 16)) "")).

Definition alnum (n : nat) : bool :=
  ((48 <=? n) && (n <=? 57) || (65 <=? n) && (n <=? 90)
   || (97 <=? n) && (n <=? 122))%nat.

(** The characters [encodeURIComponent] leaves alone:
    letters, digits and [- _ . ! ~ * ' ( )]. *)
Definition unreserved (c : ascii) : bool :=
  let n := nat_of_ascii c in
  alnum n || existsb (Nat.eqb n) [45; 95; 46; 33; 126; 42; 39; 40; 41].

Definition encode_with (keep : ascii -> bool) : string -> string :=
  fix go (s : string) : string :=
    match s with
    | EmptyString => ""
    | String c r => (if keep c then String c "" else escape c) ++ go r
    end.

(** [encodeURIComponent]: every byte of the UTF-8 form that is not
    unreserved is escaped. (The function throws on a lone surrogate only,
    which no UTF-8 form has.) *)
Definition encodeURIComponent : string -> string := encode_with unreserved.

(** The URL Standard's percent-encode sets of the query of a special
    scheme and of the path. *)
Definition in_query_set (c : ascii) : bool :=
  let n := nat_of_ascii c in
  ((n <=? 32) || (126 <? n) || existsb (Nat.eqb n) [34; 35; 60; 62; 39])%nat.

Definition in_path_set (c : ascii) : bool :=
  let n := nat_of_ascii c in
  ((n <=? 32) || (126 <? n)
   || existsb (Nat.eqb n) [34; 35; 60; 62; 63; 94; 96; 123; 125])%nat.

Definition query_encode : string -> string :=
  encode_with (fun c => negb (in_query_set c)).
Definition path_encode : string -> string :=
  encode_with (fun c => negb (in_path_set c)).

(** Percent-decoding of the URL Standard: an escape that is not followed
    by two hexadecimal digits is kept as it is. *)
Fixpoint percent_decode (s : string) : string :=
  match s with
  | EmptyString => ""
  | String c r =>
      if Ascii.eqb c "%" then
        match r with
        | String h (String l r') =>
            match hexval h, hexval l with
            | Some a, Some b => String (ascii_of_nat (16 * a + b)) (percent_decode r')
            | _, _ => String c (percent_decode r)
            end
        | _ => String c (percent_decode r)
        end
      else String c (percent_decode r)
  end.

Fixpoint plus_to_space (s : string) : string :=
  match s with
  | EmptyString => ""
  | String c r => String (if Ascii.eqb c "+" then " "%char else c) (plus_to_space r)
  end.

(** *** UTF-8 *)

Definition between (lo hi : nat) (c : ascii) : bool :=
  let n := nat_of_ascii c in ((lo <=? n) && (n <=? hi))%nat.

(** For a lead byte: how many continuation bytes follow, and the range of
    the first of them (Unicode, table 3-7). *)
Definition lead (c : ascii) : option (nat * nat * nat) :=
  let n := nat_of_ascii c in
  if between 194 223 c then Some (1, 128, 191)
  else if (n =? 224)%nat then Some (2, 160, 191)
  else if (n =? 237)%nat then Some (2, 128, 159)
  else if between 225 239 c then Some (2, 128, 191)
  else if (n =? 240)%nat then Some (3, 144, 191)
  else if (n =? 244)%nat then Some (3, 128, 143)
  else if between 241 243 c then Some (3, 128, 191)
  else None.

Definition replacement : string := Str.bytes [239; 191; 189].   (* U+FFFD *)

(** The UTF-8 decoder of the Encoding Standard, seen on the UTF-8 form of
    its result: a well-formed sequence is kept, a maximal ill-formed part
    becomes U+FFFD. [need] continuation bytes are still expected, the next
    of them in [lo..hi]; [pending] holds the bytes of the code point read
    so far. *)
Fixpoint utf8_decode_from (pending : string) (need lo hi : nat) (s : string) : string :=
  match s with
  | EmptyString => match need with O => "" | S _ => replacement end
  | String c r =>
      let start :=
        if between 0 127 c then String c (utf8_decode_from "" 0 128 191 r)
        else match lead c with
             | Some (n, l, h) => utf8_decode_from (String c "") n l h r
             | None => replacement ++ utf8_decode_from "" 0 128 191 r
             end in
      match need with
      | O => start
      | S need' =>
          if between lo hi c then
            match need' with
            | O => pending ++ String c (utf8_decode_from "" 0 128 191 r)
            | S _ => utf8_decode_from (pending ++ String c "") need' 128 191 r
            end
          else replacement ++ start
      end
  end.

Definition utf8_decode (s : string) : string := utf8_decode_from "" 0 128 191 s.

(** A byte string is the UTF-8 form of a JavaScript string when decoding
    leaves it as it is. *)
Definition wellformed (s : string) : bool := utf8_decode s =? s.

(** *** [URLSearchParams] *)

(** Cut at the first occurrence of [c]. *)
Fixpoint break_at (c : ascii) (s : string) : string * option string :=
  match s with
  | EmptyString => ("", None)
  | String d r =>
      if Ascii.eqb d c then ("", Some r)
      else let (a, b) := break_at c r in (String d a, b)
  end.

Definition form_decode (s : string) : string :=
  utf8_decode (percent_decode (plus_to_space s)).

(** The application/x-www-form-urlencoded parser. *)
Definition parse_pair (seq : string) : list (string * string) :=
  if seq =? "" then []
  else match break_at "=" seq with
       | (n, Some v) => [(form_decode n, form_decode v)]
       | (n, None) => [(form_decode n, "")]
       end.

Definition parse_query (q : string) : list (string * string) :=
  flat_map parse_pair (Str.split "&" q).

Definition strip_question (s : string) : string :=
  match s with
  | String "?" r => r
  | _ => s
  end.

(** [url.searchParams.get(name)]; [None] is [null]. *)
Definition searchParams_get (u : URL) (name : string) : option string :=
  match find (fun p => fst p =? name) (parse_query (strip_question (search u))) with
  | Some (_, v) => Some v
  | None => None
  end.

(** *** [decodeURIComponent] *)

(** The byte of a leading [%XY]. *)
Definition take_escape (s : string) : option (ascii * string) :=
  match s with
  | String "%" (String h (String l r)) =>
      match hexval h, hexval l with
      | Some a, Some b => Some (ascii_of_nat (16 * a + b), r)
      | _, _ => None
      end
  | _ => None
  end.

Fixpoint take_escapes (n : nat) (s : string) : option (string * string) :=
  match n with
  | O => Some ("", s)
  | S n' =>
      match take_escape s with
      | Some (c, r) =>
          match take_escapes n' r with
          | Some (cs, r') => Some (String c cs, r')
          | None => None
          end
      | None => None
      end
  end.

Definition option_map_string (f : string -> string) (o : option string) : option string :=
  match o with
  | Some s => Some (f s)
  | None => None
  end.

(** [None] is a [URIError]: an escape without two hexadecimal digits, or
    escaped bytes that are not the UTF-8 form of one code point. *)
Fixpoint decode_fuel (fuel : nat) (s : string) : option string :=
  match fuel with
  | O => None
  | S fuel' =>
      match s with
      | EmptyString => Some ""
      | String c r =>
          if Ascii.eqb c "%" then
            match take_escape s with
            | None => None
            | Some (b, r1) =>
                if between 0 127 b then option_map_string (String b) (decode_fuel fuel' r1)
                else
                  match lead b with
                  | None => None
                  | Some (n, _, _) =>
                      match take_escapes n r1 with
                      | None => None
                      | Some (bs, r2) =>
                          if wellformed (String b bs)
                          then option_map_string (append (String b bs)) (decode_fuel fuel' r2)
                          else None
                      end
                  end
            end
          else option_map_string (String c) (decode_fuel fuel' r)
      end
  end.

Definition decodeURIComponent (s : string) : option string :=
  decode_fuel (S (String.length s)) s.

(** *** A reference [URL] parser

    It reads [http://host/path?query#fragment] and
    [https://host/path?query#fragment] and applies the percent-encoding
    of the URL Standard to path and query. It does not check the host,
    resolve dot segments or drop tabs and line breaks, so that it stands
    for the browser's parser only where those play no part. It serves to
    run the helpers on concrete URLs; the general results below hold for
    every parser. *)
Definition after_scheme (s : string) : option string :=
  if prefix "https://" s then Some (Str.drop 8 s)
  else if prefix "http://" s then Some (Str.drop 7 s)
  else None.

Definition URL_parse (s : string) : option URL :=
  let (s1, _) := break_at "#" s in
  let (s2, query) := break_at "?" s1 in
  match after_scheme s2 with
  | None => None
  | Some rest =>
      let (host, path) := break_at "/" rest in
      if host =? "" then None
      else Some {| pathname :=
                     path_encode (String "/" (match path with Some p => p | None => "" end));
                   search :=
                     match query with
                     | None => ""
                     | Some q => if q =? "" then "" else String "?" (query_encode q)
                     end |}
  end.

End Uri.

(** ** The API client ([services/api]) *)

Definition API_BASE_URL : string := "https://aura-ai-997596012968.us-central1.run.app".

(** [Array.prototype.findIndex]: the index of the first element that
    satisfies [p], or [-1]. *)
Fixpoint findIndex {A} (p : A -> bool) (l : list A) : Z :=
  match l with
  | [] => (-1)%Z
  | x :: r =>
      if p x then 0%Z
      else let i := findIndex p r in
           if (i =? -1)%Z then (-1)%Z else (i + 1)%Z
  end.

(** [Array.prototype.slice(start)]: a negative [start] counts from the end. *)
Definition slice {A} (start : Z) (l : list A) : list A :=
  if (start <? 0)%Z
  then skipn (Z.to_nat (Z.max 0 (Z.of_nat (List.length l) + start))) l
  else skipn (Z.to_nat start) l.

Section Client.

Context `{Browser}.

(** *** S3-key helpers *)

Definition getImageProxyUrl (s3Url username : string) : string :=
  if (s3Url =? "") || (username =? "") then s3Url
  else
    match new_URL s3Url with
    | None => s3Url                      (* catch: fall through to the fallback *)
    | Some url =>
        let pathParts := Str.split "/" (pathname url) in
        let bucketIndex := findIndex (fun part => part =? "aura-ai-users") pathParts in
        if negb (bucketIndex =? -1)%Z
           && (bucketIndex <? Z.of_nat (List.length pathParts) - 1)%Z
        then
          let s3Key := Str.join "/" (slice (bucketIndex + 1) pathParts) in
          API_BASE_URL ++ "/api/image-proxy/" ++ username
            ++ "?s3_key=" ++ Uri.encodeURIComponent s3Key
            ++ "&image_url=" ++ Uri.encodeURIComponent s3Url
        else s3Url
    end.

(** [None] is [null]. *)
Definition extractS3KeyFromUrl (photoUrl : string) : option string :=
  if photoUrl =? "" then None
  else
    match new_URL photoUrl with
    | None => None
    | Some url =>
        let s3KeyParam := Uri.searchParams_get url "s3_key" in
        match s3KeyParam with
        | Some (String c k) =>
            (* a URIError is caught, and the function returns null *)
            Uri.decodeURIComponent (String c k)
        | _ =>
            let pathParts := Str.split "/" (pathname url) in
            let bucketIndex := findIndex (fun part => part =? "aura-ai-users") pathParts in
            if negb (bucketIndex =? -1)%Z
               && (bucketIndex <? Z.of_nat (List.length pathParts) - 1)%Z
            then Some (Str.join "/" (slice (bucketIndex + 1) pathParts))
            else None
        end
    end.

(** *** Requests *)

(** [await fetch(url, options)] *)
Definition fetch (r : Request) : M Response :=
  emit (Fetch r) ;;
  match fetch_outcome r with
  | Rejects t => throw t
  | Responds resp => ret resp
  end.

(** [await response.json()] *)
Definition json (r : Response) : M val := ([], json_body r).

(** [await response.json().catch(() => ({}))] *)
Definition json_or_empty (r : Response) : M val :=
  try_catch (json r) (fun _ => ret (VObj [])).

Definition createChat (chatData : val) : M val :=
  if negb (truthy chatData) || negb (truthy (get chatData "user_id"))
  then throw (Error "User ID is required to create a chat")
  else
    try_catch
      (response <- fetch {| url := API_BASE_URL ++ "/api/createChat/";
                            method := "POST";
                            body := Some chatData |} ;;
       if negb (ok response) then
         errorData <- json_or_empty response ;;
         message <- prop errorData "message" ;;
         throw (Error (toString
           (or_else message
              (VStr ("Failed to create chat: " ++ statusText response)))))
       else json response)
      (fun error =>
         if instanceof_Error error then throw error
         else throw (Error "Network error: Failed to connect to server")).

Definition getChats (user_id : val) : M val :=
  invalid <- (if negb (truthy user_id) then ret true
              else t <- trim_method user_id ;; ret (negb (truthy t))) ;;
  if (invalid : bool) then throw (Error "User ID is required")
  else
    try_catch
      (let url := API_BASE_URL ++ "/api/chats/" ++ toString user_id in
       response <- fetch {| url := url; method := "GET"; body := None |} ;;
       if negb (ok response) then
         errorData <- json_or_empty response ;;
         detail <- prop errorData "detail" ;;
         message <- prop errorData "message" ;;
         throw (Error (toString
           (or_else detail
              (or_else message
                 (VStr ("Failed to fetch chats: " ++ statusText response))))))
       else
         data <- json response ;;
         ret data)
      (fun error =>
         if instanceof_Error error then throw error
         else throw (Error "Network error: Failed to connect to server")).

(** [threadId = null] is the default of the third parameter. *)
Definition sendChatMessage (message userId threadId : val) : M val :=
  let threadId := match threadId with VUndef => VNull | _ => threadId end in
  invalid <- (if negb (truthy message) then ret true
              else t <- trim_method message ;; ret (negb (truthy t))) ;;
  if (invalid : bool) then throw (Error "Message is required")
  else if negb (truthy userId) then throw (Error "User ID is required")
  else
    try_catch
      (trimmed <- trim_method message ;;
       let requestBody :=
         ([("message", trimmed); ("user_id", userId)]
            ++ (if truthy threadId then [("thread_id", threadId)] else []))%list in
       response <- fetch {| url := API_BASE_URL ++ "/chat";
                            method := "POST";
                            body := Some (VObj requestBody) |} ;;
       if negb (ok response) then
         errorData <- json_or_empty response ;;
         detail <- prop errorData "detail" ;;
         message <- prop errorData "message" ;;
         throw (Error (toString
           (or_else detail
              (or_else message
                 (VStr ("Failed to send message: " ++ statusText response))))))
       else json response)
      (fun error =>
         if instanceof_Error error then throw error
         else throw (Error "Network error: Failed to send message")).

End Client.

(** ** The chat page ([src/pages/Chat.jsx]) *)

(** The [useState] cells of the component. [chats] only ever receives
    arrays; [activeChat] and [messages] receive what the server sent. *)
Record State : Type := mkState {
  user : val;
  chats : list val;
  activeChat : val;
  messages : val;
  input : string;
  isSending : bool
}.

Definition initial : State :=
  {| user := VNull; chats := []; activeChat := VNull; messages := VArr [];
     input := ""; isSending := false |}.

(** [[...v]]: [None] when [v] is not iterable and the spread throws. *)
Definition spread (v : val) : option (list val) :=
  match v with
  | VArr l => Some l
  | VStr s => Some (map VStr (Str.codePoints s))
  | _ => None
  end.

(** What an effect does to the state cells. *)
Definition apply (st : State) (e : Effect) : option State :=
  match e with
  | SetUser v =>
      Some (mkState v (chats st) (activeChat st) (messages st) (input st) (isSending st))
  | SetChats l =>
      Some (mkState (user st) l (activeChat st) (messages st) (input st) (isSending st))
  | SetActiveChat v =>
      Some (mkState (user st) (chats st) v (messages st) (input st) (isSending st))
  | SetMessages v =>
      Some (mkState (user st) (chats st) (activeChat st) v (input st) (isSending st))
  | AppendMessage m =>
      match spread (messages st) with
      | Some prev =>
          Some (mkState (user st) (chats st) (activeChat st) (VArr (prev ++ [m])%list)
                        (input st) (isSending st))
      | None => None
      end
  | SetInput s =>
      Some (mkState (user st) (chats st) (activeChat st) (messages st) s (isSending st))
  | SetIsSending b =>
      Some (mkState (user st) (chats st) (activeChat st) (messages st) (input st) b)
  | Fetch _ | Navigate _ | SetTimeout _ _ | PreventDefault | Speak _ => Some st
  end.

Fixpoint run (st : State) (tr : list Effect) : option State :=
  match tr with
  | [] => Some st
  | e :: r =>
      match apply st e with
      | Some st' => run st' r
      | None => None
      end
  end.

(** [v.includes(sub)]: strings and arrays have the method. *)
Definition includes_method (v : val) (sub : string) : M bool :=
  match v with
  | VStr s => ret (Str.includes s sub)
  | VArr l => ret (existsb (fun x => match x with VStr s => s =? sub | _ => false end) l)
  | _ => throw (TypeError "includes is not a function")
  end.

(** A call that is not awaited: its effects take place, the way its promise
    settles is dropped. *)
Definition detach {A} (m : M A) : M unit := (trace m, Normal tt).

Definition photo_hint : string :=
  "Please upload at least one photo in your dashboard before starting a chat. This helps us personalize product recommendations for you.".

Section Chat.

Context `{Browser}.

(** The functions of the component close over the state cells [st] of the
    render that created them; what they write goes through the setters. *)
Variable st : State.

Definition fetchChatsWithUserId (user_id : val) : M unit :=
  if negb (truthy user_id) then ret tt
  else
    try_catch
      (data <- getChats user_id ;;
       match data with
       | VArr l =>
           emit (SetChats l) ;;
           if (0 <? List.length l)%nat && negb (truthy (activeChat st)) then
             let firstChat := nth 0 l VUndef in
             emit (SetActiveChat firstChat) ;;
             m <- prop firstChat "messages" ;;
             let chatMessages := or_else m (VArr []) in
             emit (SetMessages chatMessages)
           else if (List.length l =? 0)%nat then
             emit (SetActiveChat VNull) ;;
             emit (SetMessages (VArr []))
           else ret tt
       | _ => emit (SetChats [])
       end)
      (fun err =>
         message_of err ;;          (* the log reads err.message *)
         emit (SetChats [])).

(** [user.user_id || `user_${user.username}`] *)
Definition userId_of (u : val) : val :=
  or_else (get u "user_id") (VStr ("user_" ++ toString (get u "username"))).

Definition fetchChats : M unit :=
  if negb (truthy (get_opt (user st) "user_id")) then ret tt
  else fetchChatsWithUserId (userId_of (user st)).

(** The effect of the mount ([useEffect], dependencies [[navigate]]). *)
Definition mountEffect : M unit :=
  match stored_user with
  | None | Some EmptyString => emit (Navigate "/login")
  | Some storedUser =>
      parsedUser <- ([], JSON_parse storedUser) ;;
      emit (SetUser parsedUser) ;;
      profile <- prop parsedUser "profile" ;;
      let photoUrls := get_opt profile "photo_urls" in
      if negb (truthy photoUrls)
         || match photoUrls with VArr l => (List.length l =? 0)%nat | _ => false end
      then emit (Navigate "/dashboard")
      else if truthy (get_opt parsedUser "user_id")
      then detach (fetchChatsWithUserId (userId_of parsedUser))
      else ret tt
  end.

(** The effect that runs when [user?.username] changes ("also fetch chats
    when user state is updated"). *)
Definition userEffect : M unit :=
  if truthy (get_opt (user st) "username") then detach fetchChats
  else ret tt.

Definition threadId_of (chat : val) : val :=
  or_else (get chat "chat_room_id") (or_else (get chat "id") (get chat "chat_id")).

Definition assistantMessage (response : val) : val :=
  let products :=
    or_else (get response "ranked_products")
      (or_else (get response "styled_products") VNull) in
  VObj [ ("role", VStr "assistant");
         ("content", get response "response");
         ("ranked_products", or_else (get response "ranked_products") VNull);
         ("styled_products", or_else (get response "styled_products") VNull);
         ("products", products);
         ("merged_images", or_else (get response "merged_images") VNull) ].

(** The [catch] block of the send. *)
Definition sendFailed (error : thrown) : M unit :=
  message <- message_of error ;;
  photo <- (if truthy message
            then includes_method message "upload at least one photo"
            else ret false) ;;
  if (photo : bool) then
    emit (AppendMessage (VObj [("role", VStr "assistant"); ("content", VStr photo_hint)])) ;;
    emit (SetTimeout 3000 "/dashboard")
  else
    emit (AppendMessage
            (VObj [ ("role", VStr "assistant");
                    ("content",
                     VStr ("Error: " ++
                           toString (or_else message
                                       (VStr "Failed to send message. Please try again."))))])).

(** [sendMessage] of the page with a text input; [e] is the submit event. *)
Definition sendMessage : M unit :=
  emit PreventDefault ;;
  if (Str.trim (input st) =? "") || isSending st then ret tt
  else if negb (truthy (get_opt (user st) "username")) || negb (truthy (activeChat st))
  then ret tt
  else
    let messageText := Str.trim (input st) in
    let newMsg := VObj [("role", VStr "user"); ("content", VStr messageText)] in
    emit (AppendMessage newMsg) ;;
    emit (SetInput "") ;;
    emit (SetIsSending true) ;;
    try_finally
      (try_catch
         (let userId := userId_of (user st) in
          let threadId := threadId_of (activeChat st) in
          response <- sendChatMessage (VStr messageText) userId threadId ;;
          reply <- prop response "response" ;;
          (if truthy reply then emit (AppendMessage (assistantMessage response))
           else ret tt) ;;
          if truthy (get_opt (user st) "user_id")
          then fetchChatsWithUserId (userId_of (user st))
          else ret tt)
         sendFailed)
      (emit (SetIsSending false)).

(** [sendMessageFromText] of the page with voice input. *)
Definition sendMessageFromText (messageText : string) : M unit :=
  if (Str.trim messageText =? "") || isSending st then ret tt
  else if negb (truthy (get_opt (user st) "username")) || negb (truthy (activeChat st))
  then ret tt
  else
    let newMsg := VObj [("role", VStr "user"); ("content", VStr messageText)] in
    emit (AppendMessage newMsg) ;;
    emit (SetIsSending true) ;;
    try_finally
      (try_catch
         (let userId := userId_of (user st) in
          let threadId := threadId_of (activeChat st) in
          response <- sendChatMessage (VStr messageText) userId threadId ;;
          reply <- prop response "response" ;;
          (if truthy reply then
             emit (AppendMessage (assistantMessage response)) ;;
             try_catch (emit (Speak reply) ;; ([], audio_outcome reply))
                       (fun _ => ret tt)
           else ret tt) ;;
          if truthy (get_opt (user st) "user_id")
          then fetchChatsWithUserId (userId_of (user st))
          else ret tt)
         sendFailed)
      (emit (SetIsSending false)).

End Chat.

(** ** Reading a trace *)

Definition has_role (r : string) (m : val) : bool :=
  match get m "role" with
  | VStr s => s =? r
  | _ => false
  end.

Definition appends (r : string) (e : Effect) : bool :=
  match e with
  | AppendMessage m => has_role r m
  | _ => false
  end.

(** The messages of role [r] that a trace appended to the message list. *)
Definition appended (r : string) (tr : list Effect) : list Effect :=
  filter (appends r) tr.

Definition is_fetch (e : Effect) : bool :=
  match e with
  | Fetch _ => true
  | _ => false
  end.

(** The HTTP requests of a trace. *)
Definition requests (tr : list Effect) : list Effect := filter is_fetch tr.

(** Navigation, at once or scheduled. *)
Definition is_navigation (e : Effect) : bool :=
  match e with
  | Navigate _ | SetTimeout _ _ => true
  | _ => false
  end.

Definition navigations (tr : list Effect) : list Effect := filter is_navigation tr.

(** [a === b] on values; two arrays or two objects are the same only when
    they are the same reference, which a value does not tell. *)
Definition strict_eq (a b : val) : bool :=
  match a, b with
  | VUndef, VUndef | VNull, VNull => true
  | VBool x, VBool y => Bool.eqb x y
  | VNum x, VNum y => (x =? y)%Z
  | VStr x, VStr y => x =? y
  | _, _ => false
  end.

(** The page's test for "this chat is the active one" (the sidebar):
    [activeChat?.id === chat.id || activeChat?.chat_id === chat.chat_id]. *)
Definition is_active (active chat : val) : bool :=
  strict_eq (get_opt active "id") (get chat "id")
  || strict_eq (get_opt active "chat_id") (get chat "chat_id").

(** The message sequence of the active chat in a chat list from the server. *)
Definition server_messages (active : val) (data : list val) : val :=
  match find (is_active active) data with
  | Some chat => get chat "messages"
  | None => VUndef
  end.

(** The conditions under which a send goes ahead. *)
Definition can_send (st : State) (text : string) : Prop :=
  Str.trim text <> "" /\ isSending st = false
  /\ truthy (get_opt (user st) "username") = true
  /\ truthy (activeChat st) = true.

(** ** Browsers to run the client in *)

(** A browser whose storage holds [stored], in which [JSON.parse] yields
    [parsed] and [fetch] settles as [net] says. *)
Definition browser (stored : option string) (parsed : val)
    (net : Request -> FetchOutcome) : Browser :=
  {| stored_user := stored;
     fetch_outcome := net;
     JSON_parse := fun _ => Normal parsed;
     audio_outcome := fun _ => Normal tt;
     new_URL := Uri.URL_parse |}.

(** A server that answers [POST /chat] with [reply] and every other request
    with [chats], both with status 200. *)
Definition serving (reply chats : val) (r : Request) : FetchOutcome :=
  if method r =? "POST"
  then Responds {| ok := true; statusText := "OK"; json_body := Normal reply |}
  else Responds {| ok := true; statusText := "OK"; json_body := Normal chats |}.

(** A server that refuses every request with [status] and the JSON error
    body [err]. *)
Definition refusing (status : string) (err : val) (r : Request) : FetchOutcome :=
  Responds {| ok := false; statusText := status; json_body := Normal err |}.

(** No network: [fetch] rejects with the [TypeError] of the Fetch
    Standard. *)
Definition offline (r : Request) : FetchOutcome :=
  Rejects (TypeError "Failed to fetch").

Definition alice : val :=
  VObj [ ("username", VStr "alice"); ("user_id", VStr "user_alice");
         ("profile", VObj [("photo_urls", VArr [VStr "https://s3.ap-south-1.amazonaws.com/aura-ai-users/users/alice/profile/a.jpg"])]) ].


Definition chat1 (msgs : list val) : val :=
  VObj [("id", VNum 1); ("session_name", VStr "Chat 1"); ("messages", VArr msgs)].

Definition msg (role content : string) : val :=
  VObj [("role", VStr role); ("content", VStr content)].

(** The page of [alice], chat 1 open and empty, with [text] typed in. *)
Definition typing (text : string) : State :=
  {| user := alice; chats := [chat1 []]; activeChat := chat1 [];
     messages := VArr []; input := text; isSending := false |}.

Definition stylist_reply : val :=
  VObj [ ("response", VStr "Hello!");
         ("ranked_products", VArr [VObj [("id", VStr "p1")]]);
         ("styled_products", VArr [VObj [("id", VStr "s1")]]) ].

(** The server's record of chat 1 after the exchange. *)
Definition server_chats : list val :=
  [ chat1 [ msg "user" "hi";
            VObj [("type", VStr "progress"); ("content", VStr "Searching")];
            msg "assistant" "Hello!" ] ].

Definition shop : Browser :=
  browser (Some "alice") alice (serving stylist_reply (VArr server_chats)).

(** A server that refuses the chat for want of a photo. *)
Definition strict_shop : Browser :=
  browser (Some "alice") alice
    (refusing "Bad Request"
       (VObj [("detail", VStr "Please upload at least one photo to start chatting")])).

Definition plain_browser : Browser := browser None VNull offline.

Definition post_chat (message : string) : Request :=
  {| url := API_BASE_URL ++ "/chat"; method := "POST";
     body := Some (VObj [ ("message", VStr message); ("user_id", VStr "user_alice");
                          ("thread_id", VNum 1) ]) |}.

Definition get_chats (user_id : string) : Request :=
  {| url := API_BASE_URL ++ "/api/chats/" ++ user_id; method := "GET"; body := None |}.

(** The page of alice after she sent "hi" in the [shop]. *)
Definition after_hi : State :=
  {| user := alice; chats := server_chats; activeChat := chat1 [];
     messages := VArr [msg "user" "hi"; assistantMessage stylist_reply];
     input := ""; isSending := false |}.

(** The page of a user who has just been stored. *)
Definition page_of (u : val) : State :=
  {| user := u; chats := []; activeChat := VNull; messages := VArr [];
     input := ""; isSending := false |}.

Definition photo_url : string :=
  "https://s3.ap-south-1.amazonaws.com/aura-ai-users/users/alice/profile/a.jpg".

Definition signed_photo_url : string :=
  photo_url ++ "?X-Amz-Expires=3600&X-Amz-Signature=abc".

(** ** Vocabulary of the statements *)

(** Every effect of the computation satisfies [P]. *)
Definition performs (P : Effect -> bool) {X} (m : M X) : Prop :=
  Forall (fun e => P e = true) (trace m).

(** The computation throws nothing but instances of [Error]. *)
Definition throws_errors {X} (m : M X) : Prop :=
  forall t, outcome m = Throw t -> instanceof_Error t = true.

(** The effects of a refresh of the chat list: requests and the setters of
    the chat list, the active chat and the message list. *)
Definition is_refresh (e : Effect) : bool :=
  match e with
  | Fetch _ | SetChats _ | SetActiveChat _ | SetMessages _ => true
  | _ => false
  end.

(** The text of the assistant message for a failure with [message]. *)
Definition failure_text (message : string) : string :=
  "Error: " ++ (if message =? "" then "Failed to send message. Please try again."
                else message).

(** The refresh at the end of a successful send. *)
Definition refresh `{Browser} (st : State) : M unit :=
  if truthy (get_opt (user st) "user_id")
  then fetchChatsWithUserId st (userId_of (user st))
  else ret tt.

(** What a send does first, on the text page and on the voice page. *)
Definition opening (text : string) : list Effect :=
  [ PreventDefault; AppendMessage (msg "user" text); SetInput ""; SetIsSending true ].

Definition voice_opening (text : string) : list Effect :=
  [ AppendMessage (msg "user" text); SetIsSending true ].

(** What a send does with the response, on the text page and on the voice
    page. *)
Definition reply_of (response : val) : list Effect :=
  if truthy (get response "response")
  then [AppendMessage (assistantMessage response)] else [].

Definition voice_reply_of (response : val) : list Effect :=
  if truthy (get response "response")
  then [AppendMessage (assistantMessage response); Speak (get response "response")]
  else [].

(** An effect that leaves an array in the message list when there was one:
    all but [setMessages] with something else than an array. *)
Definition keeps_array (e : Effect) : bool :=
  match e with
  | SetMessages (VArr _) => true
  | SetMessages _ => false
  | _ => true
  end.

(** What a send that goes ahead does between the user message and the
    release of the sending flag: no user message, one assistant message at
    most, and nothing that would put a non-array into the message list. *)
Definition one_reply_at_most (mid : list Effect) : Prop :=
  appended "user" mid = []
  /\ (List.length (appended "assistant" mid) <= 1)%nat
  /\ Forall (fun e => keeps_array e = true) mid.

(** The conditions under which a send is turned away. *)
Definition blocked (st : State) (text : string) : Prop :=
  isSending st = true \/ Str.trim text = ""
  \/ truthy (activeChat st) = false
  \/ user st = VNull \/ truthy (get_opt (user st) "username") = false.

(** What the refresh inside a send does when [getChats] yields an array:
    it replaces the chat list; the active chat and the message list are
    only touched (cleared) when the array is empty. *)
Definition refreshed (data : list val) : list Effect :=
  SetChats data ::
  match data with
  | [] => [SetActiveChat VNull; SetMessages (VArr [])]
  | _ :: _ => []
  end.

(** [s] contains the character [c]. *)
Fixpoint has (c : ascii) (s : string) : bool :=
  match s with
  | EmptyString => false
  | String d r => Ascii.eqb d c || has c r
  end.

(** The key that both helpers read off a path: what follows the first
    segment [aura-ai-users], when something follows it. *)
Definition path_key (path : string) : option string :=
  let pathParts := Str.split "/" path in
  let bucketIndex := findIndex (fun part => part =? "aura-ai-users") pathParts in
  if negb (bucketIndex =? -1)%Z
     && (bucketIndex <? Z.of_nat (List.length pathParts) - 1)%Z
  then Some (Str.join "/" (slice (bucketIndex + 1) pathParts))
  else None.

(** The text of a proxy URL. *)
Definition proxy_url (username s3Key s3Url : string) : string :=
  API_BASE_URL ++ "/api/image-proxy/" ++ username
    ++ "?s3_key=" ++ Uri.encodeURIComponent s3Key
    ++ "&image_url=" ++ Uri.encodeURIComponent s3Url.

(** What the results on proxy URLs ask of the browser's parser: in a proxy
    URL whose user name has no [?] and no [#], the query begins at the [?]
    that the client wrote and runs to the end, escaped as the URL Standard
    escapes the query of an [https] URL. *)
Definition parses_proxy_urls (B : Browser) : Prop :=
  forall username s3Key s3Url,
    has "?" username = false -> has "#" username = false ->
    exists u,
      new_URL (proxy_url username s3Key s3Url) = Some u
      /\ search u =
         "?s3_key=" ++ Uri.query_encode (Uri.encodeURIComponent s3Key)
           ++ "&image_url=" ++ Uri.query_encode (Uri.encodeURIComponent s3Url).

(** One byte, escaped for a component and then for a query. *)
Definition token (c : ascii) : string :=
  Uri.query_encode (Uri.encodeURIComponent (String c "")).

(** ** The other functions of the API client *)

(** The serializer of [URLSearchParams] (application/x-www-form-urlencoded):
    letters, digits and [* - . _] stay, a space becomes [+], every other
    byte is escaped. *)
Module Form.

Definition plain (c : ascii) : bool :=
  let n := nat_of_ascii c in
  Uri.alnum n || existsb (Nat.eqb n) [42; 45; 46; 95].

Fixpoint encode (s : string) : string :=
  match s with
  | EmptyString => ""
  | String c r =>
      (if plain c then String c ""
       else if Ascii.eqb c " " then "+"
       else Uri.escape c) ++ encode r
  end.

(** [`${params}`] for the parameters [pairs]. *)
Definition serialize (pairs : list (string * string)) : string :=
  Str.join "&" (map (fun p => encode (fst p) ++ "=" ++ encode (snd p)) pairs).

End Form.

Section MoreOfTheClient.

Context `{Browser}.

(** [!x || !x.trim()], the test of a required string argument. *)
Definition blank_argument (x : val) : M bool :=
  if negb (truthy x) then ret true
  else t <- trim_method x ;; ret (negb (truthy t)).

Definition login (username : val) : M val :=
  invalid <- blank_argument username ;;
  if (invalid : bool) then throw (Error "Username is required")
  else
    try_catch
      (trimmed <- trim_method username ;;
       response <- fetch {| url := API_BASE_URL ++ "/api/login";
                            method := "POST";
                            body := Some (VObj [("username", trimmed)]) |} ;;
       if negb (ok response) then
         errorData <- json_or_empty response ;;
         message <- prop errorData "message" ;;
         throw (Error (toString
           (or_else message (VStr ("Login failed: " ++ statusText response)))))
       else json response)
      (fun error =>
         if instanceof_Error error then throw error
         else throw (Error "Network error: Failed to connect to server")).

Definition getUploadUrl (username fileName fileType : val) : M val :=
  noName <- blank_argument username ;;
  if (noName : bool) then throw (Error "Username is required")
  else
    noFile <- blank_argument fileName ;;
    if (noFile : bool) then throw (Error "File name is required")
    else
      noType <- blank_argument fileType ;;
      if (noType : bool) then throw (Error "File type is required")
      else
        try_catch
          (let params := Form.serialize [ ("file_name", toString fileName);
                                          ("file_type", toString fileType) ] in
           response <- fetch {| url := API_BASE_URL ++ "/api/upload-url/"
                                         ++ toString username ++ "?" ++ params;
                                method := "GET";
                                body := None |} ;;
           if negb (ok response) then
             errorData <- json_or_empty response ;;
             detail <- prop errorData "detail" ;;
             message <- prop errorData "message" ;;
             throw (Error (toString
               (or_else detail
                  (or_else message
                     (VStr ("Failed to get upload URL: " ++ statusText response))))))
           else json response)
          (fun error =>
             if instanceof_Error error then throw error
             else throw (Error "Network error: Failed to connect to server")).

(** [s3Key = null] is the default of the second parameter. *)
Definition getImageUrl (username s3Key : val) : M val :=
  let s3Key := match s3Key with VUndef => VNull | _ => s3Key end in
  noName <- blank_argument username ;;
  if (noName : bool) then throw (Error "Username is required")
  else
    try_catch
      (let params :=
         Form.serialize (if truthy s3Key then [("s3_key", toString s3Key)] else []) in
       let url :=
         if truthy s3Key
         then API_BASE_URL ++ "/api/image-url/" ++ toString username ++ "?" ++ params
         else API_BASE_URL ++ "/api/image-url/" ++ toString username in
       response <- fetch {| url := url; method := "GET"; body := None |} ;;
       if negb (ok response) then
         errorData <- json_or_empty response ;;
         detail <- prop errorData "detail" ;;
         message <- prop errorData "message" ;;
         throw (Error (toString
           (or_else detail
              (or_else message
                 (VStr ("Failed to get image URL: " ++ statusText response))))))
       else json response)
      (fun error =>
         if instanceof_Error error then throw error
         else throw (Error "Network error: Failed to connect to server")).

Definition deletePhoto (username s3Key : val) : M val :=
  noName <- blank_argument username ;;
  if (noName : bool) then throw (Error "Username is required")
  else
    noKey <- blank_argument s3Key ;;
    if (noKey : bool) then throw (Error "S3 key is required")
    else
      try_catch
        (response <- fetch {| url := API_BASE_URL ++ "/api/image/"
                                       ++ toString username ++ "/" ++ toString s3Key;
                              method := "DELETE";
                              body := None |} ;;
         if negb (ok response) then
           errorData <- json_or_empty response ;;
           detail <- prop errorData "detail" ;;
           message <- prop errorData "message" ;;
           throw (Error (toString
             (or_else detail
                (or_else message
                   (VStr ("Failed to delete photo: " ++ statusText response))))))
         else json response)
        (fun error =>
           if instanceof_Error error then throw error
           else throw (Error "Network error: Failed to delete photo")).

Definition likeImage (username imageId : val) : M val :=
  noName <- blank_argument username ;;
  if (noName : bool) then throw (Error "Username is required")
  else
    noImage <- blank_argument imageId ;;
    if (noImage : bool) then throw (Error "Image ID is required")
    else
      try_catch
        (response <- fetch {| url := API_BASE_URL ++ "/api/like/"
                                       ++ toString username ++ "/" ++ toString imageId;
                              method := "POST";
                              body := None |} ;;
         if negb (ok response) then
           errorData <- json_or_empty response ;;
           message <- prop errorData "message" ;;
           throw (Error (toString
             (or_else message (VStr ("Like failed: " ++ statusText response)))))
         else json response)
        (fun error =>
           if instanceof_Error error then throw error
           else throw (Error "Network error: Failed to connect to server")).

End MoreOfTheClient.

(** ** The other handlers of the chat page *)

Section MoreOfTheChat.

Context `{Browser}.
Variable st : State.

(** [createNewChat] (the same text on both pages). *)
Definition createNewChat : M unit :=
  if negb (truthy (get_opt (user st) "user_id")) then ret tt
  else
    try_catch
      (let userId := userId_of (user st) in
       newChat <- createChat
         (VObj [ ("user_id", userId);
                 ("session_name",
                  VStr ("Chat " ++ toString (VNum (Z.of_nat (List.length (chats st)) + 1)))) ]) ;;
       emit (SetChats (chats st ++ [newChat])%list) ;;
       emit (SetActiveChat newChat) ;;
       emit (SetMessages (VArr [])))
      (fun _ => ret tt).

(** The [onClick] of a chat in the sidebar. *)
Definition selectChat (chat : val) : M unit :=
  emit (SetActiveChat chat) ;;
  m <- prop chat "messages" ;;
  let chatMessages := or_else m (VArr []) in
  emit (SetMessages chatMessages).

Definition handleLikeImage (imageId : val) : M unit :=
  if negb (truthy (get_opt (user st) "username")) then ret tt
  else
    try_catch
      (likeImage (get (user st) "username") imageId ;; ret tt)
      (fun _ => ret tt).

End MoreOfTheChat.

(** *** Voice input

    The handlers that [startRecording] gives to the speech recognition.
    They also switch the recording flag and raise alerts, which the page
    with a text input does not have. *)

Inductive VoiceEffect : Type :=
| OnPage (e : Effect)
| SetIsRecording (b : bool)
| Alert (text : string).

(** [event.results[i]]: the transcript of its first alternative, and
    whether it is final. *)
Record SpeechResult : Type := mkSpeechResult {
  transcript : string;
  isFinal : bool
}.

(** [recognition.onresult]: what becomes of [finalTranscript]. *)
Definition onresult (finalTranscript : string) (resultIndex : nat)
    (results : list SpeechResult) : string :=
  fold_left
    (fun final r => if isFinal r then final ++ transcript r ++ " " else final)
    (skipn resultIndex results) finalTranscript.

Definition no_speech : string := "No speech detected. Please try again.".

(** [recognition.onend] *)
Definition onend `{Browser} (st : State) (finalTranscript : string)
  : list VoiceEffect * completion unit :=
  let transcribedText := Str.trim finalTranscript in
  if truthy (VStr transcribedText) then
    let (tr, c) := sendMessageFromText st transcribedText in
    (SetIsRecording false :: map OnPage tr, c)
  else ([SetIsRecording false; Alert no_speech], Normal tt).

(** [recognition.onerror]; [error] is [event.error]. *)
Definition onerror (error : string) : list VoiceEffect :=
  [ SetIsRecording false;
    Alert (if error =? "no-speech" then no_speech
           else "Speech recognition error: " ++ error) ].

(** ** Vocabulary for the rest of the client and of the page *)

(** An argument that the client takes as missing: a falsy value, or a
    string that is empty once trimmed. *)
Definition missing (v : val) : Prop :=
  truthy v = false \/ exists s, v = VStr s /\ Str.trim s = "".

(** A string argument that passes the test. *)
Definition given (s : string) : Prop := Str.trim s <> "".

(** A request to the API. *)
Definition api (verb path : string) (payload : option val) : Request :=
  {| url := API_BASE_URL ++ path; method := verb; body := payload |}.

(** The body of [POST /chat]. *)
Definition chat_body (message : string) (userId threadId : val) : val :=
  VObj ([("message", VStr message); ("user_id", userId)]
          ++ (if truthy threadId then [("thread_id", threadId)] else []))%list.

(** The computation performs requests only, one at most, and throws
    nothing but instances of [Error]. *)
Definition settles_with_an_error_or_a_value {X} (m : M X) : Prop :=
  performs is_fetch m /\ throws_errors m /\ (List.length (trace m) <= 1)%nat.

(** The computation throws a [TypeError]; its text is the engine's. *)
Definition throws_a_type_error {X} (m : M X) : Prop :=
  exists text, outcome m = Throw (TypeError text).

(** It does so before any effect. *)
Definition type_error_without_request {X} (m : M X) : Prop :=
  trace m = [] /\ throws_a_type_error m.

(** One byte, as the serializer of [URLSearchParams] writes it. *)
Definition form_token (c : ascii) : string :=
  if Form.plain c then String c ""
  else if Ascii.eqb c " " then "+"
  else Uri.escape c.

Definition bucket : string := "aura-ai-users".

(** No segment of the path is the bucket. *)
Definition outside_the_bucket (path : string) : bool :=
  forallb (fun part => negb (part =? bucket)) (Str.split "/" path).

(** The state after the chat list, the active chat and the message list
    were set. *)
Definition loaded (st : State) (l : list val) (active msgs : val) : State :=
  {| user := user st; chats := l; activeChat := active; messages := msgs;
     input := input st; isSending := isSending st |}.

(** What [createNewChat] hands to [createChat]. *)
Definition new_chat_data (st : State) : val :=
  VObj [ ("user_id", get (user st) "user_id");
         ("session_name",
          VStr ("Chat " ++ toString (VNum (Z.of_nat (List.length (chats st)) + 1)))) ].

(** *** More browsers *)

(** A server that answers every request with [r]. *)
Definition answering (r : Response) (req : Request) : FetchOutcome := Responds r.

(** A refusal whose body is not JSON. *)
Definition bad_gateway : Response :=
  {| ok := false; statusText := "Bad Gateway";
     json_body := Throw (ErrorObj "SyntaxError" "Unexpected token < in JSON at position 0") |}.

(** A refusal in the form of the server's framework: the reason is in
    [detail]. *)
Definition not_found : Response :=
  {| ok := false; statusText := "Not Found";
     json_body := Normal (VObj [("detail", VStr "User not found")]) |}.

Definition null_refusal : Response :=
  {| ok := false; statusText := "Bad Request"; json_body := Normal VNull |}.

Definition accepted (answer : val) : Response :=
  {| ok := true; statusText := "OK"; json_body := Normal answer |}.

Definition browser_of (r : Response) : Browser := browser None VNull (answering r).

(** A browser whose stored user is not JSON. *)
Definition corrupt_browser : Browser :=
  {| stored_user := Some "{";
     fetch_outcome := offline;
     JSON_parse := fun _ => Throw (ErrorObj "SyntaxError" "Unexpected end of JSON input");
     audio_outcome := fun _ => Normal tt;
     new_URL := Uri.URL_parse |}.

(** A persisted user without [user_id]. *)
Definition carol : val :=
  VObj [ ("username", VStr "carol");
         ("profile", VObj [("photo_urls", VArr [VStr photo_url])]) ].

Definition chat2 : val :=
  VObj [("id", VNum 2); ("session_name", VStr "Chat 2")].

(** A server whose answer to [POST /chat] has no text. *)
Definition mute_shop : Browser :=
  browser (Some "alice") alice
    (serving (VObj [("status", VStr "queued")]) (VArr server_chats)).

(** A server that creates [chat2]. *)
Definition chat_shop : Browser :=
  browser (Some "alice") alice (serving chat2 (VArr [])).

(** The page of [alice] while a send is in flight. *)
Definition sending : State :=
  {| user := alice; chats := [chat1 []]; activeChat := chat1 [];
     messages := VArr [msg "user" "hi"]; input := ""; isSending := true |}.

(** ** The definitions at work *)

Example trim_blanks : Str.trim "  hi there  " = "hi there".
Proof. vm_compute. reflexivity. Qed.

Example trim_no_break_space : Str.trim (Str.bytes [194; 160; 104; 105; 9; 226; 128; 169]) = "hi".
Proof. vm_compute. reflexivity. Qed.

Example split_path : Str.split "/" "/a/b//c/" = [""; "a"; "b"; ""; "c"; ""].
Proof. reflexivity. Qed.

Example encode_key :
  Uri.encodeURIComponent "users/u 1/p'h+o&t=o#.jpg" = "users%2Fu%201%2Fp'h%2Bo%26t%3Do%23.jpg".
Proof. vm_compute. reflexivity. Qed.

Example decode_key : Uri.decodeURIComponent "a%2Fb%20c%E2%82%AC" = Some "a/b c€".
Proof. vm_compute. reflexivity. Qed.

Example decode_malformed :
  Uri.decodeURIComponent "a%E2%82b" = None /\ Uri.decodeURIComponent "a%4" = None.
Proof. split; vm_compute; reflexivity. Qed.

Example parse_signed_photo_url :
  Uri.URL_parse signed_photo_url =
  Some {| pathname := "/aura-ai-users/users/alice/profile/a.jpg";
          search := "?X-Amz-Expires=3600&X-Amz-Signature=abc" |}.
Proof. vm_compute. reflexivity. Qed.

Example parse_relative : Uri.URL_parse "photo.jpg" = None.
Proof. reflexivity. Qed.

Example proxy_url_of_photo :
  getImageProxyUrl (H := plain_browser) photo_url "alice" =
  "https://aura-ai-997596012968.us-central1.run.app/api/image-proxy/alice?s3_key=users%2Falice%2Fprofile%2Fa.jpg&image_url=https%3A%2F%2Fs3.ap-south-1.amazonaws.com%2Faura-ai-users%2Fusers%2Falice%2Fprofile%2Fa.jpg".
Proof. vm_compute. reflexivity. Qed.

(** An escape in the key is undone twice on the way back, once by
    [searchParams] and once by [decodeURIComponent]. *)
Example escaped_key_is_decoded_twice :
  extractS3KeyFromUrl (H := plain_browser) "https://h.example/aura-ai-users/a%20b.jpg"
  = Some "a%20b.jpg"
  /\ extractS3KeyFromUrl (H := plain_browser)
       (getImageProxyUrl (H := plain_browser)
          "https://h.example/aura-ai-users/a%20b.jpg" "alice")
     = Some "a b.jpg".
Proof. split; vm_compute; reflexivity. Qed.

Example send_hi :
  sendMessage (H := shop) (typing " hi ") =
  ([ PreventDefault; AppendMessage (msg "user" "hi"); SetInput ""; SetIsSending true;
     Fetch (post_chat "hi");
     AppendMessage (assistantMessage stylist_reply);
     Fetch (get_chats "user_alice");
     SetChats server_chats;
     SetIsSending false ], Normal tt).
Proof. vm_compute. reflexivity. Qed.

Example say_hi :
  trace (sendMessageFromText (H := shop) (typing "") "hi") =
  [ AppendMessage (msg "user" "hi"); SetIsSending true;
    Fetch (post_chat "hi");
    AppendMessage (assistantMessage stylist_reply); Speak (VStr "Hello!");
    Fetch (get_chats "user_alice");
    SetChats server_chats;
    SetIsSending false ].
Proof. vm_compute. reflexivity. Qed.

Example mount_with_photos :
  mountEffect (H := browser (Some "alice") alice (serving VNull (VArr [chat1 []]))) initial =
  ([ SetUser alice; Fetch (get_chats "user_alice"); SetChats [chat1 []];
     SetActiveChat (chat1 []); SetMessages (VArr []) ], Normal tt).
Proof. vm_compute. reflexivity. Qed.

Example mount_without_a_user :
  mountEffect (H := browser None VNull offline) initial = ([Navigate "/login"], Normal tt).
Proof. reflexivity. Qed.

(** ** Properties of computations *)

Section Computations.

Context {A B : Type}.

Lemma performs_ret P (a : A) : performs P (ret a).
Proof. constructor. Qed.

Lemma performs_throw P t : performs P (@throw A t).
Proof. constructor. Qed.

Lemma performs_emit P e : P e = true -> performs P (emit e).
Proof. intros E. repeat constructor. exact E. Qed.

Lemma performs_bind P (m : M A) (f : A -> M B) :
  performs P m -> (forall a, performs P (f a)) -> performs P (bind m f).
Proof.
  unfold performs, bind. destruct m as [tr [a | t]]; simpl; intros Hm Hf.
  - specialize (Hf a). destruct (f a) as [tr' c]. simpl in *.
    apply Forall_app. split; assumption.
  - exact Hm.
Qed.

Lemma performs_try_catch P (m : M A) (h : thrown -> M A) :
  performs P m -> (forall t, performs P (h t)) -> performs P (try_catch m h).
Proof.
  unfold performs, try_catch. destruct m as [tr [a | t]]; simpl; intros Hm Hh.
  - exact Hm.
  - specialize (Hh t). destruct (h t) as [tr' c]. simpl in *.
    apply Forall_app. split; assumption.
Qed.

Lemma performs_weaken (P Q : Effect -> bool) (m : M A) :
  (forall e, P e = true -> Q e = true) -> performs P m -> performs Q m.
Proof. intros I. apply Forall_impl. exact I. Qed.

Lemma throws_errors_ret (a : A) : throws_errors (ret a).
Proof. intros t E. discriminate E. Qed.

Lemma throws_errors_throw n msg : throws_errors (@throw A (ErrorObj n msg)).
Proof. intros t E. inversion E. reflexivity. Qed.

Lemma throws_errors_Error msg : throws_errors (@throw A (Error msg)).
Proof. apply throws_errors_throw. Qed.

Lemma throws_errors_TypeError msg : throws_errors (@throw A (TypeError msg)).
Proof. apply throws_errors_throw. Qed.

Lemma throws_errors_bind (m : M A) (f : A -> M B) :
  throws_errors m -> (forall a, throws_errors (f a)) -> throws_errors (bind m f).
Proof.
  unfold throws_errors, bind, outcome. destruct m as [tr [a | t]]; simpl; intros Hm Hf.
  - specialize (Hf a). destruct (f a) as [tr' c]. exact Hf.
  - intros t0 E. apply Hm. inversion E. reflexivity.
Qed.

Lemma throws_errors_try_catch (m : M A) (h : thrown -> M A) :
  (forall t, throws_errors (h t)) -> throws_errors (try_catch m h).
Proof.
  unfold throws_errors, try_catch, outcome. destruct m as [tr [a | t]]; simpl; intros Hh.
  - intros t E. discriminate E.
  - specialize (Hh t). destruct (h t) as [tr' c]. exact Hh.
Qed.

End Computations.

Lemma throws_errors_prop v k : throws_errors (prop v k).
Proof. unfold prop. destruct (nullish v); [apply throws_errors_throw | apply throws_errors_ret]. Qed.

Lemma throws_errors_trim v : throws_errors (trim_method v).
Proof.
  destruct v; simpl; try apply throws_errors_throw; apply throws_errors_ret.
Qed.

Lemma performs_prop P v k : performs P (prop v k).
Proof. unfold prop. destruct (nullish v); constructor. Qed.

Lemma performs_trim P v : performs P (trim_method v).
Proof. destruct v; constructor. Qed.

Lemma rethrown_errors (fallback : string) (error : thrown) :
  throws_errors
    (if instanceof_Error error then @throw val error else throw (Error fallback)).
Proof.
  destruct error; simpl; [apply throws_errors_throw | apply throws_errors_Error].
Qed.

Create HintDb js.
#[local] Hint Resolve performs_ret performs_throw performs_emit performs_prop
  performs_trim throws_errors_ret throws_errors_throw throws_errors_Error
  throws_errors_TypeError throws_errors_prop
  throws_errors_trim : js.

(** One step through the structure of a computation. *)
Ltac js_step :=
  lazymatch goal with
  | |- throws_errors (if instanceof_Error _ then _ else _) => apply rethrown_errors
  | |- performs _ (bind _ _) => apply performs_bind; [ | intros ? ]
  | |- performs _ (try_catch _ _) => apply performs_try_catch; [ | intros ? ]
  | |- throws_errors (bind _ _) => apply throws_errors_bind; [ | intros ? ]
  | |- throws_errors (try_catch _ _) => apply throws_errors_try_catch; intros ?
  | |- performs _ (if ?b then _ else _) => destruct b
  | |- throws_errors (if ?b then _ else _) => destruct b
  | |- performs _ (match ?x with _ => _ end) => destruct x
  | |- throws_errors (match ?x with _ => _ end) => destruct x
  end.

Ltac js_auto := repeat js_step; auto with js.

(** The functions of the client perform requests and nothing else, and
    what they reject with is an instance of [Error]. *)
Section ApiFacts.
Context `{Browser}.

Lemma performs_fetch r : performs is_fetch (fetch r).
Proof. unfold fetch. js_auto. Qed.

Lemma performs_json P r : performs P (json r).
Proof. constructor. Qed.

Lemma getChats_requests u : performs is_fetch (getChats u).
Proof.
  unfold getChats, json_or_empty. js_auto; try apply performs_fetch; try apply performs_json.
Qed.

Lemma getChats_errors u : throws_errors (getChats u).
Proof. unfold getChats. js_auto. Qed.

Lemma sendChatMessage_requests m u th : performs is_fetch (sendChatMessage m u th).
Proof.
  unfold sendChatMessage, json_or_empty. js_auto; try apply performs_fetch; try apply performs_json.
Qed.

Lemma sendChatMessage_errors m u th : throws_errors (sendChatMessage m u th).
Proof. unfold sendChatMessage. js_auto. Qed.

End ApiFacts.

#[local] Hint Resolve getChats_requests getChats_errors sendChatMessage_requests
  sendChatMessage_errors : js.

(** ** Running a trace *)

Lemma run_app st tr1 tr2 :
  run st (tr1 ++ tr2) =
  match run st tr1 with
  | Some st' => run st' tr2
  | None => None
  end.
Proof.
  revert st. induction tr1 as [| e tr1 IH]; intros st; simpl.
  - reflexivity.
  - destruct (apply st e); [apply IH | reflexivity].
Qed.

Lemma run_requests st tr :
  Forall (fun e => is_fetch e = true) tr -> run st tr = Some st.
Proof.
  induction 1 as [| e tr He _ IH]; simpl.
  - reflexivity.
  - destruct e; try discriminate He. simpl. exact IH.
Qed.

Lemma filter_none {X} (p q : X -> bool) (l : list X) :
  (forall x, q x = true -> p x = false) ->
  Forall (fun x => q x = true) l -> filter p l = [].
Proof.
  intros I. induction 1 as [| x l Hx _ IH]; simpl.
  - reflexivity.
  - rewrite (I x Hx). exact IH.
Qed.

(** ** The refresh and the [catch] block of the send *)

Section ChatFacts.
Context `{Browser}.
Variable st : State.

Lemma fetchChatsWithUserId_refresh u :
  performs is_refresh (fetchChatsWithUserId st u).
Proof.
  unfold fetchChatsWithUserId, message_of.
  js_auto; try (apply performs_emit; reflexivity).
  apply performs_weaken with (P := is_fetch); [ | apply getChats_requests ].
  intros [] E; try discriminate E; reflexivity.
Qed.

Lemma fetchChatsWithUserId_resolves u :
  outcome (fetchChatsWithUserId st u) = Normal tt.
Proof.
  unfold fetchChatsWithUserId.
  destruct (negb (truthy u)); [reflexivity | ].
  match goal with |- outcome (try_catch ?m ?h) = _ =>
    assert (E : throws_errors m) by (js_auto; apply throws_errors_ret);
    destruct m as [tr [[] | t]] eqn:Em end.
  - reflexivity.
  - specialize (E t eq_refl). destruct t; [reflexivity | discriminate E].
Qed.

Lemma sendFailed_Error name message :
  sendFailed (ErrorObj name message) =
  if Str.includes message "upload at least one photo"
  then ([ AppendMessage (msg "assistant" photo_hint);
          SetTimeout 3000 "/dashboard" ], Normal tt)
  else ([ AppendMessage (msg "assistant" (failure_text message)) ], Normal tt).
Proof.
  unfold sendFailed, failure_text. simpl.
  destruct message as [| c r]; [reflexivity | ].
  cbn [truthy String.eqb negb includes_method bind ret].
  destruct (Str.includes (String c r) "upload at least one photo"); reflexivity.
Qed.

End ChatFacts.

(** ** The ways of a send that goes ahead

    The request is rejected; it is answered with a value that has a
    [response] field to look at; it is answered with [null]. *)

Section SendFacts.
Context `{Browser}.
Variable st : State.

Lemma refresh_resolves : outcome (refresh st) = Normal tt.
Proof.
  unfold refresh. destruct (truthy _); [apply fetchChatsWithUserId_resolves | reflexivity].
Qed.

Lemma refresh_refresh : performs is_refresh (refresh st).
Proof.
  unfold refresh. destruct (truthy _); [apply fetchChatsWithUserId_refresh | constructor].
Qed.

(** Past the two guards. *)
Ltac enter Hcan :=
  destruct Hcan as (Htext & Hflag & Huser & Hchat);
  apply String.eqb_neq in Htext;
  unfold sendMessage, sendMessageFromText; rewrite Htext, Hflag, Huser, Hchat;
  cbn [orb negb]; cbv zeta.

Lemma sendMessage_rejected tr name message :
  can_send st (input st) ->
  sendChatMessage (VStr (Str.trim (input st))) (userId_of (user st))
    (threadId_of (activeChat st)) = (tr, Throw (ErrorObj name message)) ->
  sendMessage st =
  (opening (Str.trim (input st)) ++ tr
     ++ trace (sendFailed (ErrorObj name message)) ++ [SetIsSending false],
   Normal tt)%list.
Proof.
  intros Hcan Hsend. enter Hcan. rewrite Hsend.
  cbn [bind try_catch try_finally emit]. rewrite sendFailed_Error.
  destruct (Str.includes message _);
    cbn [try_finally emit app trace fst opening];
    rewrite <- ?app_assoc; reflexivity.
Qed.

Lemma sendMessage_replied tr response :
  can_send st (input st) ->
  sendChatMessage (VStr (Str.trim (input st))) (userId_of (user st))
    (threadId_of (activeChat st)) = (tr, Normal response) ->
  nullish response = false ->
  sendMessage st =
  (opening (Str.trim (input st)) ++ tr ++ reply_of response
     ++ trace (refresh st) ++ [SetIsSending false],
   Normal tt)%list.
Proof.
  intros Hcan Hsend Hresp. enter Hcan. rewrite Hsend.
  pose proof refresh_resolves as R. unfold refresh in *. unfold reply_of.
  cbn [bind]. unfold prop. rewrite Hresp. cbn [bind ret].
  destruct (if truthy (get_opt (user st) "user_id") then _ else _) as [trR cR].
  simpl in R. subst cR.
  destruct (truthy (get response "response"));
    cbn [bind ret try_catch try_finally emit app trace fst opening];
    rewrite ?app_nil_r, <- ?app_assoc; reflexivity.
Qed.

Lemma sendMessage_no_response tr response :
  can_send st (input st) ->
  sendChatMessage (VStr (Str.trim (input st))) (userId_of (user st))
    (threadId_of (activeChat st)) = (tr, Normal response) ->
  nullish response = true ->
  sendMessage st =
  (opening (Str.trim (input st)) ++ tr
     ++ [AppendMessage
           (msg "assistant"
                (failure_text ("Cannot read properties of " ++ toString response)))]
     ++ [SetIsSending false],
   Normal tt)%list.
Proof.
  intros Hcan Hsend Hresp. enter Hcan. rewrite Hsend.
  cbn [bind]. unfold prop. rewrite Hresp.
  cbn [bind throw try_catch]. unfold TypeError. rewrite sendFailed_Error.
  destruct response; try discriminate Hresp;
    match goal with |- context [Str.includes ?a ?b] =>
      replace (Str.includes a b) with false by (vm_compute; reflexivity) end;
    cbn [bind try_finally emit app trace fst opening];
    rewrite ?app_nil_r, <- ?app_assoc; reflexivity.
Qed.

Lemma sendMessageFromText_rejected text tr name message :
  can_send st text ->
  sendChatMessage (VStr text) (userId_of (user st))
    (threadId_of (activeChat st)) = (tr, Throw (ErrorObj name message)) ->
  sendMessageFromText st text =
  (voice_opening text ++ tr
     ++ trace (sendFailed (ErrorObj name message)) ++ [SetIsSending false],
   Normal tt)%list.
Proof.
  intros Hcan Hsend. enter Hcan. rewrite Hsend.
  cbn [bind try_catch try_finally emit]. rewrite sendFailed_Error.
  destruct (Str.includes message _);
    cbn [try_finally emit app trace fst voice_opening];
    rewrite <- ?app_assoc; reflexivity.
Qed.

Lemma sendMessageFromText_replied text tr response :
  can_send st text ->
  sendChatMessage (VStr text) (userId_of (user st))
    (threadId_of (activeChat st)) = (tr, Normal response) ->
  nullish response = false ->
  sendMessageFromText st text =
  (voice_opening text ++ tr ++ voice_reply_of response
     ++ trace (refresh st) ++ [SetIsSending false],
   Normal tt)%list.
Proof.
  intros Hcan Hsend Hresp. enter Hcan. rewrite Hsend.
  pose proof refresh_resolves as R. unfold refresh in *. unfold voice_reply_of.
  cbn [bind]. unfold prop. rewrite Hresp. cbn [bind ret].
  destruct (if truthy (get_opt (user st) "user_id") then _ else _) as [trR cR].
  simpl in R. subst cR.
  destruct (truthy (get response "response"));
    [ destruct (audio_outcome (get response "response")) | ];
    cbn [bind ret try_catch try_finally emit app trace fst voice_opening];
    rewrite ?app_nil_r, <- ?app_assoc; reflexivity.
Qed.

Lemma sendMessageFromText_no_response text tr response :
  can_send st text ->
  sendChatMessage (VStr text) (userId_of (user st))
    (threadId_of (activeChat st)) = (tr, Normal response) ->
  nullish response = true ->
  sendMessageFromText st text =
  (voice_opening text ++ tr
     ++ [AppendMessage
           (msg "assistant"
                (failure_text ("Cannot read properties of " ++ toString response)))]
     ++ [SetIsSending false],
   Normal tt)%list.
Proof.
  intros Hcan Hsend Hresp. enter Hcan. rewrite Hsend.
  cbn [bind]. unfold prop. rewrite Hresp.
  cbn [bind throw try_catch]. unfold TypeError. rewrite sendFailed_Error.
  destruct response; try discriminate Hresp;
    match goal with |- context [Str.includes ?a ?b] =>
      replace (Str.includes a b) with false by (vm_compute; reflexivity) end;
    cbn [bind try_finally emit app trace fst voice_opening];
    rewrite ?app_nil_r, <- ?app_assoc; reflexivity.
Qed.

End SendFacts.

(** ** Counting the messages of a send *)

Lemma appended_app r a b : appended r (a ++ b) = (appended r a ++ appended r b)%list.
Proof. apply filter_app. Qed.

Lemma appended_requests r tr :
  Forall (fun e => is_fetch e = true) tr -> appended r tr = [].
Proof.
  apply filter_none. intros [] E; try discriminate E; reflexivity.
Qed.

Lemma appended_refresh r tr :
  Forall (fun e => is_refresh e = true) tr -> appended r tr = [].
Proof.
  apply filter_none. intros [] E; try discriminate E; reflexivity.
Qed.

Lemma run_keeps_array st tr :
  isArray (messages st) = true -> Forall (fun e => keeps_array e = true) tr ->
  exists st', run st tr = Some st' /\ isArray (messages st') = true.
Proof.
  intros Harr Htr. revert st Harr.
  induction Htr as [| e tr He _ IH]; intros st Harr.
  - exists st. split; [reflexivity | exact Harr].
  - destruct (messages st) as [| | | | | prev |] eqn:Hm; try discriminate Harr.
    destruct e as [| | | | v | | | | | | |]; cbn [run apply]; rewrite ?Hm;
      cbn [spread]; try (apply IH; cbn [messages]; rewrite ?Hm; reflexivity).
    destruct v; try discriminate He. apply IH. reflexivity.
Qed.

Lemma requests_keep_array tr :
  Forall (fun e => is_fetch e = true) tr -> Forall (fun e => keeps_array e = true) tr.
Proof. apply Forall_impl. intros [] E; try discriminate E; reflexivity. Qed.

Section Shape.
Context `{Browser}.
Variable st : State.
Hypothesis active : truthy (activeChat st) = true.

(** With an active chat, a refresh sets the message list, if at all, to the
    empty array. *)
Lemma fetchChatsWithUserId_keeps_array u :
  performs keeps_array (fetchChatsWithUserId st u).
Proof.
  unfold fetchChatsWithUserId, message_of.
  destruct (negb (truthy u)); [constructor | ].
  apply performs_try_catch.
  - apply performs_bind.
    + apply requests_keep_array, getChats_requests.
    + intros data. destruct data; try (apply performs_emit; reflexivity).
      apply performs_bind; [apply performs_emit; reflexivity | intros _].
      rewrite active. cbn [negb]. rewrite andb_false_r.
      js_auto; try (apply performs_emit; reflexivity).
  - intros err. js_auto; try (apply performs_emit; reflexivity).
Qed.

Lemma refresh_keeps_array : performs keeps_array (refresh st).
Proof.
  unfold refresh. destruct (truthy (get_opt (user st) "user_id"));
    [apply fetchChatsWithUserId_keeps_array | constructor].
Qed.

Lemma sendFailed_one_reply name message :
  one_reply_at_most (trace (sendFailed (ErrorObj name message))).
Proof.
  rewrite sendFailed_Error.
  destruct (Str.includes message _); repeat split; simpl; auto; repeat constructor.
Qed.

Lemma one_reply_app tr mid :
  Forall (fun e => is_fetch e = true) tr -> one_reply_at_most mid ->
  one_reply_at_most (tr ++ mid).
Proof.
  intros Htr (Hu & Ha & Hk). unfold one_reply_at_most.
  rewrite !appended_app.
  rewrite !(appended_requests _ tr Htr).
  simpl. repeat split; try assumption.
  apply Forall_app. split; [apply requests_keep_array, Htr | exact Hk].
Qed.

Lemma reply_then_refresh_one_reply (reply : list Effect) :
  appended "user" reply = [] -> (List.length (appended "assistant" reply) <= 1)%nat ->
  Forall (fun e => keeps_array e = true) reply ->
  one_reply_at_most (reply ++ trace (refresh st)).
Proof.
  intros Hu Ha Hk. unfold one_reply_at_most. rewrite !appended_app.
  rewrite !(appended_refresh _ _ (refresh_refresh st)), !app_nil_r.
  repeat split; try assumption.
  apply Forall_app. split; [exact Hk | apply refresh_keeps_array].
Qed.

Lemma sendMessage_shape :
  can_send st (input st) ->
  exists mid,
    sendMessage st =
    (opening (Str.trim (input st)) ++ mid ++ [SetIsSending false], Normal tt)%list
    /\ one_reply_at_most mid.
Proof.
  intros Hcan.
  destruct (sendChatMessage (VStr (Str.trim (input st))) (userId_of (user st))
              (threadId_of (activeChat st))) as [tr [response | t]] eqn:Hsend.
  - pose proof (sendChatMessage_requests (VStr (Str.trim (input st)))
                  (userId_of (user st)) (threadId_of (activeChat st))) as Htr.
    rewrite Hsend in Htr.
    destruct (nullish response) eqn:Hresp.
    + exists (tr ++ [AppendMessage
                       (msg "assistant"
                          (failure_text ("Cannot read properties of "
                                         ++ toString response)))])%list.
      split.
      * rewrite (sendMessage_no_response st tr response Hcan Hsend Hresp).
        rewrite <- app_assoc. reflexivity.
      * apply one_reply_app; [exact Htr | ].
        repeat split; simpl; auto; repeat constructor.
    + exists (tr ++ reply_of response ++ trace (refresh st))%list. split.
      * rewrite (sendMessage_replied st tr response Hcan Hsend Hresp).
        rewrite <- !app_assoc. reflexivity.
      * apply one_reply_app; [exact Htr | ].
        apply reply_then_refresh_one_reply; unfold reply_of;
          destruct (truthy (get response "response")); simpl; auto; repeat constructor.
  - pose proof (sendChatMessage_requests (VStr (Str.trim (input st)))
                  (userId_of (user st)) (threadId_of (activeChat st))) as Htr.
    pose proof (sendChatMessage_errors (VStr (Str.trim (input st)))
                  (userId_of (user st)) (threadId_of (activeChat st)) t) as Herr.
    rewrite Hsend in Htr, Herr. specialize (Herr eq_refl).
    destruct t as [name message | v]; [ | discriminate Herr].
    exists (tr ++ trace (sendFailed (ErrorObj name message)))%list. split.
    + rewrite (sendMessage_rejected st tr name message Hcan Hsend).
      rewrite <- !app_assoc. reflexivity.
    + apply one_reply_app; [exact Htr | apply sendFailed_one_reply].
Qed.

Lemma sendMessageFromText_shape text :
  can_send st text ->
  exists mid,
    sendMessageFromText st text =
    (voice_opening text ++ mid ++ [SetIsSending false], Normal tt)%list
    /\ one_reply_at_most mid.
Proof.
  intros Hcan.
  destruct (sendChatMessage (VStr text) (userId_of (user st))
              (threadId_of (activeChat st))) as [tr [response | t]] eqn:Hsend.
  - pose proof (sendChatMessage_requests (VStr text)
                  (userId_of (user st)) (threadId_of (activeChat st))) as Htr.
    rewrite Hsend in Htr.
    destruct (nullish response) eqn:Hresp.
    + exists (tr ++ [AppendMessage
                       (msg "assistant"
                          (failure_text ("Cannot read properties of "
                                         ++ toString response)))])%list.
      split.
      * rewrite (sendMessageFromText_no_response st text tr response Hcan Hsend Hresp).
        rewrite <- app_assoc. reflexivity.
      * apply one_reply_app; [exact Htr | ].
        repeat split; simpl; auto; repeat constructor.
    + exists (tr ++ voice_reply_of response ++ trace (refresh st))%list. split.
      * rewrite (sendMessageFromText_replied st text tr response Hcan Hsend Hresp).
        rewrite <- !app_assoc. reflexivity.
      * apply one_reply_app; [exact Htr | ].
        apply reply_then_refresh_one_reply; unfold voice_reply_of;
          destruct (truthy (get response "response")); simpl; auto; repeat constructor.
  - pose proof (sendChatMessage_requests (VStr text)
                  (userId_of (user st)) (threadId_of (activeChat st))) as Htr.
    pose proof (sendChatMessage_errors (VStr text)
                  (userId_of (user st)) (threadId_of (activeChat st)) t) as Herr.
    rewrite Hsend in Htr, Herr. specialize (Herr eq_refl).
    destruct t as [name message | v]; [ | discriminate Herr].
    exists (tr ++ trace (sendFailed (ErrorObj name message)))%list. split.
    + rewrite (sendMessageFromText_rejected st text tr name message Hcan Hsend).
      rewrite <- !app_assoc. reflexivity.
    + apply one_reply_app; [exact Htr | apply sendFailed_one_reply].
Qed.

End Shape.

(** A trace of the form a send has: the user message, then at most one
    reply, then the release of the flag. *)
Lemma shape_counts (pre mid : list Effect) :
  List.length (appended "user" pre) = 1%nat -> appended "assistant" pre = [] ->
  Forall (fun e => keeps_array e = true) pre ->
  one_reply_at_most mid ->
  let tr := (pre ++ mid ++ [SetIsSending false])%list in
  List.length (appended "user" tr) = 1%nat
  /\ (List.length (appended "assistant" tr) <= 1)%nat
  /\ (forall st0 st', run st0 tr = Some st' -> isSending st' = false)
  /\ (forall st0, isArray (messages st0) = true -> exists st', run st0 tr = Some st').
Proof.
  intros Hu Ha Hp (Mu & Ma & Mk) tr. unfold tr. rewrite !appended_app, Mu, Ha.
  rewrite !length_app, Hu. simpl. repeat split; try lia.
  - intros st0 st' R. rewrite app_assoc, run_app in R.
    destruct (run st0 (pre ++ mid)) as [s |]; [ | discriminate R].
    simpl in R. inversion R. reflexivity.
  - intros st0 Harr.
    destruct (run_keeps_array st0 (pre ++ mid ++ [SetIsSending false]) Harr) as (st' & R & _).
    + repeat (apply Forall_app; split); try assumption. repeat constructor.
    + exists st'. exact R.
Qed.

(** ** The send protocol *)

Lemma typing_can_send text :
  Str.trim text <> "" -> can_send (typing text) (input (typing text)).
Proof. intros E. repeat split. exact E. Qed.

Lemma hi_not_blank : Str.trim " hi " <> "".
Proof. vm_compute. discriminate. Qed.

Lemma blocked_guard st text :
  blocked st text ->
  (Str.trim text =? "") || isSending st = true
  \/ negb (truthy (get_opt (user st) "username")) || negb (truthy (activeChat st)) = true.
Proof.
  intros [E | [E | [E | [E | E]]]]; rewrite ?E; simpl.
  - left. apply orb_true_r.
  - left. reflexivity.
  - right. apply orb_true_r.
  - right. reflexivity.
  - right. reflexivity.
Qed.

(** C7: a send while the sending flag is up, or with empty or blank input,
    or without an active chat, or without a persisted user, does nothing:
    it completes normally, leaves every state cell as it was and issues no
    request (the text page only cancels the submit event). *)
Theorem blocked_send_is_a_no_op `{Browser} (st : State) (text : string) :
  (blocked st (input st) ->
   sendMessage st = ([PreventDefault], Normal tt)
   /\ run st (trace (sendMessage st)) = Some st
   /\ requests (trace (sendMessage st)) = [])
  /\
  (blocked st text ->
   sendMessageFromText st text = ([], Normal tt)
   /\ run st (trace (sendMessageFromText st text)) = Some st
   /\ requests (trace (sendMessageFromText st text)) = []).
Proof.
  split; intros Hb; apply blocked_guard in Hb.
  - assert (E : sendMessage st = ([PreventDefault], Normal tt)).
    { unfold sendMessage. destruct Hb as [G | G].
      - rewrite G. reflexivity.
      - rewrite G. destruct (_ || isSending st); reflexivity. }
    rewrite E. repeat split.
  - assert (E : sendMessageFromText st text = ([], Normal tt)).
    { unfold sendMessageFromText. destruct Hb as [G | G].
      - rewrite G. reflexivity.
      - rewrite G. destruct (_ || isSending st); reflexivity. }
    rewrite E. repeat split.
Qed.

Lemma blocked_send_is_a_no_op_witness :
  sendMessage (H := shop) (typing "   ") = ([PreventDefault], Normal tt)
  /\ sendMessageFromText (H := shop) (typing "") "   " = ([], Normal tt).
Proof.
  split.
  - refine (proj1 (proj1 (blocked_send_is_a_no_op (H := shop) (typing "   ") "") _)).
    right. left. vm_compute. reflexivity.
  - refine (proj1 (proj2 (blocked_send_is_a_no_op (H := shop) (typing "") "   ") _)).
    right. left. vm_compute. reflexivity.
Defined.

(** C2: a send that goes ahead (non-empty trimmed input, a user, an active
    chat, the sending flag down) appends exactly one user message and at
    most one assistant message, its promise resolves, and the last thing it
    does is to lower the sending flag, so that the flag is down in the state
    that results (and there is such a state when the message list is an
    array), on the text page ([sendMessage]) and on the voice page
    ([sendMessageFromText]) alike, whether the request succeeded or not. *)
Theorem send_appends_one_user_message `{Browser} (st : State) (text : string) :
  (can_send st (input st) ->
   let tr := trace (sendMessage st) in
   List.length (appended "user" tr) = 1%nat
   /\ (List.length (appended "assistant" tr) <= 1)%nat
   /\ outcome (sendMessage st) = Normal tt
   /\ (exists before, tr = before ++ [SetIsSending false])%list
   /\ (forall st', run st tr = Some st' -> isSending st' = false)
   /\ (isArray (messages st) = true -> exists st', run st tr = Some st'))
  /\
  (can_send st text ->
   let tr := trace (sendMessageFromText st text) in
   List.length (appended "user" tr) = 1%nat
   /\ (List.length (appended "assistant" tr) <= 1)%nat
   /\ outcome (sendMessageFromText st text) = Normal tt
   /\ (exists before, tr = before ++ [SetIsSending false])%list
   /\ (forall st', run st tr = Some st' -> isSending st' = false)
   /\ (isArray (messages st) = true -> exists st', run st tr = Some st')).
Proof.
  split; intros Hcan; pose proof (proj2 (proj2 (proj2 Hcan))) as Hactive.
  - destruct (sendMessage_shape st Hactive Hcan) as (mid & E & Hmid).
    rewrite E. cbn [trace outcome fst snd].
    destruct (shape_counts (opening (Str.trim (input st))) mid
                eq_refl eq_refl ltac:(repeat constructor) Hmid) as (Hu & Ha & Hf & Hr).
    repeat split; auto.
    + exists (opening (Str.trim (input st)) ++ mid)%list.
      rewrite <- app_assoc. reflexivity.
    + apply Hf.
  - destruct (sendMessageFromText_shape st Hactive text Hcan) as (mid & E & Hmid).
    rewrite E. cbn [trace outcome fst snd].
    destruct (shape_counts (voice_opening text) mid eq_refl eq_refl
                ltac:(repeat constructor) Hmid) as (Hu & Ha & Hf & Hr).
    repeat split; auto.
    + exists (voice_opening text ++ mid)%list.
      rewrite <- app_assoc. reflexivity.
    + apply Hf.
Qed.

Lemma send_appends_one_user_message_witness :
  List.length (appended "user" (trace (sendMessage (H := shop) (typing " hi ")))) = 1%nat
  /\ List.length
       (appended "user" (trace (sendMessageFromText (H := shop) (typing "") "hi"))) = 1%nat.
Proof.
  split.
  - refine (proj1 (proj1 (send_appends_one_user_message (H := shop) (typing " hi ") "") _)).
    exact (typing_can_send " hi " hi_not_blank).
  - refine (proj1 (proj2 (send_appends_one_user_message (H := shop) (typing "") "hi") _)).
    repeat split. vm_compute. discriminate.
Defined.

Lemma navigations_requests tr :
  Forall (fun e => is_fetch e = true) tr -> navigations tr = [].
Proof.
  apply filter_none. intros [] E; try discriminate E; reflexivity.
Qed.

(** C4: when [sendChatMessage] rejects, what it rejects with is an [Error];
    the send still resolves. If the message of the error contains "upload
    at least one photo", the page appends the assistant message that asks
    for a photo and schedules the navigation to the dashboard (the profile
    page) three seconds later; otherwise it appends the assistant message
    "Error: " followed by the message of the error (a fixed text when that
    message is empty) and neither navigates nor schedules a navigation. *)
Theorem send_failure_is_rendered `{Browser} (st : State) (tr : list Effect) (t : thrown) :
  can_send st (input st) ->
  sendChatMessage (VStr (Str.trim (input st))) (userId_of (user st))
    (threadId_of (activeChat st)) = (tr, Throw t) ->
  exists name message,
    t = ErrorObj name message
    /\ outcome (sendMessage st) = Normal tt
    /\ (Str.includes message "upload at least one photo" = true ->
        trace (sendMessage st) =
        opening (Str.trim (input st)) ++ tr
          ++ [ AppendMessage (msg "assistant" photo_hint);
               SetTimeout 3000 "/dashboard";
               SetIsSending false ])%list
    /\ (Str.includes message "upload at least one photo" = false ->
        trace (sendMessage st) =
        (opening (Str.trim (input st)) ++ tr
          ++ [ AppendMessage (msg "assistant" (failure_text message));
               SetIsSending false ])%list
        /\ navigations (trace (sendMessage st)) = []).
Proof.
  intros Hcan Hsend.
  pose proof (sendChatMessage_requests (VStr (Str.trim (input st)))
                (userId_of (user st)) (threadId_of (activeChat st))) as Htr.
  pose proof (sendChatMessage_errors (VStr (Str.trim (input st)))
                (userId_of (user st)) (threadId_of (activeChat st)) t) as Herr.
  rewrite Hsend in Htr, Herr. specialize (Herr eq_refl).
  destruct t as [name message | v]; [ | discriminate Herr].
  exists name, message.
  rewrite (sendMessage_rejected st tr name message Hcan Hsend), sendFailed_Error.
  cbn [trace outcome fst snd].
  split; [reflexivity | split; [reflexivity | ]].
  split; intros E; rewrite E; cbn [fst app].
  - reflexivity.
  - split; [reflexivity | ].
    unfold navigations. rewrite !filter_app.
    change (filter is_navigation tr) with (navigations tr).
    rewrite (navigations_requests tr Htr). reflexivity.
Qed.

Lemma send_failure_is_rendered_witness :
  outcome (sendMessage (H := strict_shop) (typing " hi ")) = Normal tt
  /\ (trace (sendMessage (H := strict_shop) (typing " hi ")) =
      opening "hi" ++ [Fetch (post_chat "hi")]
        ++ [ AppendMessage (msg "assistant" photo_hint);
             SetTimeout 3000 "/dashboard";
             SetIsSending false ])%list.
Proof.
  destruct (send_failure_is_rendered (H := strict_shop) (typing " hi ")
              [Fetch (post_chat "hi")]
              (Error "Please upload at least one photo to start chatting")
              (typing_can_send " hi " hi_not_blank) eq_refl)
    as (name & message & E & Hout & Hphoto & _).
  injection E as <- <-.
  split; [exact Hout | apply Hphoto; vm_compute; reflexivity].
Defined.

(** C5: when the response of a successful send carries a non-empty reply
    and both a [ranked_products] and a [styled_products] list, the one
    assistant message that the page appends has [ranked_products] as its
    [products]. *)
Theorem ranked_products_take_priority `{Browser} (st : State) (tr : list Effect)
    (response : val) (reply : string) (ranked styled : list val) :
  can_send st (input st) ->
  sendChatMessage (VStr (Str.trim (input st))) (userId_of (user st))
    (threadId_of (activeChat st)) = (tr, Normal response) ->
  get response "response" = VStr reply -> reply <> "" ->
  get response "ranked_products" = VArr ranked ->
  get response "styled_products" = VArr styled ->
  appended "assistant" (trace (sendMessage st))
    = [AppendMessage (assistantMessage response)]
  /\ get (assistantMessage response) "products" = VArr ranked
  /\ get (assistantMessage response) "content" = VStr reply.
Proof.
  intros Hcan Hsend Hreply Hne Hranked Hstyled.
  assert (Hresp : nullish response = false)
    by (destruct response; try discriminate Hreply; reflexivity).
  pose proof (sendChatMessage_requests (VStr (Str.trim (input st)))
                (userId_of (user st)) (threadId_of (activeChat st))) as Htr.
  rewrite Hsend in Htr.
  rewrite (sendMessage_replied st tr response Hcan Hsend Hresp).
  cbn [trace fst]. rewrite !appended_app.
  rewrite (appended_requests _ tr Htr).
  rewrite (appended_refresh _ _ (refresh_refresh st)).
  unfold reply_of. rewrite Hreply. apply String.eqb_neq in Hne.
  cbn [truthy]. rewrite Hne. cbn [negb].
  split; [reflexivity | ].
  unfold assistantMessage. cbn [get lookup String.eqb Ascii.eqb Bool.eqb].
  rewrite Hranked, Hreply. split; reflexivity.
Qed.

Lemma ranked_products_take_priority_witness :
  appended "assistant" (trace (sendMessage (H := shop) (typing " hi ")))
    = [AppendMessage (assistantMessage stylist_reply)]
  /\ get (assistantMessage stylist_reply) "products" = VArr [VObj [("id", VStr "p1")]]
  /\ get (assistantMessage stylist_reply) "content" = VStr "Hello!".
Proof.
  refine (ranked_products_take_priority (H := shop) (typing " hi ")
            [Fetch (post_chat "hi")] stylist_reply "Hello!"
            [VObj [("id", VStr "p1")]] [VObj [("id", VStr "s1")]]
            (typing_can_send " hi " hi_not_blank) _ _ _ _ _).
  all: try (vm_compute; reflexivity).
  discriminate.
Defined.

Lemma fetchChatsWithUserId_array `{Browser} (st : State) (u : val)
    (tr : list Effect) (data : list val) :
  truthy u = true -> truthy (activeChat st) = true ->
  getChats u = (tr, Normal (VArr data)) ->
  fetchChatsWithUserId st u = ((tr ++ refreshed data)%list, Normal tt).
Proof.
  intros Hu Hchat Hget. unfold fetchChatsWithUserId.
  rewrite Hu, Hget. cbn [negb bind]. rewrite Hchat.
  destruct data; cbn; rewrite ?app_nil_r; reflexivity.
Qed.

(** C1, as the code has it: a send that succeeds with a non-empty reply
    appends exactly one assistant message and then, when the user has a
    [user_id], fetches the chat list again with [getChats]. When that
    yields an array, the array becomes the chat list. The message list is
    not loaded from it: if the array is not empty, the message list is the
    earlier list followed by the user message and the assistant message,
    and the active chat is the earlier object; if it is empty, the active
    chat and the message list are cleared. *)
Theorem send_refreshes_the_chat_list `{Browser} (st : State) (tr tr' : list Effect)
    (response : val) (reply : string) (data prev : list val) :
  can_send st (input st) ->
  truthy (get_opt (user st) "user_id") = true ->
  messages st = VArr prev ->
  sendChatMessage (VStr (Str.trim (input st))) (userId_of (user st))
    (threadId_of (activeChat st)) = (tr, Normal response) ->
  get response "response" = VStr reply -> reply <> "" ->
  getChats (userId_of (user st)) = (tr', Normal (VArr data)) ->
  appended "assistant" (trace (sendMessage st))
    = [AppendMessage (assistantMessage response)]
  /\ trace (sendMessage st) =
     (opening (Str.trim (input st)) ++ tr
        ++ [AppendMessage (assistantMessage response)]
        ++ tr' ++ refreshed data ++ [SetIsSending false])%list
  /\ run st (trace (sendMessage st)) =
     Some {| user := user st;
             chats := data;
             activeChat := match data with [] => VNull | _ :: _ => activeChat st end;
             messages :=
               match data with
               | [] => VArr []
               | _ :: _ =>
                   VArr (prev ++ [ msg "user" (Str.trim (input st));
                                   assistantMessage response ])%list
               end;
             input := "";
             isSending := false |}.
Proof.
  intros Hcan Hid Hprev Hsend Hreply Hne Hget.
  assert (Hresp : nullish response = false)
    by (destruct response; try discriminate Hreply; reflexivity).
  pose proof (sendChatMessage_requests (VStr (Str.trim (input st)))
                (userId_of (user st)) (threadId_of (activeChat st))) as Htr.
  pose proof (getChats_requests (userId_of (user st))) as Htr'.
  rewrite Hsend in Htr. rewrite Hget in Htr'.
  assert (Hu : truthy (userId_of (user st)) = true).
  { unfold userId_of, or_else. unfold get_opt in Hid.
    destruct (nullish (user st)); [discriminate Hid | ]. rewrite Hid. exact Hid. }
  assert (E : trace (sendMessage st) =
     (opening (Str.trim (input st)) ++ tr
        ++ [AppendMessage (assistantMessage response)]
        ++ tr' ++ refreshed data ++ [SetIsSending false])%list).
  { rewrite (sendMessage_replied st tr response Hcan Hsend Hresp).
    unfold refresh. rewrite Hid.
    rewrite (fetchChatsWithUserId_array st _ tr' data Hu (proj2 (proj2 (proj2 Hcan))) Hget).
    unfold reply_of. rewrite Hreply. apply String.eqb_neq in Hne.
    cbn [truthy trace fst]. rewrite Hne. cbn [negb].
    rewrite <- !app_assoc. reflexivity. }
  split; [ | split; [exact E | ]].
  - rewrite E, !appended_app.
    rewrite (appended_requests _ tr Htr), (appended_requests _ tr' Htr').
    destruct data; reflexivity.
  - rewrite E. unfold opening.
    cbn [app run apply]. rewrite Hprev. cbn [spread].
    rewrite run_app, (run_requests _ tr Htr).
    cbn [app run apply messages spread user chats activeChat input isSending].
    rewrite run_app, (run_requests _ tr' Htr').
    rewrite <- !app_assoc.
    destruct data; reflexivity.
Qed.

Lemma send_refreshes_the_chat_list_witness :
  run (typing " hi ") (trace (sendMessage (H := shop) (typing " hi "))) = Some after_hi.
Proof.
  refine (proj2 (proj2
    (send_refreshes_the_chat_list (H := shop) (typing " hi ")
       [Fetch (post_chat "hi")] [Fetch (get_chats "user_alice")]
       stylist_reply "Hello!" server_chats []
       (typing_can_send " hi " hi_not_blank) _ _ _ _ _ _))).
  all: try (vm_compute; reflexivity).
  discriminate.
Defined.

(** C1 as stated fails: alice sends "hi" in chat 1; the send succeeds with
    the reply "Hello!", and [getChats] then returns chat 1 with the three
    messages that the server recorded. The message list of the page is the
    two messages it appended itself, not the server's sequence. *)
Lemma local_messages_are_not_the_servers :
  outcome (sendChatMessage (H := shop) (VStr "hi") (VStr "user_alice") (VNum 1))
    = Normal stylist_reply
  /\ outcome (getChats (H := shop) (VStr "user_alice")) = Normal (VArr server_chats)
  /\ run (typing " hi ") (trace (sendMessage (H := shop) (typing " hi "))) = Some after_hi
  /\ messages after_hi <> server_messages (activeChat after_hi) server_chats.
Proof.
  repeat split; try (vm_compute; reflexivity).
  vm_compute. discriminate.
Qed.

(** ** The refresh of the chat list and the validation of the client *)

(** C6: when [getChats] resolves to a value that is not an array, the
    refresh sets the chat list to the empty list and touches neither the
    active chat nor the message list; and [getChats] rejects without a
    request when its argument is empty once trimmed. *)
Theorem non_array_chats_become_the_empty_list `{Browser} (st : State) (user_id data : val)
    (tr : list Effect) (blank : string) :
  (truthy user_id = true ->
   getChats user_id = (tr, Normal data) -> isArray data = false ->
   fetchChatsWithUserId st user_id = ((tr ++ [SetChats []])%list, Normal tt)
   /\ run st (trace (fetchChatsWithUserId st user_id)) =
      Some {| user := user st; chats := []; activeChat := activeChat st;
              messages := messages st; input := input st;
              isSending := isSending st |})
  /\
  (Str.trim blank = "" ->
   getChats (VStr blank) = ([], Throw (Error "User ID is required"))).
Proof.
  split.
  - intros Hu Hget Harr.
    pose proof (getChats_requests user_id) as Htr. rewrite Hget in Htr.
    assert (E : fetchChatsWithUserId st user_id = ((tr ++ [SetChats []])%list, Normal tt)).
    { unfold fetchChatsWithUserId. rewrite Hu, Hget. cbn [negb bind].
      destruct data; try discriminate Harr; reflexivity. }
    split; [exact E | ].
    rewrite E. cbn [trace fst]. rewrite run_app, (run_requests _ tr Htr). reflexivity.
  - intros Hblank. unfold getChats. cbn [truthy trim_method].
    destruct (negb (blank =? "")); cbn [negb bind ret truthy];
      rewrite ?Hblank; reflexivity.
Qed.

Lemma non_array_chats_become_the_empty_list_witness :
  chats after_hi <> []
  /\ run after_hi
       (trace (fetchChatsWithUserId
                 (H := browser None alice (serving VNull (VObj [("chats", VArr [])])))
                 after_hi (VStr "user_alice")))
     = Some {| user := alice; chats := []; activeChat := chat1 [];
               messages := messages after_hi; input := ""; isSending := false |}
  /\ getChats (H := shop) (VStr "  ") = ([], Throw (Error "User ID is required")).
Proof.
  split; [discriminate | split].
  - refine (proj2 (proj1
      (non_array_chats_become_the_empty_list
         (H := browser None alice (serving VNull (VObj [("chats", VArr [])])))
         after_hi (VStr "user_alice") (VObj [("chats", VArr [])])
         [Fetch (get_chats "user_alice")] "") _ _ _)); vm_compute; reflexivity.
  - refine (proj2
      (non_array_chats_become_the_empty_list (H := shop) after_hi VNull VNull [] "  ") _).
    vm_compute. reflexivity.
Defined.

(** Case analysis on what the network and the server did. *)
Ltac api_cases :=
  repeat (match goal with
          | |- context [fetch_outcome ?r] => destruct (fetch_outcome r) as [[] | ?]
          | |- context [ok ?r] => destruct (ok r)
          | |- context [json_body ?r] => destruct (json_body r) as [? | []]
          | |- context [nullish ?v] => destruct (nullish v)
          | |- context [truthy ?v] => destruct (truthy v)
          end; cbn).

(** C3, at the inputs where the code departs from it: a user id of three
    blanks is empty once trimmed, and yet [sendChatMessage] and
    [createChat] send it to the server, whereas [getChats] rejects it
    without a request. *)
Theorem blank_user_id_is_sent `{Browser} :
  Str.trim "   " = ""
  /\ trace (sendChatMessage (VStr "hi") (VStr "   ") VUndef) =
     [Fetch {| url := API_BASE_URL ++ "/chat"; method := "POST";
               body := Some (VObj [("message", VStr "hi"); ("user_id", VStr "   ")]) |}]
  /\ trace (createChat (VObj [("user_id", VStr "   ")])) =
     [Fetch {| url := API_BASE_URL ++ "/api/createChat/"; method := "POST";
               body := Some (VObj [("user_id", VStr "   ")]) |}]
  /\ getChats (VStr "   ") = ([], Throw (Error "User ID is required")).
Proof.
  split; [vm_compute; reflexivity | ].
  split; [ | split].
  - unfold sendChatMessage, fetch, json_or_empty, json, prop.
    replace (trim_method (VStr "hi")) with (@ret val (VStr "hi"))
      by (vm_compute; reflexivity).
    cbn. api_cases; reflexivity.
  - unfold createChat, fetch, json_or_empty, json, prop.
    cbn. api_cases; reflexivity.
  - unfold getChats.
    replace (trim_method (VStr "   ")) with (@ret val (VStr "")) by (vm_compute; reflexivity).
    reflexivity.
Qed.

Lemma trim_nonempty s : Str.trim s <> "" -> (s =? "") = false.
Proof.
  intros E. apply String.eqb_neq. intros ->. apply E. vm_compute. reflexivity.
Qed.

(** The "Network error" text is what a rejection of [fetch] with something
    that is not an [Error] turns into. *)
Lemma non_error_rejection_becomes_network_error `{Browser} (user_id : string) (v : val) :
  (forall r, fetch_outcome r = Rejects (Thrown v)) ->
  Str.trim user_id <> "" ->
  outcome (getChats (VStr user_id))
  = Throw (Error "Network error: Failed to connect to server").
Proof.
  intros Hnet Hid. pose proof (trim_nonempty _ Hid) as Hid'.
  apply String.eqb_neq in Hid.
  unfold getChats, fetch. cbn [truthy trim_method]. rewrite Hid'.
  cbn [negb bind ret truthy]. rewrite Hid. cbn [negb]. rewrite Hnet. reflexivity.
Qed.

(** C8, at the input where the code departs from it: when the network is
    down, [fetch] rejects with an instance of [Error] (a [TypeError]), and
    the [catch] block of every function of the client throws that very
    error again: the promise rejects with the browser's error, not with
    the "Network error: ..." text, which only a rejection with something
    that is not an [Error] would produce. *)
Theorem network_failure_is_rethrown `{Browser} (user_id message name text : string) :
  (forall r, fetch_outcome r = Rejects (ErrorObj name text)) ->
  Str.trim user_id <> "" -> Str.trim message <> "" ->
  outcome (getChats (VStr user_id)) = Throw (ErrorObj name text)
  /\ outcome (sendChatMessage (VStr message) (VStr user_id) VNull)
     = Throw (ErrorObj name text)
  /\ outcome (createChat (VObj [("user_id", VStr user_id)])) = Throw (ErrorObj name text).
Proof.
  intros Hnet Hid Hmsg.
  pose proof (trim_nonempty _ Hid) as Hid'. pose proof (trim_nonempty _ Hmsg) as Hmsg'.
  apply String.eqb_neq in Hid, Hmsg.
  split; [ | split].
  - unfold getChats, fetch. cbn [truthy trim_method]. rewrite Hid'.
    cbn [negb bind ret truthy]. rewrite Hid. cbn [negb]. rewrite Hnet. reflexivity.
  - unfold sendChatMessage, fetch. cbn [truthy trim_method]. rewrite Hmsg', Hid'.
    cbn [negb bind ret truthy]. rewrite Hmsg. cbn [negb]. rewrite Hnet. reflexivity.
  - unfold createChat, fetch. cbn [truthy get lookup String.eqb Ascii.eqb Bool.eqb].
    rewrite Hid'. cbn [negb orb]. rewrite Hnet. reflexivity.
Qed.

Lemma network_failure_is_rethrown_witness :
  outcome (getChats (H := browser None alice offline) (VStr "user_alice"))
  = Throw (TypeError "Failed to fetch")
  /\ outcome (sendChatMessage (H := browser None alice offline)
                (VStr "hi") (VStr "user_alice") VNull)
     = Throw (TypeError "Failed to fetch")
  /\ outcome (createChat (H := browser None alice offline)
                (VObj [("user_id", VStr "user_alice")]))
     = Throw (TypeError "Failed to fetch").
Proof.
  refine (network_failure_is_rethrown (H := browser None alice offline)
            "user_alice" "hi" "TypeError" "Failed to fetch" _ _ _).
  - intros r. reflexivity.
  - vm_compute. discriminate.
  - vm_compute. discriminate.
Defined.

(** ** The effects of the mount *)

Lemma trace_bind_begins {A B} (m : M A) (f : A -> M B) :
  exists rest, trace (bind m f) = (trace m ++ rest)%list.
Proof.
  destruct m as [tr [a | t]]; cbn.
  - destruct (f a) as [tr' c]. exists tr'. reflexivity.
  - exists []. rewrite app_nil_r. reflexivity.
Qed.

Lemma trace_try_catch_begins {A} (m : M A) (h : thrown -> M A) :
  exists rest, trace (try_catch m h) = (trace m ++ rest)%list.
Proof.
  destruct m as [tr [a | t]]; cbn.
  - exists []. rewrite app_nil_r. reflexivity.
  - destruct (h t) as [tr' c]. exists tr'. reflexivity.
Qed.

Lemma fetch_begins `{Browser} (r : Request) :
  exists rest, trace (fetch r) = Fetch r :: rest.
Proof.
  unfold fetch. cbn. destruct (fetch_outcome r); eexists; reflexivity.
Qed.

(** For a user id that is not blank, [getChats] begins with its request,
    and so does a refresh. *)
Lemma getChats_fetches `{Browser} (id : string) :
  Str.trim id <> "" ->
  exists rest,
    trace (getChats (VStr id)) =
    Fetch {| url := API_BASE_URL ++ "/api/chats/" ++ id; method := "GET";
             body := None |} :: rest.
Proof.
  intros Htrim. pose proof (trim_nonempty _ Htrim) as Hid.
  apply String.eqb_neq in Htrim.
  unfold getChats. cbn [truthy trim_method]. rewrite Hid.
  cbn [negb bind ret truthy toString]. rewrite Htrim. cbn [negb].
  match goal with |- context [try_catch (bind (fetch ?r) ?k) ?h] =>
    destruct (trace_try_catch_begins (bind (fetch r) k) h) as [r2 E2];
    destruct (trace_bind_begins (fetch r) k) as [r1 E1];
    destruct (fetch_begins r) as [r0 E0];
    rewrite E1, E0 in E2;
    destruct (try_catch (bind (fetch r) k) h) as [tr c]
  end.
  cbn in E2 |- *. subst tr. eexists. reflexivity.
Qed.

Lemma fetchChatsWithUserId_fetches `{Browser} (st : State) (id : string) :
  Str.trim id <> "" ->
  exists rest,
    trace (fetchChatsWithUserId st (VStr id)) =
    Fetch {| url := API_BASE_URL ++ "/api/chats/" ++ id; method := "GET";
             body := None |} :: rest.
Proof.
  intros Htrim. pose proof (trim_nonempty _ Htrim) as Hid.
  unfold fetchChatsWithUserId. cbn [truthy]. rewrite Hid. cbn [negb].
  match goal with |- context [try_catch (bind ?m ?k) ?h] =>
    destruct (trace_try_catch_begins (bind m k) h) as [r2 ->];
    destruct (trace_bind_begins m k) as [r1 ->]
  end.
  destruct (getChats_fetches id Htrim) as [r0 ->].
  cbn [app]. eexists. reflexivity.
Qed.



(** The effect on [user?.username] has no test of the photos: in a render
    that holds a user with a [user_id], it loads the chats. Whether the
    page comes to such a render for a user without photos, between
    [setUser] and the change of route, is for React and the router to
    say, not for the page. *)
Lemma userEffect_loads_the_chats `{Browser} (st : State) (id : string) :
  truthy (get_opt (user st) "username") = true ->
  get_opt (user st) "user_id" = VStr id -> Str.trim id <> "" ->
  exists rest,
    trace (userEffect st) =
    Fetch {| url := API_BASE_URL ++ "/api/chats/" ++ id; method := "GET";
             body := None |} :: rest.
Proof.
  intros Hname Hid Htrim.
  pose proof (trim_nonempty _ Htrim) as Hid'.
  assert (Ht : truthy (VStr id) = true) by (cbn; rewrite Hid'; reflexivity).
  assert (Hget : get (user st) "user_id" = VStr id).
  { unfold get_opt in Hid. destruct (nullish (user st)); [discriminate Hid | exact Hid]. }
  unfold userEffect, fetchChats. rewrite Hname, Hid, Ht. cbn [negb].
  unfold userId_of, or_else. rewrite Hget, Ht.
  unfold detach. cbn [trace fst].
  apply fetchChatsWithUserId_fetches. exact Htrim.
Qed.

(** ** The S3-key helpers *)

(** *** Strings *)

Lemma append_assoc (a b c : string) : (a ++ b) ++ c = a ++ (b ++ c).
Proof. induction a as [| x a IH]; simpl; [reflexivity | rewrite IH; reflexivity]. Qed.

Lemma has_app c a b : has c (a ++ b) = has c a || has c b.
Proof.
  induction a as [| x a IH]; simpl; [reflexivity | ].
  rewrite IH. apply orb_assoc.
Qed.

Lemma split_at_separator c a b :
  has c a = false -> Str.split c (a ++ String c b) = a :: Str.split c b.
Proof.
  induction a as [| x a IH]; simpl; intros Ha.
  - rewrite Ascii.eqb_refl. reflexivity.
  - apply orb_false_iff in Ha. destruct Ha as [Hx Ha].
    rewrite Hx, (IH Ha). reflexivity.
Qed.

Lemma break_at_separator c a b :
  has c a = false -> Uri.break_at c (a ++ String c b) = (a, Some b).
Proof.
  induction a as [| x a IH]; simpl; intros Ha.
  - rewrite Ascii.eqb_refl. reflexivity.
  - apply orb_false_iff in Ha. destruct Ha as [Hx Ha].
    rewrite Hx, (IH Ha). reflexivity.
Qed.

Lemma break_at_absent c a :
  has c a = false -> Uri.break_at c a = (a, None).
Proof.
  induction a as [| x a IH]; simpl; intros Ha.
  - reflexivity.
  - apply orb_false_iff in Ha. destruct Ha as [Hx Ha].
    rewrite Hx, (IH Ha). reflexivity.
Qed.

(** *** Escaping and unescaping *)

Lemma encode_with_app keep a b :
  Uri.encode_with keep (a ++ b) = Uri.encode_with keep a ++ Uri.encode_with keep b.
Proof.
  induction a as [| x a IH]; simpl; [reflexivity | ].
  rewrite IH, append_assoc. reflexivity.
Qed.

Ltac each_byte c :=
  destruct c as [[] [] [] [] [] [] [] []].

Lemma token_decodes c rest :
  Uri.percent_decode (Uri.plus_to_space (token c ++ rest))
  = String c (Uri.percent_decode (Uri.plus_to_space rest)).
Proof. each_byte c; reflexivity. Qed.

Lemma token_has_no c :
  has "&" (token c) = false /\ has "#" (token c) = false /\ has "?" (token c) = false.
Proof. each_byte c; repeat split. Qed.

Lemma tokens k :
  Uri.query_encode (Uri.encodeURIComponent k) =
  match k with
  | EmptyString => ""
  | String c r => token c ++ Uri.query_encode (Uri.encodeURIComponent r)
  end.
Proof.
  destruct k as [| c r]; [reflexivity | ].
  unfold token, Uri.query_encode, Uri.encodeURIComponent.
  rewrite <- encode_with_app. f_equal.
  simpl. rewrite append_assoc. reflexivity.
Qed.

Lemma escaped_decodes k :
  Uri.percent_decode (Uri.plus_to_space (Uri.query_encode (Uri.encodeURIComponent k))) = k.
Proof.
  induction k as [| c r IH]; [reflexivity | ].
  rewrite tokens, token_decodes, IH. reflexivity.
Qed.

Lemma escaped_has_no k :
  has "&" (Uri.query_encode (Uri.encodeURIComponent k)) = false.
Proof.
  induction k as [| c r IH]; [reflexivity | ].
  rewrite tokens, has_app, IH. destruct (token_has_no c) as (-> & _). reflexivity.
Qed.

Lemma component_has_no k :
  has "#" (Uri.encodeURIComponent k) = false /\ has "?" (Uri.encodeURIComponent k) = false.
Proof.
  induction k as [| c r [IH1 IH2]]; [split; reflexivity | ].
  change (String c r) with (String c "" ++ r).
  unfold Uri.encodeURIComponent in *. rewrite encode_with_app, !has_app, IH1, IH2.
  each_byte c; split; reflexivity.
Qed.

Lemma decode_plain fuel s :
  (String.length s < fuel)%nat -> has "%" s = false ->
  Uri.decode_fuel fuel s = Some s.
Proof.
  revert s. induction fuel as [| fuel IH]; intros s Hlen Hs; [lia | ].
  destruct s as [| c r]; [reflexivity | ].
  simpl in Hs, Hlen. apply orb_false_iff in Hs. destruct Hs as [Hc Hr].
  cbn [Uri.decode_fuel]. rewrite Hc, (IH r); [reflexivity | lia | exact Hr].
Qed.

Lemma decodeURIComponent_plain s :
  has "%" s = false -> Uri.decodeURIComponent s = Some s.
Proof. intros Hs. apply decode_plain; [lia | exact Hs]. Qed.

(** The [s3_key] parameter of a proxy URL is the key that went in. *)
Lemma searchParams_get_s3_key (u : URL) (key s3Url : string) :
  search u =
    "?s3_key=" ++ Uri.query_encode (Uri.encodeURIComponent key)
      ++ "&image_url=" ++ Uri.query_encode (Uri.encodeURIComponent s3Url) ->
  Uri.wellformed key = true ->
  Uri.searchParams_get u "s3_key" = Some key.
Proof.
  intros Hsearch Hkey. unfold Uri.searchParams_get, Uri.parse_query.
  rewrite Hsearch.
  set (X := Uri.query_encode (Uri.encodeURIComponent key)).
  set (Y := Uri.query_encode (Uri.encodeURIComponent s3Url)).
  replace (Uri.strip_question ("?s3_key=" ++ X ++ "&image_url=" ++ Y))
    with (("s3_key=" ++ X) ++ String "&" ("image_url=" ++ Y))
    by (rewrite append_assoc; reflexivity).
  rewrite split_at_separator
    by (rewrite has_app; unfold X; rewrite escaped_has_no; reflexivity).
  cbn [flat_map]. unfold Uri.parse_pair at 1.
  replace (("s3_key=" ++ X) =? "") with false by reflexivity.
  replace (Uri.break_at "=" ("s3_key=" ++ X)) with ("s3_key", Some X) by reflexivity.
  replace (Uri.form_decode "s3_key") with "s3_key" by (vm_compute; reflexivity).
  cbn [app find fst String.eqb Ascii.eqb Bool.eqb].
  unfold Uri.form_decode, X. rewrite escaped_decodes.
  apply String.eqb_eq in Hkey. unfold Uri.wellformed in *. rewrite Hkey. reflexivity.
Qed.

(** *** The helpers *)

Section Helpers.
Context `{Browser}.

Lemma getImageProxyUrl_of_key (s3Url username key : string) (u : URL) :
  s3Url <> "" -> username <> "" ->
  new_URL s3Url = Some u -> path_key (pathname u) = Some key ->
  getImageProxyUrl s3Url username = proxy_url username key s3Url.
Proof.
  intros Hs Hn Hu Hkey. apply String.eqb_neq in Hs, Hn.
  unfold getImageProxyUrl. rewrite Hs, Hn, Hu. cbn [orb].
  unfold path_key in Hkey. cbv zeta in *.
  destruct (negb _ && _); [ | discriminate Hkey].
  injection Hkey as <-. reflexivity.
Qed.

Lemma extractS3KeyFromUrl_of_path (photoUrl : string) (u : URL) :
  photoUrl <> "" -> new_URL photoUrl = Some u ->
  Uri.searchParams_get u "s3_key" = None \/ Uri.searchParams_get u "s3_key" = Some "" ->
  extractS3KeyFromUrl photoUrl = path_key (pathname u).
Proof.
  intros Hp Hu Hparam. apply String.eqb_neq in Hp.
  unfold extractS3KeyFromUrl. rewrite Hp, Hu.
  destruct Hparam as [-> | ->]; reflexivity.
Qed.

Lemma extractS3KeyFromUrl_of_param (photoUrl key : string) (u : URL) :
  photoUrl <> "" -> new_URL photoUrl = Some u ->
  Uri.searchParams_get u "s3_key" = Some key -> key <> "" ->
  extractS3KeyFromUrl photoUrl = Uri.decodeURIComponent key.
Proof.
  intros Hp Hu Hparam Hkey. apply String.eqb_neq in Hp.
  unfold extractS3KeyFromUrl. rewrite Hp, Hu, Hparam.
  destruct key; [contradiction Hkey; reflexivity | reflexivity].
Qed.

End Helpers.

(** C10, as the code has it. Take a URL that the browser parses, whose path
    has the segment [aura-ai-users] followed by a key that is not empty and
    has no [%] (a key is the UTF-8 form of a string), and that has no
    [s3_key] parameter of its own, or an empty one; and a user name that is
    not empty and has neither [?] nor [#]. Then [extractS3KeyFromUrl]
    returns that key for the URL and for its proxy URL alike, in every
    browser that reads the query of a proxy URL as the URL Standard says.
    And [extractS3KeyFromUrl] returns [null] for the empty string and for a
    string that the browser does not parse. *)
Theorem proxy_url_round_trip `{B : Browser} (s3Url username key : string) (u : URL) :
  (parses_proxy_urls B ->
   s3Url <> "" -> new_URL s3Url = Some u ->
   path_key (pathname u) = Some key ->
   key <> "" -> has "%" key = false -> Uri.wellformed key = true ->
   Uri.searchParams_get u "s3_key" = None \/ Uri.searchParams_get u "s3_key" = Some "" ->
   username <> "" -> has "?" username = false -> has "#" username = false ->
   extractS3KeyFromUrl (getImageProxyUrl s3Url username) = Some key
   /\ extractS3KeyFromUrl s3Url = Some key)
  /\
  (forall photoUrl,
     photoUrl = "" \/ new_URL photoUrl = None -> extractS3KeyFromUrl photoUrl = None).
Proof.
  split.
  - intros Hparser Hs Hu Hpath Hkey Hpercent Hwf Hparam Hn Hq Hf.
    split.
    + rewrite (getImageProxyUrl_of_key s3Url username key u Hs Hn Hu Hpath).
      destruct (Hparser username key s3Url Hq Hf) as (u' & Hu' & Hsearch).
      rewrite (extractS3KeyFromUrl_of_param (proxy_url username key s3Url) key u').
      * apply decodeURIComponent_plain. exact Hpercent.
      * discriminate.
      * exact Hu'.
      * apply (searchParams_get_s3_key u' key s3Url Hsearch Hwf).
      * exact Hkey.
    + rewrite (extractS3KeyFromUrl_of_path s3Url u Hs Hu Hparam). exact Hpath.
  - intros photoUrl [-> | Hnone]; unfold extractS3KeyFromUrl.
    + reflexivity.
    + rewrite Hnone. destruct (photoUrl =? ""); reflexivity.
Qed.

(** The reference parser reads proxy URLs as the results ask. *)
Lemma URL_parse_proxy_urls (stored : option string) (parsed : val)
    (net : Request -> FetchOutcome) :
  parses_proxy_urls (browser stored parsed net).
Proof.
  intros username s3Key s3Url Hq Hf. cbn [new_URL browser].
  unfold proxy_url, Uri.URL_parse.
  set (A := Uri.encodeURIComponent s3Key). set (Bq := Uri.encodeURIComponent s3Url).
  destruct (component_has_no s3Key) as [HA1 HA2].
  destruct (component_has_no s3Url) as [HB1 HB2]. fold A in HA1, HA2. fold Bq in HB1, HB2.
  rewrite break_at_absent
    by (rewrite !has_app, Hf, HA1, HB1; reflexivity).
  replace (API_BASE_URL ++ "/api/image-proxy/" ++ username
             ++ "?s3_key=" ++ A ++ "&image_url=" ++ Bq)
    with ((API_BASE_URL ++ "/api/image-proxy/" ++ username)
            ++ String "?" ("s3_key=" ++ A ++ "&image_url=" ++ Bq))
    by (rewrite !append_assoc; reflexivity).
  rewrite break_at_separator by (rewrite !has_app, Hq; reflexivity).
  cbn -[Uri.query_encode Uri.path_encode].
  eexists. split; [reflexivity | ].
  cbn [search]. unfold Uri.query_encode.
  change (String "s" (String "3" (String "_" (String "k" (String "e" (String "y"
            (String "=" (A ++ String "&" (String "i" (String "m" (String "a"
              (String "g" (String "e" (String "_" (String "u" (String "r"
                (String "l" (String "=" Bq))))))))))))))))))
    with ("s3_key=" ++ A ++ "&image_url=" ++ Bq).
  rewrite !encode_with_app. reflexivity.
Qed.

Lemma proxy_url_round_trip_witness :
  (extractS3KeyFromUrl (H := plain_browser)
     (getImageProxyUrl (H := plain_browser) signed_photo_url "alice")
   = Some "users/alice/profile/a.jpg"
   /\ extractS3KeyFromUrl (H := plain_browser) signed_photo_url
      = Some "users/alice/profile/a.jpg")
  /\ extractS3KeyFromUrl (H := plain_browser) "photo.jpg" = None.
Proof.
  split.
  - refine (proj1 (proxy_url_round_trip (B := plain_browser) signed_photo_url "alice"
                     "users/alice/profile/a.jpg"
                     {| pathname := "/aura-ai-users/users/alice/profile/a.jpg";
                        search := "?X-Amz-Expires=3600&X-Amz-Signature=abc" |})
                  (URL_parse_proxy_urls None VNull offline) _ _ _ _ _ _ _ _ _ _);
      try discriminate; try (vm_compute; reflexivity).
    left. vm_compute. reflexivity.
  - refine (proj2 (proxy_url_round_trip (B := plain_browser) "" "" ""
                     {| pathname := ""; search := "" |}) "photo.jpg" _).
    right. vm_compute. reflexivity.
Defined.

(** C10 as stated fails. The user name is written into the proxy URL as it
    is: with the user name [a#b] the query of the proxy URL is part of its
    fragment, and no key is found. And a URL that has an [s3_key]
    parameter of its own yields that parameter, not the key of its path,
    while its proxy URL yields the key of its path. *)
Lemma round_trip_fails_for_a_user_name_with_a_fragment :
  (path_key "/aura-ai-users/users/alice/profile/a.jpg" = Some "users/alice/profile/a.jpg"
   /\ new_URL (Browser := plain_browser) photo_url
      = Some {| pathname := "/aura-ai-users/users/alice/profile/a.jpg"; search := "" |}
   /\ extractS3KeyFromUrl (H := plain_browser) photo_url = Some "users/alice/profile/a.jpg"
   /\ extractS3KeyFromUrl (H := plain_browser)
        (getImageProxyUrl (H := plain_browser) photo_url "a#b") = None)
  /\
  (new_URL (Browser := plain_browser) (photo_url ++ "?s3_key=other")
   = Some {| pathname := "/aura-ai-users/users/alice/profile/a.jpg";
             search := "?s3_key=other" |}
   /\ extractS3KeyFromUrl (H := plain_browser) (photo_url ++ "?s3_key=other") = Some "other"
   /\ extractS3KeyFromUrl (H := plain_browser)
        (getImageProxyUrl (H := plain_browser) (photo_url ++ "?s3_key=other") "alice")
      = Some "users/alice/profile/a.jpg").
Proof. repeat split; vm_compute; reflexivity. Qed.

(** * The rest of the client and of the page

    What follows covers the functions that the statements above do not
    reach: the other functions of the API client, the remaining handlers of
    the chat page and the handlers of the speech recognition. *)

(** ** Strings *)

(** [trim] leaves a trimmed string as it is. The page trims the text
    before it hands it to [sendChatMessage], which trims it again. *)
Lemma rev_onto_app s acc : Str.rev_onto s acc = Str.rev s ++ acc.
Proof.
  unfold Str.rev. revert acc.
  induction s as [|c r IH]; intros acc; cbn [Str.rev_onto]; [reflexivity|].
  rewrite (IH (String c acc)), (IH (String c "")), append_assoc. reflexivity.
Qed.

Lemma rev_cons c s : Str.rev (String c s) = Str.rev s ++ String c "".
Proof. unfold Str.rev at 1. cbn [Str.rev_onto]. apply rev_onto_app. Qed.

Lemma append_nil_r s : s ++ "" = s.
Proof. induction s; cbn; congruence. Qed.

Lemma rev_app a b : Str.rev (a ++ b) = Str.rev b ++ Str.rev a.
Proof.
  induction a as [|c a IH]; cbn [append].
  - cbn. now rewrite append_nil_r.
  - now rewrite !rev_cons, IH, append_assoc.
Qed.

Lemma rev_rev s : Str.rev (Str.rev s) = s.
Proof.
  induction s as [|c s IH]; [reflexivity|].
  rewrite rev_cons, rev_app, IH. reflexivity.
Qed.

Lemma string_length_app a b : String.length (a ++ b) = String.length a + String.length b.
Proof. induction a; cbn; congruence. Qed.

Lemma string_length_rev s : String.length (Str.rev s) = String.length s.
Proof.
  induction s as [|c s IH]; [reflexivity|].
  rewrite rev_cons, string_length_app, IH. cbn. lia.
Qed.

Lemma prefix_split t s : prefix t s = true -> s = t ++ Str.drop (String.length t) s.
Proof.
  revert s; induction t as [|c t IH]; intros s Hs; [reflexivity|].
  destruct s as [|d s]; [discriminate|]. cbn in Hs.
  destruct (ascii_dec c d) as [->|]; [|discriminate].
  cbn. f_equal. auto.
Qed.

Lemma prefix_app t a q : prefix t a = true -> prefix t (a ++ q) = true.
Proof.
  revert a; induction t as [|c t IH]; intros a Ha; [now destruct (a ++ q)|].
  destruct a as [|d a]; [discriminate|]. cbn in *.
  destruct (ascii_dec c d); [auto|discriminate].
Qed.

Lemma strip_one_suffix tokens s s' :
  Str.strip_one tokens s = Some s' -> exists t, In t tokens /\ s = t ++ s'.
Proof.
  induction tokens as [|t ts IH]; [discriminate|]. cbn.
  destruct (prefix t s) eqn:Ht.
  - intros [= <-]. exists t. split; [now left|]. now apply prefix_split.
  - intros Hs. destruct (IH Hs) as (t' & ? & ?). exists t'. split; [now right|assumption].
Qed.

Lemma strip_one_app tokens a q :
  Str.strip_one tokens (a ++ q) = None -> Str.strip_one tokens a = None.
Proof.
  induction tokens as [|t ts IH]; [reflexivity|]. cbn.
  destruct (prefix t a) eqn:Ht.
  - now rewrite (prefix_app _ _ q Ht).
  - destruct (prefix t (a ++ q)); [discriminate|auto].
Qed.

Lemma strip_all_suffix tokens fuel s :
  exists p, s = p ++ Str.strip_all tokens fuel s.
Proof.
  revert s; induction fuel as [|n IH]; intros s; [now exists ""|].
  cbn. destruct (Str.strip_one tokens s) as [s'|] eqn:Hs; [|now exists ""].
  destruct (strip_one_suffix _ _ _ Hs) as (t & _ & ->).
  destruct (IH s') as [p Hp]. exists (t ++ p).
  rewrite append_assoc. now rewrite <- Hp.
Qed.

Lemma strip_all_done tokens fuel s :
  Str.strip_one tokens s = None -> Str.strip_all tokens fuel s = s.
Proof. destruct fuel; [reflexivity|]. cbn. now intros ->. Qed.

Lemma strip_all_stops tokens fuel s :
  Forall (fun t => t <> "") tokens -> String.length s <= fuel ->
  Str.strip_one tokens (Str.strip_all tokens fuel s) = None.
Proof.
  intros Htok. revert s; induction fuel as [|n IH]; intros s Hlen.
  - destruct s; [|cbn in Hlen; lia]. cbn.
    induction Htok as [|t ts Ht _ IHt]; [reflexivity|]. cbn.
    destruct t; [congruence|exact IHt].
  - cbn. destruct (Str.strip_one tokens s) as [s'|] eqn:Hs; [|assumption].
    apply IH. destruct (strip_one_suffix _ _ _ Hs) as (t & Hin & ->).
    rewrite Forall_forall in Htok. specialize (Htok t Hin).
    rewrite string_length_app in Hlen. destruct t; [congruence|]. cbn in Hlen. lia.
Qed.

Lemma whitespace_tokens : Forall (fun t => t <> "") Str.whitespace.
Proof. repeat constructor; discriminate. Qed.

Lemma whitespace_tokens_rev : Forall (fun t => t <> "") (map Str.rev Str.whitespace).
Proof. repeat constructor; discriminate. Qed.

Lemma trimStart_stops s : Str.strip_one Str.whitespace (Str.trimStart s) = None.
Proof. apply strip_all_stops; [apply whitespace_tokens|]. lia. Qed.

Lemma trimEnd_prefix s : exists q, s = Str.trimEnd s ++ q.
Proof.
  unfold Str.trimEnd.
  destruct (strip_all_suffix (map Str.rev Str.whitespace) (String.length s) (Str.rev s)) as [p Hp].
  exists (Str.rev p). rewrite <- rev_app, <- Hp. symmetry; apply rev_rev.
Qed.

Lemma trim_trim s : Str.trim (Str.trim s) = Str.trim s.
Proof.
  unfold Str.trim at 1 2.
  assert (Hstart : Str.strip_one Str.whitespace (Str.trim s) = None).
  { unfold Str.trim. destruct (trimEnd_prefix (Str.trimStart s)) as [q Hq].
    apply strip_one_app with (q := q). rewrite <- Hq. apply trimStart_stops. }
  unfold Str.trimStart at 1. rewrite (strip_all_done _ _ _ Hstart).
  unfold Str.trimEnd at 1.
  rewrite strip_all_done; [apply rev_rev|].
  unfold Str.trim, Str.trimEnd. rewrite rev_rev.
  apply strip_all_stops; [apply whitespace_tokens_rev|].
  rewrite string_length_rev. lia.
Qed.

(** ** The arguments of the client *)

Lemma given_not_empty s : given s -> (s =? "") = false.
Proof. intros Hs. apply String.eqb_neq. intros ->. apply Hs. reflexivity. Qed.

Lemma given_trim s : Str.trim s <> "" -> given (Str.trim s).
Proof. unfold given. rewrite trim_trim. trivial. Qed.

Lemma bind_ret {A B} (a : A) (f : A -> M B) : bind (ret a) f = f a.
Proof. unfold bind, ret. destruct (f a). reflexivity. Qed.

Lemma bind_throw {A B} (t : thrown) (f : A -> M B) : bind (throw t) f = throw t.
Proof. reflexivity. Qed.

Section Arguments.
Context `{Browser}.

Lemma blank_argument_missing v : missing v -> blank_argument v = ret true.
Proof.
  unfold blank_argument. intros [-> | (s & -> & Hs)]; [reflexivity | ].
  cbn [truthy trim_method]. destruct (s =? ""); [reflexivity | ].
  cbn [negb bind ret truthy]. rewrite Hs. reflexivity.
Qed.

Lemma blank_argument_given s : given s -> blank_argument (VStr s) = ret false.
Proof.
  intros Hs. unfold blank_argument. cbn [truthy trim_method].
  rewrite (given_not_empty _ Hs). apply String.eqb_neq in Hs.
  cbn [negb bind ret truthy]. rewrite Hs. reflexivity.
Qed.

(** The same, in the form the test has in [getChats] and
    [sendChatMessage]. *)
Lemma validated s :
  given s ->
  (if negb (truthy (VStr s)) then ret true
   else t <- trim_method (VStr s) ;; ret (negb (truthy t))) = ret false.
Proof. exact (blank_argument_given s). Qed.

Lemma blank_argument_not_a_string v :
  truthy v = true -> (forall s, v <> VStr s) ->
  blank_argument v = throw (TypeError "trim is not a function").
Proof.
  unfold blank_argument. intros Hv Hs. rewrite Hv.
  destruct v; try discriminate Hv; try reflexivity. now destruct (Hs s).
Qed.

Lemma blank_argument_cases v :
  blank_argument v = ret true
  \/ (exists s, v = VStr s /\ blank_argument v = ret false)
  \/ exists text, blank_argument v = throw (TypeError text).
Proof.
  assert (T : forall text (k : val -> M bool),
             exists text', bind (@throw val (TypeError text)) k = throw (TypeError text'))
    by (intros; eexists; reflexivity).
  unfold blank_argument.
  destruct v as [ | | [] | n | s | | ]; cbn [truthy negb trim_method]; auto.
  - destruct (n =? 0)%Z; cbn [negb]; auto.
  - destruct (s =? ""); cbn [negb bind ret]; auto.
    destruct (truthy (VStr (Str.trim s))); eauto.
Qed.

Lemma performs_blank_argument P v : performs P (blank_argument v).
Proof.
  unfold blank_argument. destruct (truthy v); cbn [negb]; [ | constructor].
  destruct v; constructor.
Qed.

Lemma throws_errors_blank_argument v : throws_errors (blank_argument v).
Proof.
  unfold blank_argument. destruct (truthy v); cbn [negb]; [ | intros ? [=]].
  destruct v; intros t [=]; subst; reflexivity.
Qed.

End Arguments.

#[local] Hint Resolve performs_blank_argument throws_errors_blank_argument
  performs_fetch performs_json : js.

(** The functions of the client, with their tests unfolded. *)
Ltac client :=
  unfold login, getUploadUrl, getImageUrl, deletePhoto, likeImage, getChats,
    sendChatMessage, createChat, blank_argument.

(** Case analysis on what the network and the server did. *)
Ltac by_outcome :=
  repeat (match goal with
          | |- context [fetch_outcome ?r] => destruct (fetch_outcome r) as [[] | ?]
          | |- context [ok ?r] => destruct (ok r)
          | |- context [json_body ?r] => destruct (json_body r) as [? | []]
          | |- context [nullish ?v] => destruct (nullish v)
          | |- context [truthy ?v] => destruct (truthy v)
          end; cbn [bind ret throw try_catch negb fst snd app trace outcome
                    instanceof_Error Error TypeError]).

(** The requests of a call, whatever becomes of them. *)
Ltac requests_of :=
  unfold fetch, json_or_empty, json, prop;
  cbn [bind ret emit throw try_catch negb fst snd app trace outcome];
  by_outcome; reflexivity.

(** A call that the server answered: [Hnet] is the answer, [Hok] its
    status and [Hbody] its body. *)
Ltac answered Hnet Hok Hbody :=
  unfold fetch, json_or_empty, json, prop;
  cbn [bind ret emit throw try_catch negb fst snd app trace outcome trim_method toString
       truthy];
  rewrite ?Hnet;
  cbn [bind ret emit throw try_catch negb fst snd app trace outcome];
  rewrite ?Hok;
  cbn [bind ret emit throw try_catch negb fst snd app trace outcome];
  rewrite ?Hbody;
  cbn [bind ret emit throw try_catch negb fst snd app trace outcome nullish get
       instanceof_Error Error TypeError].

(** ** Validation in the other functions of the client *)

(** X1. [login], [getUploadUrl], [getImageUrl], [deletePhoto] and
    [likeImage] reject a missing argument (a falsy value, or a string that
    is empty once trimmed) with the message that names it, and send
    nothing. The tests run in the order of the parameters: the user name
    is tested first, whatever the other arguments are. *)
Theorem missing_arguments_are_rejected `{Browser} (x a b : val) (username fileName : string) :
  missing x -> given username -> given fileName ->
  login x = ([], Throw (Error "Username is required"))
  /\ getUploadUrl x a b = ([], Throw (Error "Username is required"))
  /\ getUploadUrl (VStr username) x b = ([], Throw (Error "File name is required"))
  /\ getUploadUrl (VStr username) (VStr fileName) x
     = ([], Throw (Error "File type is required"))
  /\ getImageUrl x a = ([], Throw (Error "Username is required"))
  /\ deletePhoto x a = ([], Throw (Error "Username is required"))
  /\ deletePhoto (VStr username) x = ([], Throw (Error "S3 key is required"))
  /\ likeImage x a = ([], Throw (Error "Username is required"))
  /\ likeImage (VStr username) x = ([], Throw (Error "Image ID is required")).
Proof.
  intros Hx Hn Hf.
  unfold login, getUploadUrl, getImageUrl, deletePhoto, likeImage.
  rewrite (blank_argument_missing x Hx), !(blank_argument_given _ Hn),
    (blank_argument_given _ Hf).
  repeat split.
Qed.

Lemma missing_arguments_are_rejected_witness :
  login (H := plain_browser) (VStr "   ") = ([], Throw (Error "Username is required"))
  /\ likeImage (H := plain_browser) (VStr "alice") (VStr "   ")
     = ([], Throw (Error "Image ID is required")).
Proof.
  refine ((fun T => conj (proj1 T)
                      (proj2 (proj2 (proj2 (proj2 (proj2 (proj2 (proj2 (proj2 T)))))))))
            (missing_arguments_are_rejected (H := plain_browser)
               (VStr "   ") VUndef VUndef "alice" "a.jpg" _ _ _)).
  - right. exists "   ". split; reflexivity.
  - vm_compute. discriminate.
  - vm_compute. discriminate.
Defined.

(** X2. An argument that is truthy and not a string (a number, for a
    product id) has no [trim]: the call rejects with a [TypeError] (its
    text is the engine's), not with the [Error] of the test and its
    message, and it sends nothing. *)
Theorem an_argument_that_is_no_string_is_a_type_error `{Browser} (v a b : val)
    (username : string) :
  truthy v = true -> (forall s, v <> VStr s) -> given username ->
  type_error_without_request (login v)
  /\ type_error_without_request (getUploadUrl v a b)
  /\ type_error_without_request (getImageUrl v a)
  /\ type_error_without_request (deletePhoto v a)
  /\ type_error_without_request (deletePhoto (VStr username) v)
  /\ type_error_without_request (likeImage v a)
  /\ type_error_without_request (likeImage (VStr username) v)
  /\ type_error_without_request (getChats v).
Proof.
  intros Hv Hs Hn.
  pose proof (blank_argument_not_a_string v Hv Hs) as E. unfold blank_argument in E.
  unfold type_error_without_request, throws_a_type_error.
  repeat split; try (eexists; client; rewrite ?(validated _ Hn), E; reflexivity);
    client; rewrite ?(validated _ Hn), E; reflexivity.
Qed.

Lemma an_argument_that_is_no_string_is_a_type_error_witness :
  type_error_without_request (likeImage (H := shop) (VStr "alice") (VNum 42)).
Proof.
  refine (proj1 (proj2 (proj2 (proj2 (proj2 (proj2 (proj2
            (an_argument_that_is_no_string_is_a_type_error (H := shop)
               (VNum 42) VUndef VUndef "alice" _ _ _)))))))).
  - reflexivity.
  - discriminate.
  - vm_compute. discriminate.
Defined.

(** ** The requests of the other functions *)

Lemma serialize_upload f t :
  Form.serialize [("file_name", f); ("file_type", t)]
  = "file_name=" ++ Form.encode f ++ "&file_type=" ++ Form.encode t.
Proof.
  unfold Form.serialize. cbn [map fst snd Str.join].
  change (Form.encode "file_name") with "file_name".
  change (Form.encode "file_type") with "file_type".
  rewrite !append_assoc. reflexivity.
Qed.

Lemma serialize_key k :
  Form.serialize [("s3_key", k)] = "s3_key=" ++ Form.encode k.
Proof. reflexivity. Qed.

Lemma getImageUrl_request `{Browser} (username : string) (s3Key : val) :
  given username ->
  trace (getImageUrl (VStr username) s3Key) =
    [Fetch (api "GET"
              ("/api/image-url/" ++ username
                 ++ (if truthy s3Key then "?s3_key=" ++ Form.encode (toString s3Key) else ""))
              None)].
Proof.
  intros Hn. unfold api. client. rewrite (validated _ Hn). cbn [bind ret toString].
  assert (E : truthy match s3Key with VUndef => VNull | _ => s3Key end = truthy s3Key)
    by (destruct s3Key; reflexivity).
  assert (E' : truthy s3Key = true -> match s3Key with VUndef => VNull | _ => s3Key end = s3Key)
    by (destruct s3Key; intros; try reflexivity; discriminate).
  rewrite E. destruct (truthy s3Key).
  - rewrite (E' eq_refl), serialize_key. requests_of.
  - rewrite append_nil_r. requests_of.
Qed.

(** X3. A call of [login], [getUploadUrl], [deletePhoto] or [likeImage]
    whose arguments pass the tests sends exactly one request, whatever the
    network and the server do with it. [login] posts the trimmed user
    name; the other functions write their arguments into the path as they
    are, blanks and slashes included, and [getUploadUrl] escapes the file
    name and the file type in the query. *)
Theorem valid_calls_send_one_request `{Browser}
    (username fileName fileType s3Key imageId : string) :
  given username -> given fileName -> given fileType -> given s3Key -> given imageId ->
  trace (login (VStr username)) =
    [Fetch (api "POST" "/api/login" (Some (VObj [("username", VStr (Str.trim username))])))]
  /\ trace (getUploadUrl (VStr username) (VStr fileName) (VStr fileType)) =
       [Fetch (api "GET" ("/api/upload-url/" ++ username
                            ++ "?file_name=" ++ Form.encode fileName
                            ++ "&file_type=" ++ Form.encode fileType) None)]
  /\ trace (deletePhoto (VStr username) (VStr s3Key)) =
       [Fetch (api "DELETE" ("/api/image/" ++ username ++ "/" ++ s3Key) None)]
  /\ trace (likeImage (VStr username) (VStr imageId)) =
       [Fetch (api "POST" ("/api/like/" ++ username ++ "/" ++ imageId) None)].
Proof.
  intros Hn Hf Ht Hk Hi. unfold api.
  split; [ | split; [ | split]]; client.
  - rewrite (validated _ Hn). cbn [bind ret trim_method]. requests_of.
  - rewrite (validated _ Hn), (validated _ Hf), (validated _ Ht).
    cbn [bind ret toString]. rewrite serialize_upload. requests_of.
  - rewrite (validated _ Hn), (validated _ Hk). cbn [bind ret toString]. requests_of.
  - rewrite (validated _ Hn), (validated _ Hi). cbn [bind ret toString]. requests_of.
Qed.

Lemma valid_calls_send_one_request_witness :
  trace (login (H := plain_browser) (VStr " alice ")) =
    [Fetch (api "POST" "/api/login" (Some (VObj [("username", VStr "alice")])))]
  /\ trace (deletePhoto (H := plain_browser) (VStr " alice ") (VStr "users/alice/a.jpg")) =
    [Fetch (api "DELETE" "/api/image/ alice /users/alice/a.jpg" None)].
Proof.
  refine ((fun T => conj (proj1 T) (proj1 (proj2 (proj2 T))))
            (valid_calls_send_one_request (H := plain_browser)
               " alice " "a.jpg" "image/jpeg" "users/alice/a.jpg" "p1" _ _ _ _ _));
    vm_compute; discriminate.
Defined.

(** X4. [getImageUrl] sends one request: to [/api/image-url/<username>]
    when the key is missing or falsy, and with the query [?s3_key=<key>],
    the key escaped as a form, when there is a key. The key is not
    trimmed and not tested otherwise. *)
Theorem getImageUrl_names_the_key_when_there_is_one `{Browser} (username : string)
    (s3Key : val) :
  given username ->
  trace (getImageUrl (VStr username) s3Key) =
    [Fetch (api "GET"
              ("/api/image-url/" ++ username
                 ++ (if truthy s3Key then "?s3_key=" ++ Form.encode (toString s3Key) else ""))
              None)].
Proof.
  intros Hn. unfold api. client. rewrite (validated _ Hn). cbn [bind ret toString].
  assert (E : truthy match s3Key with VUndef => VNull | _ => s3Key end = truthy s3Key)
    by (destruct s3Key; reflexivity).
  destruct (truthy s3Key) eqn:Hk; rewrite E.
  - replace (match s3Key with VUndef => VNull | _ => s3Key end) with s3Key
      by (destruct s3Key; try reflexivity; discriminate Hk).
    rewrite serialize_key. requests_of.
  - rewrite append_nil_r. requests_of.
Qed.

Lemma getImageUrl_names_the_key_when_there_is_one_witness :
  trace (getImageUrl (H := plain_browser) (VStr "alice") (VStr "users/alice/a b.jpg")) =
    [Fetch (api "GET" "/api/image-url/alice?s3_key=users%2Falice%2Fa+b.jpg" None)]
  /\ trace (getImageUrl (H := plain_browser) (VStr "alice") VUndef) =
    [Fetch (api "GET" "/api/image-url/alice" None)].
Proof.
  split.
  - refine (getImageUrl_names_the_key_when_there_is_one (H := plain_browser)
              "alice" (VStr "users/alice/a b.jpg") _).
    vm_compute. discriminate.
  - refine (getImageUrl_names_the_key_when_there_is_one (H := plain_browser)
              "alice" VUndef _).
    vm_compute. discriminate.
Defined.

(** *** The queries *)

Lemma form_token_decodes c rest :
  Uri.percent_decode (Uri.plus_to_space (form_token c ++ rest))
  = String c (Uri.percent_decode (Uri.plus_to_space rest)).
Proof. each_byte c; reflexivity. Qed.

Lemma form_token_has_no c :
  has "&" (form_token c) = false /\ has "=" (form_token c) = false.
Proof. each_byte c; split; reflexivity. Qed.

Lemma form_token_stays c : Uri.query_encode (form_token c) = form_token c.
Proof. each_byte c; reflexivity. Qed.

Lemma form_decodes k : Uri.percent_decode (Uri.plus_to_space (Form.encode k)) = k.
Proof.
  induction k as [| c r IH]; [reflexivity | ].
  change (Form.encode (String c r)) with (form_token c ++ Form.encode r).
  rewrite form_token_decodes, IH. reflexivity.
Qed.

Lemma form_has_no k :
  has "&" (Form.encode k) = false /\ has "=" (Form.encode k) = false.
Proof.
  induction k as [| c r [IH1 IH2]]; [split; reflexivity | ].
  change (Form.encode (String c r)) with (form_token c ++ Form.encode r).
  rewrite !has_app, IH1, IH2. destruct (form_token_has_no c) as [-> ->]. split; reflexivity.
Qed.

(** The parser of the URL leaves an escaped form as it is. *)
Lemma form_stays k : Uri.query_encode (Form.encode k) = Form.encode k.
Proof.
  induction k as [| c r IH]; [reflexivity | ].
  change (Form.encode (String c r)) with (form_token c ++ Form.encode r).
  unfold Uri.query_encode in *. rewrite encode_with_app, IH.
  f_equal. apply form_token_stays.
Qed.

Lemma split_absent c a : has c a = false -> Str.split c a = [a].
Proof.
  induction a as [| x a IH]; simpl; intros Ha; [reflexivity | ].
  apply orb_false_iff in Ha. destruct Ha as [Hx Ha].
  rewrite Hx, (IH Ha). reflexivity.
Qed.

Lemma parse_pair_encoded (name value : string) :
  has "=" name = false -> name <> "" ->
  Uri.form_decode name = name -> Uri.wellformed value = true ->
  Uri.parse_pair (name ++ "=" ++ Form.encode value) = [(name, value)].
Proof.
  intros Hname Hne Hdec Hwf. unfold Uri.parse_pair.
  destruct name as [| c name]; [contradiction Hne; reflexivity | ].
  cbn [append String.eqb].
  change (String c (name ++ String "=" (Form.encode value)))
    with (String c name ++ String "=" (Form.encode value)).
  rewrite break_at_separator by exact Hname.
  rewrite Hdec. unfold Uri.form_decode. rewrite form_decodes.
  apply String.eqb_eq in Hwf. unfold Uri.wellformed in Hwf. rewrite Hwf. reflexivity.
Qed.

(** X5. The queries that [getUploadUrl] and [getImageUrl] write read back
    as what went in: the parser of the URL leaves the query as it is, and
    the form parser finds in it the file name and the file type, or the
    key, byte for byte (for strings in UTF-8), whatever characters they
    hold. *)
Theorem the_queries_read_back `{Browser} (username fileName fileType s3Key : string) :
  given username -> given fileName -> given fileType -> s3Key <> "" ->
  Uri.wellformed fileName = true -> Uri.wellformed fileType = true ->
  Uri.wellformed s3Key = true ->
  (exists query,
     trace (getUploadUrl (VStr username) (VStr fileName) (VStr fileType)) =
       [Fetch (api "GET" ("/api/upload-url/" ++ username ++ "?" ++ query) None)]
     /\ Uri.query_encode query = query
     /\ Uri.parse_query query = [("file_name", fileName); ("file_type", fileType)])
  /\
  (exists query,
     trace (getImageUrl (VStr username) (VStr s3Key)) =
       [Fetch (api "GET" ("/api/image-url/" ++ username ++ "?" ++ query) None)]
     /\ Uri.query_encode query = query
     /\ Uri.parse_query query = [("s3_key", s3Key)]).
Proof.
  intros Hn Hf Ht Hk Wf Wt Wk. split.
  - exists ("file_name=" ++ Form.encode fileName ++ "&file_type=" ++ Form.encode fileType).
    split; [ | split].
    + unfold api. client. rewrite (validated _ Hn), (validated _ Hf), (validated _ Ht).
      cbn [bind ret toString]. rewrite serialize_upload. requests_of.
    + unfold Uri.query_encode. rewrite !encode_with_app.
      fold Uri.query_encode. rewrite !form_stays. reflexivity.
    + unfold Uri.parse_query.
      replace ("file_name=" ++ Form.encode fileName ++ "&file_type=" ++ Form.encode fileType)
        with (("file_name=" ++ Form.encode fileName)
                ++ String "&" ("file_type=" ++ Form.encode fileType))
        by (rewrite !append_assoc; reflexivity).
      rewrite split_at_separator
        by (rewrite has_app; destruct (form_has_no fileName) as [-> _]; reflexivity).
      rewrite split_absent
        by (rewrite has_app; destruct (form_has_no fileType) as [-> _]; reflexivity).
      cbn [flat_map].
      change ("file_name=" ++ Form.encode fileName)
        with ("file_name" ++ "=" ++ Form.encode fileName).
      change ("file_type=" ++ Form.encode fileType)
        with ("file_type" ++ "=" ++ Form.encode fileType).
      rewrite (parse_pair_encoded "file_name" fileName), (parse_pair_encoded "file_type" fileType);
        try reflexivity; try discriminate; assumption.
  - exists ("s3_key=" ++ Form.encode s3Key).
    split; [ | split].
    + pose proof (getImageUrl_request username (VStr s3Key) Hn) as E.
      apply String.eqb_neq in Hk. cbn [truthy toString] in E. rewrite Hk in E. exact E.
    + unfold Uri.query_encode. rewrite !encode_with_app.
      fold Uri.query_encode. rewrite !form_stays. reflexivity.
    + unfold Uri.parse_query.
      rewrite split_absent
        by (rewrite has_app; destruct (form_has_no s3Key) as [-> _]; reflexivity).
      cbn [flat_map].
      change ("s3_key=" ++ Form.encode s3Key) with ("s3_key" ++ "=" ++ Form.encode s3Key).
      rewrite (parse_pair_encoded "s3_key" s3Key); try reflexivity; try discriminate; assumption.
Qed.

Lemma the_queries_read_back_witness :
  (exists query,
     trace (getUploadUrl (H := plain_browser) (VStr "alice") (VStr "a&b = c.jpg")
              (VStr "image/jpeg")) =
       [Fetch (api "GET" ("/api/upload-url/" ++ "alice" ++ "?" ++ query) None)]
     /\ Uri.query_encode query = query
     /\ Uri.parse_query query = [("file_name", "a&b = c.jpg"); ("file_type", "image/jpeg")])
  /\
  (exists query,
     trace (getImageUrl (H := plain_browser) (VStr "alice") (VStr "users/alice/a b.jpg")) =
       [Fetch (api "GET" ("/api/image-url/" ++ "alice" ++ "?" ++ query) None)]
     /\ Uri.query_encode query = query
     /\ Uri.parse_query query = [("s3_key", "users/alice/a b.jpg")]).
Proof.
  refine (the_queries_read_back (H := plain_browser)
            "alice" "a&b = c.jpg" "image/jpeg" "users/alice/a b.jpg" _ _ _ _ _ _ _);
    vm_compute; try reflexivity; discriminate.
Defined.

(** ** What the client makes of the answer *)

(** X6. When the server refuses a request with a JSON object that has a
    [detail] text, [getUploadUrl], [getImageUrl], [deletePhoto],
    [getChats] and [sendChatMessage] reject with an [Error] whose message
    is that text, whatever else the object holds. *)
Theorem refusal_detail_is_reported `{Browser} (r : Response) (errorData : list (string * val))
    (detail username fileName fileType s3Key user_id message : string) (threadId : val) :
  (forall req, fetch_outcome req = Responds r) -> ok r = false ->
  json_body r = Normal (VObj errorData) ->
  lookup "detail" errorData = VStr detail -> detail <> "" ->
  given username -> given fileName -> given fileType -> given s3Key ->
  given user_id -> given message ->
  outcome (getUploadUrl (VStr username) (VStr fileName) (VStr fileType))
    = Throw (Error detail)
  /\ outcome (getImageUrl (VStr username) (VStr s3Key)) = Throw (Error detail)
  /\ outcome (deletePhoto (VStr username) (VStr s3Key)) = Throw (Error detail)
  /\ outcome (getChats (VStr user_id)) = Throw (Error detail)
  /\ outcome (sendChatMessage (VStr message) (VStr user_id) threadId) = Throw (Error detail).
Proof.
  intros Hnet Hok Hbody Hdetail Hd Hn Hf Ht Hk Hu Hm.
  pose proof (given_not_empty _ Hu) as Hu'. apply String.eqb_neq in Hd.
  repeat split; client;
    rewrite ?(validated _ Hn), ?(validated _ Hf), ?(validated _ Ht), ?(validated _ Hk),
      ?(validated _ Hu), ?(validated _ Hm);
    answered Hnet Hok Hbody; rewrite ?Hu'; answered Hnet Hok Hbody;
    rewrite Hdetail; unfold or_else; cbn [truthy]; rewrite Hd; reflexivity.
Qed.

Lemma refusal_detail_is_reported_witness :
  outcome (deletePhoto (H := browser_of not_found) (VStr "alice") (VStr "users/alice/a.jpg"))
  = Throw (Error "User not found").
Proof.
  refine (proj1 (proj2 (proj2
            (refusal_detail_is_reported (H := browser_of not_found) not_found
               [("detail", VStr "User not found")] "User not found"
               "alice" "a.jpg" "image/jpeg" "users/alice/a.jpg" "user_alice" "hi" VNull
               _ _ _ _ _ _ _ _ _ _ _))));
    try (intros; reflexivity); try discriminate; vm_compute; discriminate.
Defined.

(** X7. [login], [likeImage] and [createChat] look at [message] only:
    when the server refuses with an object that has no [message], they
    reject with their own text followed by the status text, and the
    [detail] of the server, if there is one, is lost. *)
Theorem refusal_detail_is_dropped `{Browser} (r : Response) (errorData : list (string * val))
    (username imageId : string) (chatData : val) :
  (forall req, fetch_outcome req = Responds r) -> ok r = false ->
  json_body r = Normal (VObj errorData) ->
  truthy (lookup "message" errorData) = false ->
  given username -> given imageId -> truthy (get chatData "user_id") = true ->
  outcome (login (VStr username)) = Throw (Error ("Login failed: " ++ statusText r))
  /\ outcome (likeImage (VStr username) (VStr imageId))
     = Throw (Error ("Like failed: " ++ statusText r))
  /\ outcome (createChat chatData)
     = Throw (Error ("Failed to create chat: " ++ statusText r)).
Proof.
  intros Hnet Hok Hbody Hmessage Hn Hi Hc.
  assert (Hc' : truthy chatData = true)
    by (destruct chatData; try discriminate Hc; reflexivity).
  repeat split; client;
    rewrite ?(validated _ Hn), ?(validated _ Hi), ?Hc, ?Hc';
    answered Hnet Hok Hbody;
    unfold or_else; rewrite Hmessage; reflexivity.
Qed.

Lemma refusal_detail_is_dropped_witness :
  outcome (login (H := browser_of not_found) (VStr "alice"))
  = Throw (Error "Login failed: Not Found").
Proof.
  refine (proj1
            (refusal_detail_is_dropped (H := browser_of not_found) not_found
               [("detail", VStr "User not found")] "alice" "p1"
               (VObj [("user_id", VStr "user_alice")]) _ _ _ _ _ _ _));
    try (intros; reflexivity); vm_compute; discriminate.
Defined.

(** X8. When the body of a refusal is not JSON, every function of the
    client rejects with its own text followed by the status text of the
    response. *)
Theorem unreadable_refusal_gives_the_status_text `{Browser} (r : Response) (t : thrown)
    (username fileName fileType s3Key imageId user_id message : string)
    (threadId chatData : val) :
  (forall req, fetch_outcome req = Responds r) -> ok r = false ->
  json_body r = Throw t ->
  given username -> given fileName -> given fileType -> given s3Key -> given imageId ->
  given user_id -> given message -> truthy (get chatData "user_id") = true ->
  outcome (login (VStr username)) = Throw (Error ("Login failed: " ++ statusText r))
  /\ outcome (getUploadUrl (VStr username) (VStr fileName) (VStr fileType))
     = Throw (Error ("Failed to get upload URL: " ++ statusText r))
  /\ outcome (getImageUrl (VStr username) (VStr s3Key))
     = Throw (Error ("Failed to get image URL: " ++ statusText r))
  /\ outcome (deletePhoto (VStr username) (VStr s3Key))
     = Throw (Error ("Failed to delete photo: " ++ statusText r))
  /\ outcome (likeImage (VStr username) (VStr imageId))
     = Throw (Error ("Like failed: " ++ statusText r))
  /\ outcome (createChat chatData)
     = Throw (Error ("Failed to create chat: " ++ statusText r))
  /\ outcome (getChats (VStr user_id))
     = Throw (Error ("Failed to fetch chats: " ++ statusText r))
  /\ outcome (sendChatMessage (VStr message) (VStr user_id) threadId)
     = Throw (Error ("Failed to send message: " ++ statusText r)).
Proof.
  intros Hnet Hok Hbody Hn Hf Ht Hk Hi Hu Hm Hc.
  assert (Hc' : truthy chatData = true)
    by (destruct chatData; try discriminate Hc; reflexivity).
  pose proof (given_not_empty _ Hu) as Hu'.
  repeat split; client;
    rewrite ?(validated _ Hn), ?(validated _ Hf), ?(validated _ Ht), ?(validated _ Hk),
      ?(validated _ Hi), ?(validated _ Hu), ?(validated _ Hm), ?Hc, ?Hc';
    answered Hnet Hok Hbody; rewrite ?Hu'; answered Hnet Hok Hbody; reflexivity.
Qed.

Lemma unreadable_refusal_gives_the_status_text_witness :
  outcome (getChats (H := browser_of bad_gateway) (VStr "user_alice"))
  = Throw (Error "Failed to fetch chats: Bad Gateway").
Proof.
  refine (proj1 (proj2 (proj2 (proj2 (proj2 (proj2 (proj2
            (unreadable_refusal_gives_the_status_text (H := browser_of bad_gateway)
               bad_gateway (ErrorObj "SyntaxError" "Unexpected token < in JSON at position 0")
               "alice" "a.jpg" "image/jpeg" "users/alice/a.jpg" "p1" "user_alice" "hi"
               VNull (VObj [("user_id", VStr "user_alice")])
               _ _ _ _ _ _ _ _ _ _ _))))))));
    try (intros; reflexivity); vm_compute; discriminate.
Defined.

(** X9. When the body of a refusal is the JSON value [null], reading the
    fields of the error throws inside the [try] block: [login],
    [getUploadUrl], [getImageUrl], [deletePhoto], [likeImage],
    [createChat], [getChats] and [sendChatMessage] reject with a
    [TypeError] (its text is the engine's), which the [catch] block throws
    again: neither the text of the function nor the status of the
    response is reported. *)
Theorem null_refusal_is_a_type_error `{Browser} (r : Response)
    (username fileName fileType s3Key imageId user_id message : string)
    (threadId chatData : val) :
  (forall req, fetch_outcome req = Responds r) -> ok r = false ->
  json_body r = Normal VNull ->
  given username -> given fileName -> given fileType -> given s3Key -> given imageId ->
  given user_id -> given message -> truthy (get chatData "user_id") = true ->
  throws_a_type_error (login (VStr username))
  /\ throws_a_type_error (getUploadUrl (VStr username) (VStr fileName) (VStr fileType))
  /\ throws_a_type_error (getImageUrl (VStr username) (VStr s3Key))
  /\ throws_a_type_error (deletePhoto (VStr username) (VStr s3Key))
  /\ throws_a_type_error (likeImage (VStr username) (VStr imageId))
  /\ throws_a_type_error (createChat chatData)
  /\ throws_a_type_error (getChats (VStr user_id))
  /\ throws_a_type_error (sendChatMessage (VStr message) (VStr user_id) threadId).
Proof.
  intros Hnet Hok Hbody Hn Hf Ht Hk Hi Hu Hm Hc.
  assert (Hc' : truthy chatData = true)
    by (destruct chatData; try discriminate Hc; reflexivity).
  pose proof (given_not_empty _ Hu) as Hu'.
  unfold throws_a_type_error.
  repeat split; eexists; client;
    rewrite ?(validated _ Hn), ?(validated _ Hf), ?(validated _ Ht), ?(validated _ Hk),
      ?(validated _ Hi), ?(validated _ Hu), ?(validated _ Hm), ?Hc, ?Hc';
    answered Hnet Hok Hbody; rewrite ?Hu'; answered Hnet Hok Hbody; reflexivity.
Qed.

Lemma null_refusal_is_a_type_error_witness :
  throws_a_type_error
    (sendChatMessage (H := browser_of null_refusal) (VStr "hi") (VStr "user_alice") VNull).
Proof.
  refine (proj2 (proj2 (proj2 (proj2 (proj2 (proj2 (proj2
            (null_refusal_is_a_type_error (H := browser_of null_refusal) null_refusal
               "alice" "a.jpg" "image/jpeg" "users/alice/a.jpg" "p1" "user_alice" "hi"
               VNull (VObj [("user_id", VStr "user_alice")])
               _ _ _ _ _ _ _ _ _ _ _))))))));
    try (intros; reflexivity); vm_compute; discriminate.
Defined.

(** X10. When the server accepts the request, [login], [getUploadUrl],
    [getImageUrl], [deletePhoto] and [likeImage] resolve with the JSON body
    as it is: no field of it is looked at. *)
Theorem answers_are_passed_on `{Browser} (r : Response) (answer : val)
    (username fileName fileType s3Key imageId : string) :
  (forall req, fetch_outcome req = Responds r) -> ok r = true ->
  json_body r = Normal answer ->
  given username -> given fileName -> given fileType -> given s3Key -> given imageId ->
  outcome (login (VStr username)) = Normal answer
  /\ outcome (getUploadUrl (VStr username) (VStr fileName) (VStr fileType)) = Normal answer
  /\ outcome (getImageUrl (VStr username) (VStr s3Key)) = Normal answer
  /\ outcome (deletePhoto (VStr username) (VStr s3Key)) = Normal answer
  /\ outcome (likeImage (VStr username) (VStr imageId)) = Normal answer.
Proof.
  intros Hnet Hok Hbody Hn Hf Ht Hk Hi.
  repeat split; client;
    rewrite ?(validated _ Hn), ?(validated _ Hf), ?(validated _ Ht), ?(validated _ Hk),
      ?(validated _ Hi);
    answered Hnet Hok Hbody; reflexivity.
Qed.

Lemma answers_are_passed_on_witness :
  outcome (login (H := browser_of (accepted VNull)) (VStr "alice")) = Normal VNull.
Proof.
  refine (proj1
            (answers_are_passed_on (H := browser_of (accepted VNull)) (accepted VNull) VNull
               "alice" "a.jpg" "image/jpeg" "users/alice/a.jpg" "p1" _ _ _ _ _ _ _ _));
    try (intros; reflexivity); vm_compute; discriminate.
Defined.

(** X11. When [fetch] rejects, [login], [getUploadUrl], [getImageUrl],
    [deletePhoto] and [likeImage] reject with what [fetch] rejected with
    if that is an instance of [Error], as the [TypeError] of a network
    failure is; the "Network error" text ([deletePhoto] has one of its
    own) is for a rejection with anything else. *)
Theorem rejections_of_fetch `{Browser} (t : thrown)
    (username fileName fileType s3Key imageId : string) :
  (forall req, fetch_outcome req = Rejects t) ->
  given username -> given fileName -> given fileType -> given s3Key -> given imageId ->
  let rethrown text := Throw (if instanceof_Error t then t else Error text) in
  outcome (login (VStr username))
    = rethrown "Network error: Failed to connect to server"
  /\ outcome (getUploadUrl (VStr username) (VStr fileName) (VStr fileType))
     = rethrown "Network error: Failed to connect to server"
  /\ outcome (getImageUrl (VStr username) (VStr s3Key))
     = rethrown "Network error: Failed to connect to server"
  /\ outcome (deletePhoto (VStr username) (VStr s3Key))
     = rethrown "Network error: Failed to delete photo"
  /\ outcome (likeImage (VStr username) (VStr imageId))
     = rethrown "Network error: Failed to connect to server".
Proof.
  intros Hnet Hn Hf Ht Hk Hi rethrown. subst rethrown.
  repeat split; client;
    rewrite ?(validated _ Hn), ?(validated _ Hf), ?(validated _ Ht), ?(validated _ Hk),
      ?(validated _ Hi);
    unfold fetch; cbn [bind ret emit throw try_catch trim_method]; rewrite Hnet;
    cbn [bind ret emit throw try_catch]; destruct (instanceof_Error t); reflexivity.
Qed.

Lemma rejections_of_fetch_witness :
  outcome (deletePhoto (H := plain_browser) (VStr "alice") (VStr "users/alice/a.jpg"))
  = Throw (TypeError "Failed to fetch").
Proof.
  refine (proj1 (proj2 (proj2 (proj2
            (rejections_of_fetch (H := plain_browser) (TypeError "Failed to fetch")
               "alice" "a.jpg" "image/jpeg" "users/alice/a.jpg" "p1" _ _ _ _ _ _)))));
    try (intros; reflexivity); vm_compute; discriminate.
Defined.

(** *** For every argument *)

Section Once.
Context `{Browser}.

Ltac validation v :=
  let s := fresh "s" in
  destruct (blank_argument_cases v) as [-> | [(s & -> & ->) | [? ->]]];
  rewrite ?bind_ret, ?bind_throw; cbv iota;
  try (cbn [throw trace fst List.length]; lia).

Ltac count :=
  unfold fetch, json_or_empty, json, prop;
  cbn [bind ret emit throw try_catch negb fst snd app trace outcome trim_method];
  by_outcome; cbn; lia.

Lemma login_once u : (List.length (trace (login u)) <= 1)%nat.
Proof. unfold login. validation u. count. Qed.

Lemma getUploadUrl_once u f t : (List.length (trace (getUploadUrl u f t)) <= 1)%nat.
Proof. unfold getUploadUrl. validation u. validation f. validation t. count. Qed.

Lemma getImageUrl_once u k : (List.length (trace (getImageUrl u k)) <= 1)%nat.
Proof. unfold getImageUrl. validation u. count. Qed.

Lemma deletePhoto_once u k : (List.length (trace (deletePhoto u k)) <= 1)%nat.
Proof. unfold deletePhoto. validation u. validation k. count. Qed.

Lemma likeImage_once u i : (List.length (trace (likeImage u i)) <= 1)%nat.
Proof. unfold likeImage. validation u. validation i. count. Qed.

Lemma getChats_once u : (List.length (trace (getChats u)) <= 1)%nat.
Proof. unfold getChats. fold (blank_argument u). validation u. count. Qed.

Lemma sendChatMessage_once m u th : (List.length (trace (sendChatMessage m u th)) <= 1)%nat.
Proof.
  unfold sendChatMessage. fold (blank_argument m). validation m.
  destruct (truthy u); cbn [negb trace fst List.length throw]; [ | lia]. count.
Qed.

Lemma createChat_once c : (List.length (trace (createChat c)) <= 1)%nat.
Proof.
  unfold createChat.
  destruct (negb (truthy c) || negb (truthy (get c "user_id"))); [cbn; lia | ]. count.
Qed.

Lemma login_requests u : performs is_fetch (login u).
Proof. unfold login, json_or_empty. js_auto. Qed.

Lemma login_errors u : throws_errors (login u).
Proof. unfold login. js_auto. Qed.

Lemma getUploadUrl_requests u f t : performs is_fetch (getUploadUrl u f t).
Proof. unfold getUploadUrl, json_or_empty. js_auto. Qed.

Lemma getUploadUrl_errors u f t : throws_errors (getUploadUrl u f t).
Proof. unfold getUploadUrl. js_auto. Qed.

Lemma getImageUrl_requests u k : performs is_fetch (getImageUrl u k).
Proof. unfold getImageUrl, json_or_empty. js_auto. Qed.

Lemma getImageUrl_errors u k : throws_errors (getImageUrl u k).
Proof. unfold getImageUrl. js_auto. Qed.

Lemma deletePhoto_requests u k : performs is_fetch (deletePhoto u k).
Proof. unfold deletePhoto, json_or_empty. js_auto. Qed.

Lemma deletePhoto_errors u k : throws_errors (deletePhoto u k).
Proof. unfold deletePhoto. js_auto. Qed.

Lemma likeImage_requests u i : performs is_fetch (likeImage u i).
Proof. unfold likeImage, json_or_empty. js_auto. Qed.

Lemma likeImage_errors u i : throws_errors (likeImage u i).
Proof. unfold likeImage. js_auto. Qed.

Lemma createChat_requests c : performs is_fetch (createChat c).
Proof. unfold createChat, json_or_empty. js_auto. Qed.

Lemma createChat_errors c : throws_errors (createChat c).
Proof. unfold createChat. js_auto. Qed.

End Once.

(** X12. Whatever its arguments are, and whatever the network and the
    server do, a function of the client performs nothing but requests,
    one at most (there is no second attempt), and what it rejects with is
    an instance of [Error], so that the [message] that the callers read
    off it is there. *)
Theorem the_client_requests_once_and_rejects_with_errors `{Browser}
    (a b c : val) :
  settles_with_an_error_or_a_value (login a)
  /\ settles_with_an_error_or_a_value (getUploadUrl a b c)
  /\ settles_with_an_error_or_a_value (getImageUrl a b)
  /\ settles_with_an_error_or_a_value (deletePhoto a b)
  /\ settles_with_an_error_or_a_value (likeImage a b)
  /\ settles_with_an_error_or_a_value (createChat a)
  /\ settles_with_an_error_or_a_value (getChats a)
  /\ settles_with_an_error_or_a_value (sendChatMessage a b c).
Proof.
  unfold settles_with_an_error_or_a_value.
  repeat split;
    auto using login_once, getUploadUrl_once, getImageUrl_once, deletePhoto_once,
      likeImage_once, getChats_once, sendChatMessage_once, createChat_once,
      login_requests, login_errors, getUploadUrl_requests, getUploadUrl_errors,
      getImageUrl_requests, getImageUrl_errors, deletePhoto_requests, deletePhoto_errors,
      likeImage_requests, likeImage_errors, createChat_requests, createChat_errors,
      getChats_requests, getChats_errors, sendChatMessage_requests, sendChatMessage_errors.
Qed.

Lemma the_client_requests_once_and_rejects_with_errors_witness :
  settles_with_an_error_or_a_value (login (H := shop) (VStr "alice"))
  /\ settles_with_an_error_or_a_value (likeImage (H := plain_browser) (VStr "alice") (VNum 42)).
Proof.
  split.
  - exact (proj1 (the_client_requests_once_and_rejects_with_errors (H := shop)
                    (VStr "alice") VUndef VUndef)).
  - exact (proj1 (proj2 (proj2 (proj2 (proj2
             (the_client_requests_once_and_rejects_with_errors (H := plain_browser)
                (VStr "alice") (VNum 42) VUndef)))))).
Defined.

(** ** The S3-key helpers, once more *)

Lemma split_not_empty c s : Str.split c s <> [].
Proof.
  destruct s as [| x s]; simpl; [discriminate | ].
  destruct (Ascii.eqb x c); [discriminate | ].
  destruct (Str.split c s); discriminate.
Qed.

Lemma split_app c a b :
  Str.split c (a ++ String c b) = (Str.split c a ++ Str.split c b)%list.
Proof.
  induction a as [| x a IH]; simpl.
  - rewrite Ascii.eqb_refl. reflexivity.
  - destruct (Ascii.eqb x c); rewrite IH; [reflexivity | ].
    pose proof (split_not_empty c a) as Ha.
    destruct (Str.split c a); [contradiction Ha; reflexivity | reflexivity].
Qed.

Lemma join_split c s : Str.join (String c "") (Str.split c s) = s.
Proof.
  induction s as [| x s IH]; [reflexivity | ]. simpl.
  pose proof (split_not_empty c s) as Hs.
  destruct (Ascii.eqb x c) eqn:Hx.
  - apply Ascii.eqb_eq in Hx. subst x.
    destruct (Str.split c s) as [| h t]; [contradiction Hs; reflexivity | ].
    change (Str.join (String c "") ("" :: h :: t))
      with (String c (Str.join (String c "") (h :: t))).
    rewrite IH. reflexivity.
  - destruct (Str.split c s) as [| h t]; [contradiction Hs; reflexivity | ].
    destruct t as [| h' t]; simpl in *; rewrite <- IH; reflexivity.
Qed.

Lemma findIndex_first {A} (p : A -> bool) (l1 l2 : list A) (x : A) :
  forallb (fun y => negb (p y)) l1 = true -> p x = true ->
  findIndex p (l1 ++ x :: l2) = Z.of_nat (List.length l1).
Proof.
  intros Hl Hx. induction l1 as [| y l1 IH]; simpl.
  - rewrite Hx. reflexivity.
  - simpl in Hl. apply andb_true_iff in Hl. destruct Hl as [Hy Hl].
    apply negb_true_iff in Hy. rewrite Hy, (IH Hl).
    destruct (Z.of_nat (List.length l1) =? -1)%Z eqn:E; [ | lia].
    apply Z.eqb_eq in E. lia.
Qed.

Lemma findIndex_none {A} (p : A -> bool) (l : list A) :
  forallb (fun y => negb (p y)) l = true -> findIndex p l = (-1)%Z.
Proof.
  induction l as [| y l IH]; simpl; [reflexivity | ].
  intros Hl. apply andb_true_iff in Hl. destruct Hl as [Hy Hl].
  apply negb_true_iff in Hy. rewrite Hy, (IH Hl). reflexivity.
Qed.

Lemma slice_after {A} (l1 l2 : list A) (x : A) :
  slice (Z.of_nat (List.length l1) + 1) (l1 ++ x :: l2) = l2.
Proof.
  unfold slice. destruct (Z.of_nat (List.length l1) + 1 <? 0)%Z eqn:E;
    [apply Z.ltb_lt in E; lia | ].
  replace (Z.to_nat (Z.of_nat (List.length l1) + 1)) with (S (List.length l1)) by lia.
  clear E. induction l1 as [| y l1 IH]; [reflexivity | exact IH].
Qed.

Lemma path_key_after_the_bucket (before key : string) :
  outside_the_bucket before = true ->
  path_key (before ++ "/aura-ai-users/" ++ key) = Some key.
Proof.
  intros Hb. unfold path_key.
  change (before ++ "/aura-ai-users/" ++ key)
    with (before ++ String "/" (bucket ++ String "/" key)).
  rewrite split_app, (split_at_separator "/" bucket key) by reflexivity.
  cbv zeta. rewrite (findIndex_first _ _ _ _ Hb) by reflexivity.
  rewrite slice_after, join_split.
  rewrite List.length_app. cbn [List.length].
  pose proof (split_not_empty "/" key) as Hk.
  destruct (Str.split "/" key) as [| h t]; [contradiction Hk; reflexivity | ].
  cbn [List.length].
  replace (Z.of_nat (List.length (Str.split "/" before)) =? -1)%Z with false
    by (symmetry; apply Z.eqb_neq; lia).
  replace (Z.of_nat (List.length (Str.split "/" before))
             <? Z.of_nat (List.length (Str.split "/" before) + S (S (List.length t))) - 1)%Z
    with true by (symmetry; apply Z.ltb_lt; lia).
  reflexivity.
Qed.

Lemma path_key_outside_the_bucket (path : string) :
  outside_the_bucket path = true -> path_key path = None.
Proof.
  intros Hp. unfold outside_the_bucket, bucket in Hp.
  unfold path_key. cbv zeta. rewrite (findIndex_none _ _ Hp). reflexivity.
Qed.

Lemma searchParams_get_image_url (u : URL) (key s3Url : string) :
  search u =
    "?s3_key=" ++ Uri.query_encode (Uri.encodeURIComponent key)
      ++ "&image_url=" ++ Uri.query_encode (Uri.encodeURIComponent s3Url) ->
  Uri.wellformed s3Url = true ->
  Uri.searchParams_get u "image_url" = Some s3Url.
Proof.
  intros Hsearch Hwf. unfold Uri.searchParams_get, Uri.parse_query.
  rewrite Hsearch.
  set (X := Uri.query_encode (Uri.encodeURIComponent key)).
  set (Y := Uri.query_encode (Uri.encodeURIComponent s3Url)).
  replace (Uri.strip_question ("?s3_key=" ++ X ++ "&image_url=" ++ Y))
    with (("s3_key=" ++ X) ++ String "&" ("image_url=" ++ Y))
    by (rewrite append_assoc; reflexivity).
  rewrite split_at_separator
    by (rewrite has_app; unfold X; rewrite escaped_has_no; reflexivity).
  rewrite split_absent
    by (rewrite has_app; unfold Y; rewrite escaped_has_no; reflexivity).
  cbn [flat_map]. unfold Uri.parse_pair.
  replace (("s3_key=" ++ X) =? "") with false by reflexivity.
  replace (("image_url=" ++ Y) =? "") with false by reflexivity.
  replace (Uri.break_at "=" ("s3_key=" ++ X)) with ("s3_key", Some X) by reflexivity.
  replace (Uri.break_at "=" ("image_url=" ++ Y)) with ("image_url", Some Y) by reflexivity.
  replace (Uri.form_decode "s3_key") with "s3_key" by (vm_compute; reflexivity).
  replace (Uri.form_decode "image_url") with "image_url" by (vm_compute; reflexivity).
  cbn [app find fst String.eqb Ascii.eqb Bool.eqb].
  unfold Uri.form_decode, Y. rewrite escaped_decodes.
  apply String.eqb_eq in Hwf. unfold Uri.wellformed in *. rewrite Hwf. reflexivity.
Qed.

(** X13. The key of a photo URL is all that follows the first segment
    [aura-ai-users] of its path, further slashes included: when the path
    is [before ++ "/aura-ai-users/" ++ key] and no segment of [before] is
    the bucket, [extractS3KeyFromUrl] returns [key] (for a URL without an
    [s3_key] parameter), and [getImageProxyUrl] builds the proxy URL of
    that key. This also holds for the empty key, which a path that ends
    in [aura-ai-users/] has. *)
Theorem the_key_is_what_follows_the_bucket `{Browser}
    (photoUrl username before key : string) (u : URL) :
  photoUrl <> "" -> new_URL photoUrl = Some u ->
  pathname u = before ++ "/aura-ai-users/" ++ key ->
  outside_the_bucket before = true ->
  Uri.searchParams_get u "s3_key" = None \/ Uri.searchParams_get u "s3_key" = Some "" ->
  extractS3KeyFromUrl photoUrl = Some key
  /\ (username <> "" -> getImageProxyUrl photoUrl username = proxy_url username key photoUrl).
Proof.
  intros Hp Hu Hpath Hb Hparam.
  pose proof (path_key_after_the_bucket before key Hb) as Hkey. rewrite <- Hpath in Hkey.
  split.
  - rewrite (extractS3KeyFromUrl_of_path photoUrl u Hp Hu Hparam). exact Hkey.
  - intros Hn. exact (getImageProxyUrl_of_key photoUrl username key u Hp Hn Hu Hkey).
Qed.

Lemma the_key_is_what_follows_the_bucket_witness :
  extractS3KeyFromUrl (H := plain_browser)
    "https://cdn.example.com/media/aura-ai-users/users/alice/aura-ai-users/a.jpg"
  = Some "users/alice/aura-ai-users/a.jpg"
  /\ extractS3KeyFromUrl (H := plain_browser) "https://cdn.example.com/aura-ai-users/"
     = Some "".
Proof.
  split.
  - refine (proj1 (the_key_is_what_follows_the_bucket (H := plain_browser)
                     "https://cdn.example.com/media/aura-ai-users/users/alice/aura-ai-users/a.jpg"
                     "alice" "/media" "users/alice/aura-ai-users/a.jpg"
                     {| pathname := "/media/aura-ai-users/users/alice/aura-ai-users/a.jpg";
                        search := "" |} _ _ _ _ _));
      try discriminate; try (vm_compute; reflexivity).
    left. vm_compute. reflexivity.
  - refine (proj1 (the_key_is_what_follows_the_bucket (H := plain_browser)
                     "https://cdn.example.com/aura-ai-users/" "alice" "" ""
                     {| pathname := "/aura-ai-users/"; search := "" |} _ _ _ _ _));
      try discriminate; try (vm_compute; reflexivity).
    left. vm_compute. reflexivity.
Defined.

(** X14. A URL whose path has no segment [aura-ai-users] is displayed as
    it is, [getImageProxyUrl] returns it unchanged; and it has no key,
    [extractS3KeyFromUrl] returns [null] for it unless the URL carries an
    [s3_key] parameter. *)
Theorem a_url_outside_the_bucket_has_no_key `{Browser} (s3Url username : string) (u : URL) :
  new_URL s3Url = Some u ->
  outside_the_bucket (pathname u) = true ->
  getImageProxyUrl s3Url username = s3Url
  /\ (Uri.searchParams_get u "s3_key" = None \/ Uri.searchParams_get u "s3_key" = Some "" ->
      extractS3KeyFromUrl s3Url = None).
Proof.
  intros Hu Hout. pose proof (path_key_outside_the_bucket _ Hout) as Hkey.
  unfold path_key in Hkey. cbv zeta in Hkey. split.
  - unfold getImageProxyUrl. rewrite Hu.
    destruct ((s3Url =? "") || (username =? "")); [reflexivity | ].
    destruct (negb _ && _); [discriminate Hkey | reflexivity].
  - intros Hparam. unfold extractS3KeyFromUrl. rewrite Hu.
    destruct (s3Url =? ""); [reflexivity | ].
    destruct Hparam as [-> | ->]; (destruct (negb _ && _); [discriminate Hkey | reflexivity]).
Qed.

Lemma a_url_outside_the_bucket_has_no_key_witness :
  getImageProxyUrl (H := plain_browser) "https://example.com/aura-ai-users-2/a.jpg" "alice"
  = "https://example.com/aura-ai-users-2/a.jpg"
  /\ extractS3KeyFromUrl (H := plain_browser) "https://example.com/aura-ai-users-2/a.jpg"
     = None.
Proof.
  refine ((fun T => conj (proj1 T) (proj2 T _))
            (a_url_outside_the_bucket_has_no_key (H := plain_browser)
               "https://example.com/aura-ai-users-2/a.jpg" "alice"
               {| pathname := "/aura-ai-users-2/a.jpg"; search := "" |} _ _));
    try (vm_compute; reflexivity).
  left. vm_compute. reflexivity.
Defined.

(** X15. The proxy URL of a photo carries the URL of the photo: its
    [image_url] parameter reads back as the URL that went in, byte for
    byte, in every browser that reads the query of a proxy URL as the URL
    Standard says. *)
Theorem the_proxy_url_carries_the_photo_url `{B : Browser}
    (s3Url username key : string) (u : URL) :
  parses_proxy_urls B ->
  s3Url <> "" -> new_URL s3Url = Some u -> path_key (pathname u) = Some key ->
  Uri.wellformed s3Url = true ->
  username <> "" -> has "?" username = false -> has "#" username = false ->
  exists proxy,
    new_URL (getImageProxyUrl s3Url username) = Some proxy
    /\ Uri.searchParams_get proxy "image_url" = Some s3Url.
Proof.
  intros Hparser Hs Hu Hkey Hwf Hn Hq Hf.
  rewrite (getImageProxyUrl_of_key s3Url username key u Hs Hn Hu Hkey).
  destruct (Hparser username key s3Url Hq Hf) as (proxy & Hproxy & Hsearch).
  exists proxy. split; [exact Hproxy | ].
  exact (searchParams_get_image_url proxy key s3Url Hsearch Hwf).
Qed.

Lemma the_proxy_url_carries_the_photo_url_witness :
  exists proxy,
    new_URL (Browser := plain_browser)
      (getImageProxyUrl (H := plain_browser) signed_photo_url "alice") = Some proxy
    /\ Uri.searchParams_get proxy "image_url" = Some signed_photo_url.
Proof.
  refine (the_proxy_url_carries_the_photo_url (B := plain_browser) signed_photo_url "alice"
            "users/alice/profile/a.jpg"
            {| pathname := "/aura-ai-users/users/alice/profile/a.jpg";
               search := "?X-Amz-Expires=3600&X-Amz-Signature=abc" |}
            (URL_parse_proxy_urls None VNull offline) _ _ _ _ _ _ _);
    try discriminate; vm_compute; reflexivity.
Defined.

(** X16. The key that [extractS3KeyFromUrl] reads off a proxy URL is the
    key of the photo decoded once more with [decodeURIComponent]: a key
    with an escape in it comes back with the escape resolved, and a key
    with a percent sign that begins no escape does not come back at all. *)
Theorem the_key_of_a_proxy_url_is_decoded_once_more `{B : Browser}
    (s3Url username key : string) (u : URL) :
  parses_proxy_urls B ->
  s3Url <> "" -> new_URL s3Url = Some u -> path_key (pathname u) = Some key ->
  key <> "" -> Uri.wellformed key = true ->
  username <> "" -> has "?" username = false -> has "#" username = false ->
  extractS3KeyFromUrl (getImageProxyUrl s3Url username) = Uri.decodeURIComponent key.
Proof.
  intros Hparser Hs Hu Hpath Hkey Hwf Hn Hq Hf.
  rewrite (getImageProxyUrl_of_key s3Url username key u Hs Hn Hu Hpath).
  destruct (Hparser username key s3Url Hq Hf) as (proxy & Hproxy & Hsearch).
  apply (extractS3KeyFromUrl_of_param (proxy_url username key s3Url) key proxy).
  - discriminate.
  - exact Hproxy.
  - exact (searchParams_get_s3_key proxy key s3Url Hsearch Hwf).
  - exact Hkey.
Qed.

Lemma the_key_of_a_proxy_url_is_decoded_once_more_witness :
  (extractS3KeyFromUrl (H := plain_browser)
     (getImageProxyUrl (H := plain_browser)
        "https://cdn.example.com/aura-ai-users/a%20b.jpg" "alice")
   = Uri.decodeURIComponent "a%20b.jpg"
   /\ Uri.decodeURIComponent "a%20b.jpg" = Some "a b.jpg")
  /\
  (extractS3KeyFromUrl (H := plain_browser)
     (getImageProxyUrl (H := plain_browser)
        "https://cdn.example.com/aura-ai-users/100%.jpg" "alice")
   = Uri.decodeURIComponent "100%.jpg"
   /\ Uri.decodeURIComponent "100%.jpg" = None).
Proof.
  split; (split; [ | vm_compute; reflexivity]).
  - refine (the_key_of_a_proxy_url_is_decoded_once_more (B := plain_browser)
              "https://cdn.example.com/aura-ai-users/a%20b.jpg" "alice" "a%20b.jpg"
              {| pathname := "/aura-ai-users/a%20b.jpg"; search := "" |}
              (URL_parse_proxy_urls None VNull offline) _ _ _ _ _ _ _ _);
      try discriminate; vm_compute; reflexivity.
  - refine (the_key_of_a_proxy_url_is_decoded_once_more (B := plain_browser)
              "https://cdn.example.com/aura-ai-users/100%.jpg" "alice" "100%.jpg"
              {| pathname := "/aura-ai-users/100%.jpg"; search := "" |}
              (URL_parse_proxy_urls None VNull offline) _ _ _ _ _ _ _ _);
      try discriminate; vm_compute; reflexivity.
Defined.

(** ** The chat page *)

(** *** What a send asks of the server *)

Lemma userId_of_truthy u : truthy (userId_of u) = true.
Proof.
  unfold userId_of, or_else. destruct (truthy (get u "user_id")) eqn:E; [exact E | reflexivity].
Qed.

Lemma sendChatMessage_request `{Browser} (m : string) (u th : val) :
  given m -> truthy u = true ->
  trace (sendChatMessage (VStr m) u th)
  = [Fetch (api "POST" "/chat" (Some (chat_body (Str.trim m) u th)))].
Proof.
  intros Hm Hu. unfold api, chat_body. client. rewrite (validated _ Hm), Hu.
  cbn [bind ret negb trim_method].
  assert (E : (if truthy match th with VUndef => VNull | _ => th end
               then [("thread_id", match th with VUndef => VNull | _ => th end)]
               else []) = (if truthy th then [("thread_id", th)] else []))
    by (destruct th; reflexivity).
  rewrite E. requests_of.
Qed.

Section Sends.
Context `{Browser}.
Variable st : State.

Lemma sendChatMessage_of_errors m u th tr t :
  sendChatMessage m u th = (tr, Throw t) -> exists name text, t = ErrorObj name text.
Proof.
  intros E. pose proof (sendChatMessage_errors m u th t) as Ht.
  rewrite E in Ht. specialize (Ht eq_refl).
  destruct t as [name text | v]; [eauto | discriminate Ht].
Qed.

Lemma sendMessage_begins :
  can_send st (input st) ->
  exists rest,
    sendMessage st =
    ((opening (Str.trim (input st))
       ++ Fetch (api "POST" "/chat"
                   (Some (chat_body (Str.trim (input st)) (userId_of (user st))
                            (threadId_of (activeChat st))))) :: rest)%list, Normal tt).
Proof.
  intros Hcan. pose proof Hcan as (Htext & _).
  pose proof (sendChatMessage_request (Str.trim (input st)) (userId_of (user st))
                (threadId_of (activeChat st)) (given_trim _ Htext)
                (userId_of_truthy _)) as Hreq.
  rewrite trim_trim in Hreq.
  destruct (sendChatMessage (VStr (Str.trim (input st))) (userId_of (user st))
              (threadId_of (activeChat st))) as [tr [response | t]] eqn:E;
    cbn [trace fst] in Hreq; subst tr.
  - destruct (nullish response) eqn:N.
    + rewrite (sendMessage_no_response st _ _ Hcan E N). eexists. reflexivity.
    + rewrite (sendMessage_replied st _ _ Hcan E N). eexists. reflexivity.
  - destruct (sendChatMessage_of_errors _ _ _ _ _ E) as (name & text & ->).
    rewrite (sendMessage_rejected st _ _ _ Hcan E). eexists. reflexivity.
Qed.

Lemma sendMessageFromText_begins text :
  can_send st text ->
  exists rest,
    sendMessageFromText st text =
    ((voice_opening text
       ++ Fetch (api "POST" "/chat"
                   (Some (chat_body (Str.trim text) (userId_of (user st))
                            (threadId_of (activeChat st))))) :: rest)%list, Normal tt).
Proof.
  intros Hcan. pose proof Hcan as (Htext & _).
  pose proof (sendChatMessage_request text (userId_of (user st))
                (threadId_of (activeChat st)) Htext (userId_of_truthy _)) as Hreq.
  destruct (sendChatMessage (VStr text) (userId_of (user st))
              (threadId_of (activeChat st))) as [tr [response | t]] eqn:E;
    cbn [trace fst] in Hreq; subst tr.
  - destruct (nullish response) eqn:N.
    + rewrite (sendMessageFromText_no_response st _ _ _ Hcan E N). eexists. reflexivity.
    + rewrite (sendMessageFromText_replied st _ _ _ Hcan E N). eexists. reflexivity.
  - destruct (sendChatMessage_of_errors _ _ _ _ _ E) as (name & text' & ->).
    rewrite (sendMessageFromText_rejected st _ _ _ _ Hcan E). eexists. reflexivity.
Qed.

End Sends.

(** X17. A send that goes ahead passes the tests of [sendChatMessage]:
    right after the user message, the page posts to [/chat] the trimmed
    text, the user id ([user_id] of the stored user, or [user_] followed
    by the user name) and, when the active chat has one, its thread id
    ([chat_room_id], else [id], else [chat_id]). On the voice page the
    bubble shows the text as it came, the request carries it trimmed. *)
Theorem a_send_posts_the_trimmed_text `{Browser} (st : State) (text : string) :
  (can_send st (input st) ->
   exists rest,
     trace (sendMessage st) =
     (opening (Str.trim (input st))
        ++ Fetch (api "POST" "/chat"
                    (Some (chat_body (Str.trim (input st)) (userId_of (user st))
                             (threadId_of (activeChat st))))) :: rest)%list)
  /\
  (can_send st text ->
   exists rest,
     trace (sendMessageFromText st text) =
     (voice_opening text
        ++ Fetch (api "POST" "/chat"
                    (Some (chat_body (Str.trim text) (userId_of (user st))
                             (threadId_of (activeChat st))))) :: rest)%list).
Proof.
  split; intros Hcan.
  - destruct (sendMessage_begins st Hcan) as [rest ->]. exists rest. reflexivity.
  - destruct (sendMessageFromText_begins st text Hcan) as [rest ->]. exists rest. reflexivity.
Qed.

Lemma a_send_posts_the_trimmed_text_witness :
  (exists rest,
     trace (sendMessage (H := shop) (typing " hi ")) =
     (opening "hi" ++ Fetch (post_chat "hi") :: rest)%list)
  /\
  (exists rest,
     trace (sendMessageFromText (H := shop) (typing "") " hi ") =
     (voice_opening " hi " ++ Fetch (post_chat "hi") :: rest)%list).
Proof.
  split.
  - refine (proj1 (a_send_posts_the_trimmed_text (H := shop) (typing " hi ") "") _).
    repeat split; vm_compute; try reflexivity; discriminate.
  - refine (proj2 (a_send_posts_the_trimmed_text (H := shop) (typing "") " hi ") _).
    repeat split; vm_compute; try reflexivity; discriminate.
Defined.

Lemma requests_app a b : requests (a ++ b) = (requests a ++ requests b)%list.
Proof. apply filter_app. Qed.

Lemma requests_reply_of response : requests (reply_of response) = [].
Proof. unfold reply_of. destruct (truthy _); reflexivity. Qed.

Lemma requests_sendFailed `{Browser} name text :
  requests (trace (sendFailed (ErrorObj name text))) = [].
Proof. rewrite sendFailed_Error. destruct (Str.includes _ _); reflexivity. Qed.

Lemma get_opt_falsy u k : truthy (get_opt u k) = false -> truthy (get u k) = false.
Proof. unfold get_opt. destruct u; trivial. Qed.

Lemma get_opt_truthy u k : truthy (get_opt u k) = true -> get_opt u k = get u k.
Proof. unfold get_opt. destruct u; trivial. Qed.

(** X18. For a stored user without [user_id], the page never asks for
    the chats and never creates one, [fetchChats] and [createNewChat]
    return at once; and yet a send goes out, under the user id [user_]
    followed by the user name, and it is the only request of the send: no
    refresh follows it. *)
Theorem a_user_without_an_id_sends_but_never_loads `{Browser} (st : State) :
  truthy (get_opt (user st) "user_id") = false ->
  fetchChats st = ([], Normal tt)
  /\ createNewChat st = ([], Normal tt)
  /\ (can_send st (input st) ->
      requests (trace (sendMessage st)) =
      [Fetch (api "POST" "/chat"
                (Some (chat_body (Str.trim (input st))
                         (VStr ("user_" ++ toString (get (user st) "username")))
                         (threadId_of (activeChat st)))))]).
Proof.
  intros Hid. split; [ | split].
  - unfold fetchChats. rewrite Hid. reflexivity.
  - unfold createNewChat. rewrite Hid. reflexivity.
  - intros Hcan. pose proof Hcan as (Htext & _).
    assert (Hu : userId_of (user st)
                 = VStr ("user_" ++ toString (get (user st) "username")))
      by (unfold userId_of, or_else; rewrite (get_opt_falsy _ _ Hid); reflexivity).
    pose proof (sendChatMessage_request (Str.trim (input st)) (userId_of (user st))
                  (threadId_of (activeChat st)) (given_trim _ Htext)
                  (userId_of_truthy _)) as Hreq.
    rewrite trim_trim in Hreq.
    assert (R : trace (refresh st) = []) by (unfold refresh; rewrite Hid; reflexivity).
    destruct (sendChatMessage (VStr (Str.trim (input st))) (userId_of (user st))
                (threadId_of (activeChat st))) as [tr [response | t]] eqn:E;
      cbn [trace fst] in Hreq; subst tr.
    + destruct (nullish response) eqn:N.
      * rewrite (sendMessage_no_response st _ _ Hcan E N), Hu. reflexivity.
      * rewrite (sendMessage_replied st _ _ Hcan E N). cbn [trace fst].
        rewrite R, !requests_app, requests_reply_of, Hu. reflexivity.
    + destruct (sendChatMessage_of_errors _ _ _ _ _ E) as (name & text & ->).
      rewrite (sendMessage_rejected st _ _ _ Hcan E). cbn [trace fst].
      rewrite !requests_app, requests_sendFailed, Hu. reflexivity.
Qed.

Lemma a_user_without_an_id_sends_but_never_loads_witness :
  requests (trace (sendMessage (H := shop)
                     {| user := carol; chats := []; activeChat := chat1 [];
                        messages := VArr []; input := "hi"; isSending := false |})) =
  [Fetch (api "POST" "/chat"
            (Some (VObj [ ("message", VStr "hi"); ("user_id", VStr "user_carol");
                          ("thread_id", VNum 1) ])))].
Proof.
  refine (proj2 (proj2
            (a_user_without_an_id_sends_but_never_loads (H := shop)
               {| user := carol; chats := []; activeChat := chat1 [];
                  messages := VArr []; input := "hi"; isSending := false |} _)) _).
  - reflexivity.
  - repeat split; vm_compute; try reflexivity; discriminate.
Defined.

(** X19. When the server accepts the message and its answer has no text
    (no [response], or an empty one), the send shows nothing for it: no
    assistant message, no error, nothing is spoken; the chat list is
    refreshed all the same and the sending flag is released. *)
Theorem a_reply_without_text_shows_nothing `{Browser} (st : State) (text : string)
    (tr : list Effect) (response : val) :
  nullish response = false -> truthy (get response "response") = false ->
  (can_send st (input st) ->
   sendChatMessage (VStr (Str.trim (input st))) (userId_of (user st))
     (threadId_of (activeChat st)) = (tr, Normal response) ->
   sendMessage st =
   ((opening (Str.trim (input st)) ++ tr ++ trace (refresh st) ++ [SetIsSending false])%list,
    Normal tt)
   /\ appended "assistant" (trace (sendMessage st)) = [])
  /\
  (can_send st text ->
   sendChatMessage (VStr text) (userId_of (user st))
     (threadId_of (activeChat st)) = (tr, Normal response) ->
   sendMessageFromText st text =
   ((voice_opening text ++ tr ++ trace (refresh st) ++ [SetIsSending false])%list,
    Normal tt)
   /\ appended "assistant" (trace (sendMessageFromText st text)) = []).
Proof.
  intros N Hreply.
  assert (Htr : forall m u th tr', sendChatMessage m u th = (tr', Normal response) ->
                appended "assistant" tr' = []).
  { intros m u th tr' E. apply appended_requests.
    pose proof (sendChatMessage_requests m u th) as P. unfold performs in P.
    rewrite E in P. exact P. }
  assert (R : appended "assistant" (trace (refresh st)) = [])
    by (apply appended_refresh, refresh_refresh).
  split; intros Hcan E.
  - rewrite (sendMessage_replied st _ _ Hcan E N). unfold reply_of. rewrite Hreply.
    split; [reflexivity | ]. cbn [trace fst app].
    rewrite !appended_app, (Htr _ _ _ _ E), R. reflexivity.
  - rewrite (sendMessageFromText_replied st _ _ _ Hcan E N). unfold voice_reply_of.
    rewrite Hreply. split; [reflexivity | ]. cbn [trace fst app].
    rewrite !appended_app, (Htr _ _ _ _ E), R. reflexivity.
Qed.

Lemma a_reply_without_text_shows_nothing_witness :
  sendMessage (H := mute_shop) (typing " hi ") =
  ((opening "hi" ++ [Fetch (post_chat "hi")]
      ++ trace (refresh (H := mute_shop) (typing " hi ")) ++ [SetIsSending false])%list,
   Normal tt)
  /\ appended "assistant" (trace (sendMessage (H := mute_shop) (typing " hi "))) = [].
Proof.
  refine (proj1 (a_reply_without_text_shows_nothing (H := mute_shop) (typing " hi ") ""
                   [Fetch (post_chat "hi")] (VObj [("status", VStr "queued")]) _ _) _ _).
  - reflexivity.
  - reflexivity.
  - repeat split; vm_compute; try reflexivity; discriminate.
  - vm_compute. reflexivity.
Defined.

(** *** Loading and creating chats *)

Lemma getChats_trace `{Browser} u tr c :
  getChats u = (tr, c) -> Forall (fun e => is_fetch e = true) tr.
Proof.
  intros E. pose proof (getChats_requests u) as P. unfold performs in P.
  rewrite E in P. exact P.
Qed.

Lemma getChats_of_errors `{Browser} u tr t :
  getChats u = (tr, Throw t) -> exists name text, t = ErrorObj name text.
Proof.
  intros E. pose proof (getChats_errors u t) as Ht.
  rewrite E in Ht. specialize (Ht eq_refl).
  destruct t as [name text | v]; [eauto | discriminate Ht].
Qed.

(** X20. The first load: when no chat is active and [getChats] yields a
    list that begins with a chat, [fetchChatsWithUserId] stores the list
    and then does exactly what a click on the first chat does: it makes
    that chat the active one and its [messages] (or the empty list) the
    message list. *)
Theorem the_first_load_opens_the_first_chat `{Browser} (st : State) (u first : val)
    (others : list val) (tr : list Effect) :
  truthy u = true -> truthy (activeChat st) = false -> nullish first = false ->
  getChats u = (tr, Normal (VArr (first :: others))) ->
  fetchChatsWithUserId st u
  = ((tr ++ SetChats (first :: others) :: trace (selectChat first))%list, Normal tt)
  /\ run st (trace (fetchChatsWithUserId st u))
     = Some (loaded st (first :: others) first (or_else (get first "messages") (VArr []))).
Proof.
  intros Hu Hactive Hfirst Hchats.
  assert (E : fetchChatsWithUserId st u
              = ((tr ++ SetChats (first :: others) :: trace (selectChat first))%list,
                 Normal tt)).
  { unfold fetchChatsWithUserId, selectChat. rewrite Hu, Hchats, Hactive.
    cbn [negb bind nth List.length Nat.ltb Nat.leb andb]. unfold prop. rewrite Hfirst.
    cbn. reflexivity. }
  split; [exact E | ]. rewrite E. cbn [trace fst].
  rewrite run_app, (run_requests st tr (getChats_trace _ _ _ Hchats)).
  unfold selectChat, prop. rewrite Hfirst. reflexivity.
Qed.

Lemma the_first_load_opens_the_first_chat_witness :
  run (page_of alice)
    (trace (fetchChatsWithUserId (H := shop) (page_of alice) (VStr "user_alice")))
  = Some (loaded (page_of alice) server_chats (nth 0 server_chats VUndef)
            (get (nth 0 server_chats VUndef) "messages")).
Proof.
  refine (proj2 (the_first_load_opens_the_first_chat (H := shop) (page_of alice)
                   (VStr "user_alice") (nth 0 server_chats VUndef) []
                   [Fetch (get_chats "user_alice")] _ _ _ _));
    vm_compute; reflexivity.
Defined.

(** X21. When [getChats] rejects, [fetchChatsWithUserId] empties the chat
    list and resolves; the active chat and the message list stay as they
    are, so that after a refresh that failed the page shows a
    conversation and no chat in the sidebar. *)
Theorem a_failed_load_empties_the_chat_list `{Browser} (st : State) (u : val)
    (tr : list Effect) (t : thrown) :
  truthy u = true -> getChats u = (tr, Throw t) ->
  fetchChatsWithUserId st u = ((tr ++ [SetChats []])%list, Normal tt)
  /\ run st (trace (fetchChatsWithUserId st u))
     = Some (loaded st [] (activeChat st) (messages st)).
Proof.
  intros Hu Hchats.
  destruct (getChats_of_errors _ _ _ Hchats) as (name & text & ->).
  assert (E : fetchChatsWithUserId st u = ((tr ++ [SetChats []])%list, Normal tt)).
  { unfold fetchChatsWithUserId. rewrite Hu, Hchats. reflexivity. }
  split; [exact E | ]. rewrite E. cbn [trace fst].
  rewrite run_app, (run_requests st tr (getChats_trace _ _ _ Hchats)). reflexivity.
Qed.

Lemma a_failed_load_empties_the_chat_list_witness :
  run after_hi (trace (fetchChatsWithUserId (H := browser_of not_found) after_hi
                         (VStr "user_alice")))
  = Some (loaded after_hi [] (chat1 []) (messages after_hi)).
Proof.
  refine (proj2 (a_failed_load_empties_the_chat_list (H := browser_of not_found) after_hi
                   (VStr "user_alice") [Fetch (get_chats "user_alice")]
                   (Error "User not found") _ _));
    vm_compute; reflexivity.
Defined.

Lemma createChat_trace `{Browser} c tr r :
  createChat c = (tr, r) -> Forall (fun e => is_fetch e = true) tr.
Proof.
  intros E. pose proof (createChat_requests c) as P. unfold performs in P.
  rewrite E in P. exact P.
Qed.

Lemma createNewChat_calls `{Browser} (st : State) :
  truthy (get_opt (user st) "user_id") = true ->
  createNewChat st =
  try_catch
    (newChat <- createChat (new_chat_data st) ;;
     emit (SetChats (chats st ++ [newChat])%list) ;;
     emit (SetActiveChat newChat) ;;
     emit (SetMessages (VArr [])))
    (fun _ => ret tt).
Proof.
  intros Hid. unfold createNewChat, new_chat_data. rewrite Hid. cbn [negb].
  rewrite (get_opt_truthy _ _ Hid) in Hid.
  unfold userId_of, or_else. rewrite Hid. reflexivity.
Qed.

(** X22. For a user with a [user_id], [createNewChat] posts that id and
    the name [Chat n+1], [n] the number of chats in the list, to
    [/api/createChat/]; when the server answers, the answer is appended
    to the chat list as it is, becomes the active chat, and the message
    list is emptied. *)
Theorem a_created_chat_is_opened `{Browser} (st : State) (tr : list Effect) (newChat : val) :
  truthy (get_opt (user st) "user_id") = true ->
  createChat (new_chat_data st) = (tr, Normal newChat) ->
  tr = [Fetch (api "POST" "/api/createChat/" (Some (new_chat_data st)))]
  /\ createNewChat st
     = ((tr ++ [ SetChats (chats st ++ [newChat]); SetActiveChat newChat;
                 SetMessages (VArr []) ])%list, Normal tt)
  /\ run st (trace (createNewChat st))
     = Some (loaded st (chats st ++ [newChat]) newChat (VArr [])).
Proof.
  intros Hid Hnew.
  assert (Htr : tr = [Fetch (api "POST" "/api/createChat/" (Some (new_chat_data st)))]).
  { pose proof Hid as Hid'. rewrite (get_opt_truthy _ _ Hid) in Hid'.
    assert (T : trace (createChat (new_chat_data st))
                = [Fetch (api "POST" "/api/createChat/" (Some (new_chat_data st)))]).
    { unfold createChat.
      replace (get (new_chat_data st) "user_id") with (get (user st) "user_id")
        by reflexivity.
      rewrite Hid'. cbn [truthy new_chat_data negb orb]. requests_of. }
    rewrite Hnew in T. exact T. }
  split; [exact Htr | ].
  assert (E : createNewChat st
              = ((tr ++ [ SetChats (chats st ++ [newChat]); SetActiveChat newChat;
                          SetMessages (VArr []) ])%list, Normal tt)).
  { rewrite (createNewChat_calls st Hid), Hnew. reflexivity. }
  split; [exact E | ]. rewrite E. cbn [trace fst].
  rewrite run_app, (run_requests st tr (createChat_trace _ _ _ Hnew)). reflexivity.
Qed.

Lemma a_created_chat_is_opened_witness :
  run (typing "draft") (trace (createNewChat (H := chat_shop) (typing "draft")))
  = Some (loaded (typing "draft") [chat1 []; chat2] chat2 (VArr [])).
Proof.
  refine (proj2 (proj2
            (a_created_chat_is_opened (H := chat_shop) (typing "draft")
               [Fetch (api "POST" "/api/createChat/"
                         (Some (VObj [ ("user_id", VStr "user_alice");
                                       ("session_name", VStr "Chat 2") ])))]
               chat2 _ _)));
    vm_compute; reflexivity.
Defined.

(** X23. [createNewChat] never rejects; and when [createChat] rejects,
    nothing but the request has happened: the chat list, the active chat
    and the message list are as they were, and nothing is shown. *)
Theorem a_chat_that_is_not_created_leaves_the_page `{Browser} (st : State) :
  outcome (createNewChat st) = Normal tt
  /\ (forall tr t, createChat (new_chat_data st) = (tr, Throw t) ->
      truthy (get_opt (user st) "user_id") = true ->
      createNewChat st = (tr, Normal tt)
      /\ run st (trace (createNewChat st)) = Some st).
Proof.
  split.
  - destruct (truthy (get_opt (user st) "user_id")) eqn:Hid.
    + rewrite (createNewChat_calls st Hid).
      destruct (createChat (new_chat_data st)) as [tr [newChat | t]]; reflexivity.
    + unfold createNewChat. rewrite Hid. reflexivity.
  - intros tr t Hnew Hid.
    assert (E : createNewChat st = (tr, Normal tt)).
    { rewrite (createNewChat_calls st Hid), Hnew. cbn. rewrite app_nil_r. reflexivity. }
    split; [exact E | ]. rewrite E.
    exact (run_requests st tr (createChat_trace _ _ _ Hnew)).
Qed.

Lemma a_chat_that_is_not_created_leaves_the_page_witness :
  createNewChat (H := browser_of not_found) (typing "draft") =
  ([Fetch (api "POST" "/api/createChat/"
             (Some (VObj [ ("user_id", VStr "user_alice");
                           ("session_name", VStr "Chat 2") ])))], Normal tt)
  /\ run (typing "draft") (trace (createNewChat (H := browser_of not_found) (typing "draft")))
     = Some (typing "draft").
Proof.
  refine (proj2 (a_chat_that_is_not_created_leaves_the_page (H := browser_of not_found)
                   (typing "draft"))
            [Fetch (api "POST" "/api/createChat/"
                      (Some (VObj [ ("user_id", VStr "user_alice");
                                    ("session_name", VStr "Chat 2") ])))]
            (Error "Failed to create chat: Not Found") _ _);
    vm_compute; reflexivity.
Defined.

(** X24. [handleLikeImage] never rejects and leaves the state of the page
    as it is, whether the like succeeds or not: nothing tells the two
    apart. It sends one request at most, and none at all when the product
    id is missing or is not a string. *)
Theorem a_like_never_fails_and_changes_nothing `{Browser} (st : State) (imageId : val) :
  outcome (handleLikeImage st imageId) = Normal tt
  /\ run st (trace (handleLikeImage st imageId)) = Some st
  /\ (List.length (trace (handleLikeImage st imageId)) <= 1)%nat
  /\ (missing imageId \/ (truthy imageId = true /\ forall s, imageId <> VStr s) ->
      trace (handleLikeImage st imageId) = []).
Proof.
  unfold handleLikeImage.
  destruct (truthy (get_opt (user st) "username")); cbn [negb];
    [ | repeat split; cbn; lia ].
  pose proof (likeImage_requests (get (user st) "username") imageId) as P.
  pose proof (likeImage_once (get (user st) "username") imageId) as L.
  unfold performs in P.
  assert (Hnone : missing imageId \/ (truthy imageId = true /\ forall s, imageId <> VStr s) ->
                  trace (likeImage (get (user st) "username") imageId) = []).
  { intros Hi. unfold likeImage.
    destruct (blank_argument_cases (get (user st) "username"))
      as [-> | [(s & _ & ->) | [? ->]]]; try reflexivity.
    rewrite bind_ret. cbv iota.
    destruct Hi as [Hi | [Hi Hi']].
    - rewrite (blank_argument_missing _ Hi). reflexivity.
    - rewrite (blank_argument_not_a_string _ Hi Hi'). reflexivity. }
  destruct (likeImage (get (user st) "username") imageId) as [tr [v | t]];
    cbn [trace fst] in *; cbn [bind ret try_catch outcome snd trace fst];
    rewrite ?app_nil_r; repeat split; auto using run_requests.
Qed.

Lemma a_like_never_fails_and_changes_nothing_witness :
  trace (handleLikeImage (H := shop) (typing "") (VNum 42)) = [].
Proof.
  refine (proj2 (proj2 (proj2
            (a_like_never_fails_and_changes_nothing (H := shop) (typing "") (VNum 42)))) _).
  right. split; [reflexivity | discriminate].
Defined.

(** *** Opening the page *)

Lemma navigations_refresh tr :
  Forall (fun e => is_refresh e = true) tr -> navigations tr = [].
Proof.
  apply filter_none. intros [] E; try discriminate E; reflexivity.
Qed.

(** X25. For a stored user with at least one photo, the effect of the
    mount stores the user and then, when the user has a [user_id], loads
    the chats of that id, without waiting for them; it navigates nowhere
    and it does not throw, whatever becomes of the load. *)
Theorem a_stored_user_with_photos_is_loaded `{Browser} (st : State) (stored : string)
    (u photo : val) (photos : list val) :
  stored_user = Some stored -> stored <> "" -> JSON_parse stored = Normal u ->
  get_opt (get u "profile") "photo_urls" = VArr (photo :: photos) ->
  mountEffect st
  = (SetUser u ::
       trace (if truthy (get u "user_id")
              then fetchChatsWithUserId st (get u "user_id") else ret tt),
     Normal tt)
  /\ navigations (trace (mountEffect st)) = [].
Proof.
  intros Hstored Hne Hparse Hphotos.
  assert (Hu : nullish u = false) by (destruct u; try discriminate Hphotos; reflexivity).
  assert (E : mountEffect st
              = (SetUser u ::
                   trace (if truthy (get u "user_id")
                          then fetchChatsWithUserId st (get u "user_id") else ret tt),
                 Normal tt)).
  { unfold mountEffect. rewrite Hstored.
    destruct stored as [| c r]; [contradiction Hne; reflexivity | ].
    rewrite Hparse. cbn [bind]. unfold prop. rewrite Hu. cbn [bind ret emit app].
    rewrite Hphotos. cbn [truthy negb orb List.length Nat.eqb].
    unfold get_opt. rewrite Hu.
    destruct (truthy (get u "user_id")) eqn:Hid; [ | reflexivity].
    unfold userId_of, or_else. rewrite Hid. unfold detach.
    destruct (fetchChatsWithUserId st (get u "user_id")). reflexivity. }
  split; [exact E | ]. rewrite E. cbn [trace fst navigations filter is_navigation].
  apply navigations_refresh.
  destruct (truthy (get u "user_id")); [apply fetchChatsWithUserId_refresh | constructor].
Qed.

Lemma a_stored_user_with_photos_is_loaded_witness :
  mountEffect (H := shop) initial =
  ([ SetUser alice; Fetch (get_chats "user_alice"); SetChats server_chats;
     SetActiveChat (nth 0 server_chats VUndef);
     SetMessages (get (nth 0 server_chats VUndef) "messages") ], Normal tt)
  /\ navigations (trace (mountEffect (H := shop) initial)) = [].
Proof.
  refine (a_stored_user_with_photos_is_loaded (H := shop) initial "alice" alice
            (VStr photo_url) [] _ _ _ _);
    try discriminate; vm_compute; reflexivity.
Defined.

(** X26. A stored user that is not JSON, or that is the JSON value
    [null], strands the page: the effect of the mount throws (what
    [JSON.parse] threw, or, once [null] is stored as the user, a
    [TypeError] whose text is the engine's), without a request and
    without the redirect to [/login] that a missing user gets. *)
Theorem a_stored_user_that_does_not_parse_strands_the_page `{Browser} (st : State)
    (stored : string) :
  stored_user = Some stored -> stored <> "" ->
  (forall t, JSON_parse stored = Throw t -> mountEffect st = ([], Throw t))
  /\ (forall v, JSON_parse stored = Normal v -> nullish v = true ->
      exists text, mountEffect st = ([SetUser v], Throw (TypeError text))).
Proof.
  intros Hstored Hne.
  destruct stored as [| c r]; [contradiction Hne; reflexivity | ].
  split.
  - intros t Hparse. unfold mountEffect. rewrite Hstored, Hparse. reflexivity.
  - intros v Hparse Hv. unfold mountEffect. rewrite Hstored, Hparse.
    cbn [bind]. unfold prop. rewrite Hv. eexists. reflexivity.
Qed.

Lemma a_stored_user_that_does_not_parse_strands_the_page_witness :
  mountEffect (H := corrupt_browser) initial
  = ([], Throw (ErrorObj "SyntaxError" "Unexpected end of JSON input"))
  /\ (exists text,
        mountEffect (H := browser (Some "null") VNull offline) initial
        = ([SetUser VNull], Throw (TypeError text))).
Proof.
  split.
  - refine (proj1 (a_stored_user_that_does_not_parse_strands_the_page
                     (H := corrupt_browser) initial "{" _ _) _ _);
      try discriminate; reflexivity.
  - refine (proj2 (a_stored_user_that_does_not_parse_strands_the_page
                     (H := browser (Some "null") VNull offline) initial "null" _ _)
              VNull _ _);
      try discriminate; reflexivity.
Defined.

(** ** Voice input *)

Lemma onresult_from final results :
  fold_left
    (fun final r => if isFinal r then final ++ transcript r ++ " " else final)
    results final
  = final ++ String.concat "" (map (fun r => transcript r ++ " ") (filter isFinal results)).
Proof.
  revert final. induction results as [| r results IH]; intros final; cbn [fold_left filter].
  - cbn. now rewrite append_nil_r.
  - rewrite IH. destruct (isFinal r); [ | reflexivity].
    cbn [map]. rewrite append_assoc. f_equal.
    destruct (map _ (filter isFinal results)); cbn [String.concat].
    + now rewrite append_nil_r.
    + reflexivity.
Qed.

(** X27. What [recognition.onresult] adds to the transcript: the results
    of the event from [resultIndex] on that are final, in their order,
    each followed by one blank. Interim results add nothing, and results
    before [resultIndex] are not added a second time. *)
Theorem only_final_results_are_kept (final : string) (resultIndex : nat)
    (results : list SpeechResult) :
  onresult final resultIndex results
  = final ++ String.concat ""
               (map (fun r => transcript r ++ " ")
                  (filter isFinal (skipn resultIndex results))).
Proof.
  unfold onresult. generalize (skipn resultIndex results) as heard.
  intros heard. apply onresult_from.
Qed.

(** X28. When no result of the recognition was final, the end of the
    recognition releases the recording flag and raises the alert "No
    speech detected"; nothing is sent and the page is not touched. *)
Theorem silence_raises_the_alert `{Browser} (st : State) (resultIndex : nat)
    (results : list SpeechResult) :
  forallb (fun r => negb (isFinal r)) (skipn resultIndex results) = true ->
  onend st (onresult "" resultIndex results)
  = ([SetIsRecording false; Alert no_speech], Normal tt).
Proof.
  intros Hnone. unfold onresult. rewrite onresult_from.
  replace (filter isFinal (skipn resultIndex results)) with (@nil SpeechResult);
    [reflexivity | ].
  induction (skipn resultIndex results) as [| r l IH]; [reflexivity | ].
  cbn [forallb filter] in *. apply andb_true_iff in Hnone. destruct Hnone as [Hr Hl].
  apply negb_true_iff in Hr. rewrite Hr. exact (IH Hl).
Qed.

Lemma silence_raises_the_alert_witness :
  onend (H := shop) (typing "")
    (onresult "" 0 [ {| transcript := "hel"; isFinal := false |};
                     {| transcript := "hello"; isFinal := false |} ])
  = ([SetIsRecording false; Alert no_speech], Normal tt).
Proof.
  refine (silence_raises_the_alert (H := shop) (typing "") 0
            [ {| transcript := "hel"; isFinal := false |};
              {| transcript := "hello"; isFinal := false |} ] _).
  reflexivity.
Defined.

(** X29. When the transcript is not blank and a send can go ahead, the
    end of the recognition releases the recording flag and sends the
    trimmed transcript: the user message and the request to [/chat] carry
    the transcript without the blank that follows its last result. No
    alert is raised. *)
Theorem speech_is_sent_trimmed `{Browser} (st : State) (final : string) :
  can_send st final ->
  exists rest,
    onend st final =
    (SetIsRecording false ::
       map OnPage
         (voice_opening (Str.trim final)
            ++ Fetch (api "POST" "/chat"
                        (Some (chat_body (Str.trim final) (userId_of (user st))
                                 (threadId_of (activeChat st))))) :: rest)%list,
     Normal tt).
Proof.
  intros (Htext & Hflag & Huser & Hchat).
  assert (Hcan : can_send st (Str.trim final))
    by (unfold can_send; rewrite trim_trim; auto).
  destruct (sendMessageFromText_begins st (Str.trim final) Hcan) as [rest E].
  rewrite trim_trim in E. exists rest. unfold onend. cbv zeta.
  apply String.eqb_neq in Htext. cbn [truthy]. rewrite Htext, E. reflexivity.
Qed.

Lemma speech_is_sent_trimmed_witness :
  exists rest,
    onend (H := shop) (typing "") "hi " =
    (SetIsRecording false ::
       map OnPage (voice_opening "hi" ++ Fetch (post_chat "hi") :: rest)%list,
     Normal tt).
Proof.
  refine (speech_is_sent_trimmed (H := shop) (typing "") "hi " _).
  repeat split; vm_compute; try reflexivity; discriminate.
Defined.

(** X30. Speech that ends while a send is in flight (or without an active
    chat, or without a user) is lost without a word: the end of the
    recognition releases the recording flag and does nothing else, no
    message, no request and no alert. *)
Theorem speech_during_a_send_is_dropped `{Browser} (st : State) (final : string) :
  Str.trim final <> "" ->
  isSending st = true \/ truthy (activeChat st) = false
  \/ truthy (get_opt (user st) "username") = false ->
  onend st final = ([SetIsRecording false], Normal tt).
Proof.
  intros Htext Hblocked. unfold onend. cbv zeta.
  apply String.eqb_neq in Htext. cbn [truthy]. rewrite Htext. cbn [negb].
  assert (E : sendMessageFromText st (Str.trim final) = ([], Normal tt)).
  { unfold sendMessageFromText.
    destruct Hblocked as [-> | [-> | ->]];
      rewrite ?orb_true_r; cbn [negb orb]; rewrite ?orb_true_r; try reflexivity;
      destruct (_ || _); reflexivity. }
  rewrite E. reflexivity.
Qed.

Lemma speech_during_a_send_is_dropped_witness :
  onend (H := shop) sending "and a hat " = ([SetIsRecording false], Normal tt).
Proof.
  refine (speech_during_a_send_is_dropped (H := shop) sending "and a hat " _ _).
  - vm_compute. discriminate.
  - left. reflexivity.
Defined.
